(** * Wallet authentication server (backend/server.js)

    A shallow embedding of the Express handlers of [src/backend/server.js]:
    [GET /api/auth/nonce/:walletAddress], [POST /api/auth/verify] and
    [POST /api/auth/link-wallet], over a model of the three Supabase tables
    the handlers touch.

    Conventions.
    - Instants ([Date]) are integers: milliseconds since the epoch.
    - JavaScript strings are [string]; the handlers only build ASCII text.
    - Every [await supabase...] is one atomic store operation; a handler is a
      program that performs such operations one after the other, so that two
      requests can be interleaved at exactly the points where the JavaScript
      code awaits.
    - [ethers] is an external library: its three functions used by the server
      are parameters (record [Deps]).
    - The database is the one of the migration in IMPLEMENTATION_SUMMARY.md:
      its uniqueness constraints and its trigger on [wallet_addresses] are
      part of the store; what its row-level policies refuse or hide depends on
      who the server's client is signed in as and on the database clock, and
      is decided from outside, call by call (record [Env]). *)

From Stdlib Require Import String Ascii ZArith List Bool Lia.
From Stdlib Require Import Permutation Sorted.
From Stdlib Require Import Floats.PrimFloat Floats.FloatOps Floats.SpecFloat Uint63.
From Stdlib Require Import DecimalString DecimalN.
Import ListNotations.
Open Scope string_scope.
Open Scope Z_scope.

(** ** JavaScript string primitives used by the server *)

Module Js.

(** [c] is one of the characters of the class [[a-f0-9]]. *)
Definition isLowerHex (c : ascii) : bool :=
  let n := nat_of_ascii c in
  ((48 <=? n) && (n <=? 57) || (97 <=? n) && (n <=? 102))%nat.

(** [String.prototype.toLowerCase] on an ASCII character. *)
Definition lowerChar (c : ascii) : ascii :=
  let n := nat_of_ascii c in
  if ((65 <=? n) && (n <=? 90))%nat then ascii_of_nat (n + 32) else c.

Fixpoint toLowerCase (s : string) : string :=
  match s with
  | EmptyString => EmptyString
  | String c r => String (lowerChar c) (toLowerCase r)
  end.

(** [s.substring(0, n)]. *)
Definition substring0 (n : nat) (s : string) : string := substring 0 n s.

(** *** [Buffer.toString('hex')] *)

Definition hexDigit (n : nat) : ascii :=
  match n with
  | 0 => "0" | 1 => "1" | 2 => "2" | 3 => "3" | 4 => "4" | 5 => "5"
  | 6 => "6" | 7 => "7" | 8 => "8" | 9 => "9" | 10 => "a" | 11 => "b"
  | 12 => "c" | 13 => "d" | 14 => "e" | _ => "f"
  end%nat%char.

(** A byte is a natural number; only its value modulo 256 is used. *)
Definition hexByte (b : nat) : string :=
  let v := (b mod 256)%nat in
  String (hexDigit (v / 16)) (String (hexDigit (v mod 16)) EmptyString).

Fixpoint toHex (bytes : list nat) : string :=
  match bytes with
  | [] => EmptyString
  | b :: r => hexByte b ++ toHex r
  end.

(** *** [message.match(/Nonce: ([a-f0-9]+)/)]

    The longest run of [[a-f0-9]] at the head of [s]: what the greedy group
    captures once the literal part has matched. *)
Fixpoint takeHex (s : string) : string :=
  match s with
  | String c r => if isLowerHex c then String c (takeHex r) else EmptyString
  | EmptyString => EmptyString
  end.

Fixpoint allLowerHex (s : string) : bool :=
  match s with
  | String c r => isLowerHex c && allLowerHex r
  | EmptyString => true
  end.

(** [stripPrefix p s] is the rest of [s] after the literal [p], if [s] starts
    with [p]. *)
Fixpoint stripPrefix (p s : string) : option string :=
  match p with
  | EmptyString => Some s
  | String a p' =>
      match s with
      | String b s' => if Ascii.eqb a b then stripPrefix p' s' else None
      | EmptyString => None
      end
  end.

(** An attempt to match the pattern at the head of [s]. *)
Definition matchNonceHere (s : string) : option string :=
  match stripPrefix "Nonce: " s with
  | Some rest =>
      match takeHex rest with
      | EmptyString => None
      | h => Some h
      end
  | None => None
  end.

(** The leftmost match; the result is capture group 1, [None] is [null]. *)
Fixpoint matchNonce (s : string) : option string :=
  match matchNonceHere s with
  | Some h => Some h
  | None =>
      match s with
      | String _ r => matchNonce r
      | EmptyString => None
      end
  end.

(** *** [Date.prototype.toISOString]

    Proleptic Gregorian calendar, UTC, for instants in the years 0000-9999
    (the four-digit form [YYYY-MM-DDTHH:mm:ss.sssZ]). *)

Definition digitChar (d : Z) : ascii := hexDigit (Z.to_nat (d mod 10)).

Fixpoint padNat (width : nat) (v : Z) (acc : string) : string :=
  match width with
  | O => acc
  | S w => padNat w (v / 10) (String (digitChar v) acc)
  end.

Definition pad (width : nat) (v : Z) : string := padNat width v EmptyString.

(** Civil date of a day count since 1970-01-01. *)
Definition civilFromDays (days : Z) : Z * Z * Z :=
  let z := days + 719468 in
  let era := z / 146097 in
  let doe := z - era * 146097 in
  let yoe := (doe - doe / 1460 + doe / 36524 - doe / 146096) / 365 in
  let doy := doe - (365 * yoe + yoe / 4 - yoe / 100) in
  let mp := (5 * doy + 2) / 153 in
  let d := doy - (153 * mp + 2) / 5 + 1 in
  let m := if mp <? 10 then mp + 3 else mp - 9 in
  let y := yoe + era * 400 + (if m <=? 2 then 1 else 0) in
  (y, m, d).

Definition toISOString (ms : Z) : string :=
  let days := ms / 86400000 in
  let rem := ms mod 86400000 in
  let '(y, m, d) := civilFromDays days in
  pad 4 y ++ "-" ++ pad 2 m ++ "-" ++ pad 2 d ++ "T"
    ++ pad 2 (rem / 3600000) ++ ":" ++ pad 2 (rem / 60000 mod 60) ++ ":"
    ++ pad 2 (rem / 1000 mod 60) ++ "." ++ pad 3 (rem mod 1000) ++ "Z".

End Js.

(** ** Values of a request body

    A field of a JSON body that JavaScript takes for true or tests with
    [!field]: a string, or a value that is no string and not [null], [false]
    or [0] -- a number, [true], an array, an object -- kept as its JSON text.
    A string is used as a value where one is expected. *)
Inductive Value :=
| Str (s : string)
| NonString (json : string).

Coercion Str : string >-> Value.

(** A field written [Some s] with a string [s] holds that string. *)
Arguments Some {A} & a.

(** [!v] for a value that is present. *)
Definition falsy (v : Value) : bool :=
  match v with
  | Str s => String.eqb s EmptyString
  | NonString _ => false
  end.

(** ** External libraries *)

(** The functions of [ethers] the server calls. [None] stands for a thrown
    exception. The signature given to [verifyMessage] is any value the
    request carried (a string, or an object the library may read as a
    signature). [JWT_SECRET] is the configured signing key. *)
Record Deps := {
  isAddress : string -> bool;
  getAddress : string -> option string;
  verifyMessage : string -> Value -> option string;
  JWT_SECRET : string
}.

(** What the [ethers] documentation promises of these functions: [isAddress]
    holds exactly where [getAddress] does not throw; [getAddress] returns the
    checksum form, which [getAddress] leaves alone and which is determined by
    the lower-case form of the address; [verifyMessage] returns the signer in
    checksum form. None of this is assumed by the handlers. *)
Record EthersContract (d : Deps) : Prop := {
  isAddress_spec :
    forall a, isAddress d a = true <-> exists c, getAddress d a = Some c;
  getAddress_idem :
    forall a c, getAddress d a = Some c -> getAddress d c = Some c;
  getAddress_lower :
    forall c, getAddress d c = Some c ->
              getAddress d (Js.toLowerCase c) = Some c;
  verifyMessage_checksum :
    forall m s r, verifyMessage d m s = Some r -> getAddress d r = Some r
}.

(** [jsonwebtoken], symbolically: a token is its payload, the registered
    claims [iat] and [exp] (seconds), and the key that signed it. A string that
    is no token of this server is a token signed with another key. *)
Record JwtPayload := {
  userId : string;
  walletAddress : string;
  authMethod : string
}.

Record Jwt := {
  jwt_payload : JwtPayload;
  jwt_iat : Z;
  jwt_exp : Z;
  jwt_key : string
}.

(** [jwt.sign(payload, secret, { expiresIn })] at instant [now] (ms). *)
Definition jwt_sign (payload : JwtPayload) (secret : string)
    (expiresIn : Z) (now : Z) : Jwt :=
  let iat := now / 1000 in
  {| jwt_payload := payload; jwt_iat := iat; jwt_exp := iat + expiresIn;
     jwt_key := secret |}.

(** [jwt.verify(token, secret)] at instant [now] (ms); [None] is a throw. *)
Definition jwt_verify (token : Jwt) (secret : string) (now : Z)
    : option JwtPayload :=
  if negb (String.eqb (jwt_key token) secret) then None
  else if jwt_exp token <=? now / 1000 then None
  else Some (jwt_payload token).

(** ['7d'] in seconds. *)
Definition sevenDays : Z := 7 * 24 * 60 * 60.

(** ** The store

    The tables of the migration (IMPLEMENTATION_SUMMARY.md) with the columns
    the server reads or writes. Generated keys are natural numbers. *)

Record NonceRow := {
  n_id : nat;
  n_wallet_address : string;
  n_nonce : string;
  n_expires_at : Z;
  n_used : bool
}.

Record WalletRow := {
  w_id : nat;
  w_user_id : string;
  w_wallet_address : string;
  w_is_primary : bool
}.

Record ProfileRow := {
  p_id : string;
  p_email : string;
  p_first_name : string;
  p_last_name : string;
  p_profile_completion : Z
}.

Record DB := {
  auth_nonces : list NonceRow;
  wallet_addresses : list WalletRow;
  profiles : list ProfileRow
}.

(** The [{ data, error }] object every Supabase call resolves to. *)
Record Reply (X : Type) := { data : option X; error : bool }.
Arguments data {X} _.
Arguments error {X} _.

Definition ok {X} (x : X) : Reply X := {| data := Some x; error := false |}.
Definition noRow {X} : Reply X := {| data := None; error := false |}.
Definition failed {X} : Reply X := {| data := None; error := true |}.

(** The awaited calls of the three handlers. *)
Inductive Op : Type -> Type :=
| InsertNonce (wallet_address nonce : string) (expires_at : Z)
    : Op (Reply NonceRow)
| SelectUnusedNonce (nonce wallet_address : string) : Op (Reply NonceRow)
| MarkNonceUsed (id : nat) : Op (Reply unit)
| SelectWalletByAddress (wallet_address : string) : Op (Reply WalletRow)
| SignUp (email password wallet_address : string) : Op (Reply string)
| InsertProfile (row : ProfileRow) : Op (Reply unit)
| InsertWallet (user_id wallet_address : string) (is_primary : bool)
    : Op (Reply unit)
| SelectWalletsOfUser (user_id : string) : Op (Reply (list WalletRow)).

(** What the outside decides for one request: which store calls are refused
    or come back empty, and what the account service answers to [signUp] (the
    new user's id, or nothing). A call is refused by an outage or by a
    row-level policy of the migration; the handlers cannot tell the two apart
    where they read only [data]. Under the policies of the migration:
    - the update of [used] is always refused ([fail_mark_used]): the read
      policy of [auth_nonces], [expires_at > now() AND used = false], is
      applied to the updated row as well;
    - the nonce lookup returns no row once the database clock has reached
      [expires_at] ([fail_select_nonce]);
    - the two link lookups return only links of the user the server's client
      is signed in as ([fail_select_wallet], [fail_select_user_wallets]);
    - the inserts into [profiles] and [wallet_addresses] are refused for
      every other user ([fail_insert_profile], [fail_insert_wallet]). *)
Record Env := {
  fail_insert_nonce : bool;
  fail_select_nonce : bool;
  fail_mark_used : bool;
  fail_select_wallet : bool;
  signUp_user : option string;
  fail_insert_profile : bool;
  fail_insert_wallet : bool;
  fail_select_user_wallets : bool
}.

(** What holds of every request under the policies of the migration,
    whoever is signed in and whatever the time. *)
Definition migrated (e : Env) : Prop := fail_mark_used e = true.

(** Nothing is refused and [signUp] answers with user [u]. *)
Definition calm (u : string) : Env :=
  {| fail_insert_nonce := false; fail_select_nonce := false;
     fail_mark_used := false; fail_select_wallet := false;
     signUp_user := Some u; fail_insert_profile := false;
     fail_insert_wallet := false; fail_select_user_wallets := false |}.

Module Store.

Definition freshId {R} (id : R -> nat) (rows : list R) : nat :=
  S (list_max (map id rows)).

(** [.maybeSingle()]: no row is [null], one row is that row, several rows
    are an error. *)
Definition maybeSingle {R} (rows : list R) : Reply R :=
  match rows with
  | [] => noRow
  | [r] => ok r
  | _ => failed
  end.

Definition nonceHeld (nonce : string) (rows : list NonceRow) : bool :=
  existsb (fun r => String.eqb (n_nonce r) nonce) rows.

Definition addressHeld (a : string) (rows : list WalletRow) : bool :=
  existsb (fun r => String.eqb (w_wallet_address r) a) rows.

Definition profileClash (p : ProfileRow) (rows : list ProfileRow) : bool :=
  existsb (fun r => String.eqb (p_id r) (p_id p)
                    || String.eqb (p_email r) (p_email p)) rows.

Definition unusedNonces (nonce wallet : string) (rows : list NonceRow)
    : list NonceRow :=
  filter (fun r => String.eqb (n_nonce r) nonce
                   && String.eqb (n_wallet_address r) wallet
                   && Bool.eqb (n_used r) false) rows.

Definition markUsed (id : nat) (rows : list NonceRow) : list NonceRow :=
  map (fun r => if Nat.eqb (n_id r) id
                then {| n_id := n_id r; n_wallet_address := n_wallet_address r;
                        n_nonce := n_nonce r; n_expires_at := n_expires_at r;
                        n_used := true |}
                else r) rows.

Definition walletsAt (a : string) (rows : list WalletRow) : list WalletRow :=
  filter (fun r => String.eqb (w_wallet_address r) a) rows.

Definition walletsOf (u : string) (rows : list WalletRow) : list WalletRow :=
  filter (fun r => String.eqb (w_user_id r) u) rows.

(** The trigger [enforce_single_primary_wallet] of the migration: before a
    primary link of user [u] is inserted, the primary links [u] already has
    lose the flag. *)
Definition demote (u : string) (rows : list WalletRow) : list WalletRow :=
  map (fun r => if String.eqb (w_user_id r) u && w_is_primary r
                then {| w_id := w_id r; w_user_id := w_user_id r;
                        w_wallet_address := w_wallet_address r;
                        w_is_primary := false |}
                else r) rows.

Definition setNonces (db : DB) (l : list NonceRow) : DB :=
  {| auth_nonces := l; wallet_addresses := wallet_addresses db;
     profiles := profiles db |}.

Definition setWallets (db : DB) (l : list WalletRow) : DB :=
  {| auth_nonces := auth_nonces db; wallet_addresses := l;
     profiles := profiles db |}.

Definition setProfiles (db : DB) (l : list ProfileRow) : DB :=
  {| auth_nonces := auth_nonces db; wallet_addresses := wallet_addresses db;
     profiles := l |}.

(** One store call, executed atomically. The uniqueness constraints of the
    schema ([auth_nonces.nonce], [wallet_addresses.wallet_address],
    [profiles.id], [profiles.email]) refuse an insert by themselves, and an
    accepted insert of a primary link fires the trigger. What the row-level
    policies and the foreign keys refuse is a refused call of [Env]. *)
Definition exec (e : Env) (db : DB) {X} (op : Op X) : DB * X :=
  match op in Op X return DB * X with
  | InsertNonce w n t =>
      if fail_insert_nonce e || nonceHeld n (auth_nonces db) then (db, failed)
      else
        let row := {| n_id := freshId n_id (auth_nonces db);
                      n_wallet_address := w; n_nonce := n; n_expires_at := t;
                      n_used := false |} in
        (setNonces db (auth_nonces db ++ [row]), ok row)
  | SelectUnusedNonce n w =>
      if fail_select_nonce e then (db, failed)
      else (db, maybeSingle (unusedNonces n w (auth_nonces db)))
  | MarkNonceUsed id =>
      if fail_mark_used e then (db, failed)
      else (setNonces db (markUsed id (auth_nonces db)), ok tt)
  | SelectWalletByAddress a =>
      if fail_select_wallet e then (db, failed)
      else (db, maybeSingle (walletsAt a (wallet_addresses db)))
  | SignUp _ _ _ =>
      match signUp_user e with
      | Some u => (db, ok u)
      | None => (db, failed)
      end
  | InsertProfile p =>
      if fail_insert_profile e || profileClash p (profiles db) then (db, failed)
      else (setProfiles db (profiles db ++ [p]), ok tt)
  | InsertWallet u a primary =>
      if fail_insert_wallet e || addressHeld a (wallet_addresses db)
      then (db, failed)
      else
        let row := {| w_id := freshId w_id (wallet_addresses db);
                      w_user_id := u; w_wallet_address := a;
                      w_is_primary := primary |} in
        let others := if primary then demote u (wallet_addresses db)
                      else wallet_addresses db in
        (setWallets db (others ++ [row]), ok tt)
  | SelectWalletsOfUser u =>
      if fail_select_user_wallets e then (db, failed)
      else (db, ok (walletsOf u (wallet_addresses db)))
  end.

End Store.

(** ** Handlers as programs over the store *)

(** A handler either answers or awaits a store call and goes on with its
    result. *)
Inductive Prog (A : Type) : Type :=
| Ret (a : A)
| Await {X : Type} (op : Op X) (k : X -> Prog A).
Arguments Ret {A} _.
Arguments Await {A X} _ _.

Notation "'await' x <- op ; k" := (Await op (fun x => k))
  (at level 10, x name, op at level 100, k at level 200, only parsing).

(** Runs one awaited call. *)
Definition step (e : Env) (db : DB) {A} (p : Prog A) : DB * Prog A :=
  match p with
  | Ret a => (db, Ret a)
  | Await op k => let '(db', x) := Store.exec e db op in (db', k x)
  end.

(** Runs a handler to its answer, with no other request in between. *)
Fixpoint run (e : Env) (db : DB) {A} (p : Prog A) : DB * A :=
  match p with
  | Ret a => (db, a)
  | Await op k => let '(db', x) := Store.exec e db op in run e db' (k x)
  end.

Definition answer {A} (p : Prog A) : option A :=
  match p with
  | Ret a => Some a
  | Await _ _ => None
  end.

(** Two requests in flight: [true] lets the first run its next awaited call,
    [false] the second. *)
Fixpoint interleave (sched : list bool) (e1 e2 : Env) (db : DB) {A}
    (p1 p2 : Prog A) : DB * Prog A * Prog A :=
  match sched with
  | [] => (db, p1, p2)
  | true :: rest =>
      let '(db', p1') := step e1 db p1 in interleave rest e1 e2 db' p1' p2
  | false :: rest =>
      let '(db', p2') := step e2 db p2 in interleave rest e1 e2 db' p1 p2'
  end.

(** What a request reads besides its body: the successive readings of the
    clock (ms) and the bytes [crypto.randomBytes(32)] returns. *)
Record Ambient := {
  clock : nat -> Z;
  random : list nat
}.

Inductive Body :=
| BError (error : string)
| BNonce (nonce message expiresAt : string)
| BVerify (success : bool) (token : Jwt) (userId walletAddress : string)
    (isNewUser : bool) (message : string)
| BLink (success : bool) (message walletAddress : string).

Record Response := { status : nat; body : Body }.

Definition json (code : nat) (b : Body) : Response :=
  {| status := code; body := b |}.

Definition fail (code : nat) (msg : string) : Prog Response :=
  Ret (json code (BError msg)).

(** Request bodies. A field of a verify request is [None] when it is absent,
    [null], [false] or [0], and a value otherwise; the test [!field] of the
    handlers holds of [None] and of the empty string. A link request is
    taken with string fields and its token as parsed: there a value that is
    no string is treated as a string the conversion rejects (wallet address),
    as an id that is not the token's (user id), or as a token that does not
    verify. *)
Record VerifyRequest := {
  vr_walletAddress : option Value;
  vr_signature : option Value;
  vr_message : option Value
}.

Record LinkRequest := {
  lr_walletAddress : option string;
  lr_userId : option string;
  lr_authToken : option Jwt
}.

Section Server.

Variable d : Deps.

Definition generateNonce (bytes : list nat) : string := Js.toHex bytes.

Definition preamble : string :=
  "Sign this message to authenticate with DilSe Matchify.".

Definition newline : string := String (ascii_of_nat 10) EmptyString.

(** The template literal of the nonce handler. *)
Definition challenge (nonce timestamp : string) : string :=
  preamble ++ newline ++ newline ++ "Nonce: " ++ nonce ++ newline
    ++ "Timestamp: " ++ timestamp.

(** [GET /api/auth/nonce/:walletAddress] *)
Definition getNonce (a : Ambient) (walletAddress : string) : Prog Response :=
  if negb (isAddress d walletAddress) then fail 400 "Invalid wallet address"
  else
    match getAddress d walletAddress with
    | None => fail 500 "Internal server error"
    | Some checksummedAddress =>
        let nonce := generateNonce (random a) in
        let expiresAt := clock a 0 + 5 * 60 * 1000 in
        await r <- InsertNonce checksummedAddress nonce expiresAt ;
        if error r then fail 500 "Failed to generate nonce"
        else
          let message := challenge nonce (Js.toISOString (clock a 1)) in
          Ret (json 200 (BNonce nonce message (Js.toISOString expiresAt)))
    end.

(** The session token of a verified wallet. *)
Definition sessionToken (a : Ambient) (user checksummedAddress : string)
    : Jwt :=
  jwt_sign {| userId := user; walletAddress := checksummedAddress;
              authMethod := "wallet" |}
           (JWT_SECRET d) sevenDays (clock a 1).

Definition verified (a : Ambient) (user checksummedAddress : string)
    (isNewUser : bool) : Response :=
  json 200 (BVerify true (sessionToken a user checksummedAddress) user
                    checksummedAddress isNewUser
                    (if isNewUser then "Account created successfully"
                     else "Login successful")).

(** The [else] branch of the lookup: a first login creates the account. *)
Definition createAccount (a : Ambient) (checksummedAddress : string)
    : Prog Response :=
  let tempEmail :=
    Js.toLowerCase checksummedAddress ++ "@wallet.dilsematchify.com" in
  await s <- SignUp tempEmail (Js.toHex (random a)) checksummedAddress ;
  match error s, data s with
  | false, Some user =>
      await _ <- InsertProfile
        {| p_id := user; p_email := tempEmail; p_first_name := "User";
           p_last_name := Js.substring0 8 checksummedAddress;
           p_profile_completion := 10 |} ;
      await _ <- InsertWallet user checksummedAddress true ;
      Ret (verified a user checksummedAddress true)
  | _, _ => fail 500 "Failed to create user account"
  end.

(** [POST /api/auth/verify]. A wallet address that is no string is no
    address for [isAddress]; on a message that is no string the call of
    [match] throws into the generic handler. *)
Definition verify (a : Ambient) (req : VerifyRequest) : Prog Response :=
  match vr_walletAddress req, vr_signature req, vr_message req with
  | Some walletAddress, Some signature, Some message =>
    if falsy walletAddress || falsy signature || falsy message
    then fail 400 "Missing required fields"
    else
      match walletAddress with
      | NonString _ => fail 400 "Invalid wallet address"
      | Str walletAddress =>
        if negb (isAddress d walletAddress)
        then fail 400 "Invalid wallet address"
        else
          match getAddress d walletAddress with
          | None => fail 500 "Internal server error"
          | Some checksummedAddress =>
            match message with
            | NonString _ => fail 500 "Internal server error"
            | Str message =>
              match Js.matchNonce message with
              | None => fail 400 "Invalid message format"
              | Some nonce =>
                await r <- SelectUnusedNonce nonce checksummedAddress ;
                match error r, data r with
                | false, Some nonceData =>
                  if n_expires_at nonceData <? clock a 0
                  then fail 401 "Nonce has expired"
                  else
                    match verifyMessage d message signature with
                    | None => fail 401 "Invalid signature"
                    | Some recoveredAddress =>
                      if negb (String.eqb (Js.toLowerCase recoveredAddress)
                                          (Js.toLowerCase checksummedAddress))
                      then fail 401 "Signature does not match wallet address"
                      else
                        await _ <- MarkNonceUsed (n_id nonceData) ;
                        await w <- SelectWalletByAddress checksummedAddress ;
                        match data w with
                        | Some walletData =>
                            if negb (String.eqb (w_user_id walletData)
                                                EmptyString)
                            then Ret (verified a (w_user_id walletData)
                                               checksummedAddress false)
                            else createAccount a checksummedAddress
                        | None => createAccount a checksummedAddress
                        end
                    end
                | _, _ => fail 401 "Invalid or expired nonce"
                end
              end
            end
          end
      end
  | _, _, _ => fail 400 "Missing required fields"
  end.

(** [POST /api/auth/link-wallet] *)
Definition linkWallet (a : Ambient) (req : LinkRequest) : Prog Response :=
  match lr_walletAddress req, lr_userId req, lr_authToken req with
  | Some walletAddress, Some user, Some authToken =>
    if String.eqb walletAddress EmptyString || String.eqb user EmptyString
    then fail 400 "Missing required fields"
    else
      match jwt_verify authToken (JWT_SECRET d) (clock a 0) with
      | None => fail 401 "Invalid or expired token"
      | Some decoded =>
        if negb (String.eqb (userId decoded) user)
        then fail 403 "Unauthorized"
        else
          match getAddress d walletAddress with
          | None => fail 500 "Internal server error"
          | Some checksummedAddress =>
            await existingWallet <- SelectWalletByAddress checksummedAddress ;
            match data existingWallet with
            | Some _ => fail 400 "Wallet already linked to another account"
            | None =>
              await userWallets <- SelectWalletsOfUser user ;
              let isPrimary :=
                match data userWallets with
                | None => true
                | Some l => Nat.eqb (List.length l) 0
                end in
              await r <- InsertWallet user checksummedAddress isPrimary ;
              if error r then fail 500 "Failed to link wallet"
              else Ret (json 200 (BLink true "Wallet linked successfully"
                                        checksummedAddress))
            end
          end
      end
  | _, _, _ => fail 400 "Missing required fields"
  end.

End Server.

(** ** The signature verifier in the words of the specification

    Recover the signer, normalize the recovered and the claimed address to
    checksum form, compare the two normal forms exactly. Used only to state
    that the handler's own comparison agrees with it. *)



(** ** A concrete world for running the handlers

    Two wallets, each accepted in its checksum spelling and in lower case; a
    signature is valid for one message and one signer. *)

Module Sim.

Definition alice : string := "0xf39Fd6e51aad88F6F4ce6aB8827279cffFb92266".
Definition bob : string := "0xd8dA6BF26964aF9D7eEd9e03E53415D37aA96045".

Definition spelled (s c : string) : bool :=
  String.eqb s c || String.eqb s (Js.toLowerCase c).

Definition getAddress (s : string) : option string :=
  if spelled s alice then Some alice
  else if spelled s bob then Some bob
  else None.

Definition isAddress (s : string) : bool :=
  match getAddress s with
  | Some _ => true
  | None => false
  end.

Definition signedBy (who message : string) : string :=
  who ++ " signed " ++ message.

Definition verifyMessage (message : string) (signature : Value)
    : option string :=
  match signature with
  | Str signature =>
      if String.eqb signature (signedBy alice message) then Some alice
      else if String.eqb signature (signedBy bob message) then Some bob
      else None
  | NonString _ => None
  end.

Definition deps : Deps :=
  Build_Deps isAddress getAddress verifyMessage
             "your-super-secret-jwt-key-change-in-production".

Definition bytes32 : list nat :=
  map (fun i => ((i * 37 + 11) mod 256)%nat) (seq 0 32).

(** A request whose first clock reading is [t]. *)
Definition at_ (t : Z) : Ambient :=
  {| clock := fun k => t + Z.of_nat k; random := bytes32 |}.

Definition empty : DB :=
  {| auth_nonces := []; wallet_addresses := []; profiles := [] |}.

Definition t0 : Z := 1700000000000.

(** The nonce and the message the server issues to alice at [t0]. *)
Definition nonce0 : string := generateNonce bytes32.
Definition message0 : string := challenge nonce0 (Js.toISOString (t0 + 1)).

(** The store after that issuance. *)
Definition issued : DB :=
  fst (run (calm "u-1") empty (getNonce deps (at_ t0) alice)).

Definition goodRequest : VerifyRequest :=
  {| vr_walletAddress := Some alice;
     vr_signature := Some (signedBy alice message0);
     vr_message := Some message0 |}.

Definition badRequest : VerifyRequest :=
  {| vr_walletAddress := Some alice;
     vr_signature := Some "0xdeadbeef";
     vr_message := Some message0 |}.

(** The store after alice's first login with that message. *)
Definition consumed : DB :=
  fst (run (calm "u-1") issued (verify deps (at_ (t0 + 1000)) goodRequest)).

(** The session token of that login, and a request of its holder to link a
    wallet. *)
Definition session : Jwt := sessionToken deps (at_ (t0 + 1000)) "u-1" alice.

Definition linkRequest (wallet : string) : LinkRequest :=
  {| lr_walletAddress := Some wallet; lr_userId := Some "u-1";
     lr_authToken := Some session |}.

(** A store that refuses the two inserts of account creation. *)
Definition refusing : Env :=
  {| fail_insert_nonce := false; fail_select_nonce := false;
     fail_mark_used := false; fail_select_wallet := false;
     signUp_user := Some "u-1"; fail_insert_profile := true;
     fail_insert_wallet := true; fail_select_user_wallets := false |}.

End Sim.

(** A row of the nonce table after an attempt, against the same row before:
    nothing but the flag may differ, and the flag is never cleared. *)
Definition flaggedFrom (before after : NonceRow) : Prop :=
  n_id after = n_id before /\
  n_nonce after = n_nonce before /\
  n_wallet_address after = n_wallet_address before /\
  n_expires_at after = n_expires_at before /\
  (n_used before = true -> n_used after = true).

(** The answer to an attempt that has passed the nonce check and the
    signature check: 200 for the owner of the link the store returned or for
    the account created on the spot, or 500 when no link came back and the
    account service refuses. *)
Definition pastChecks (d : Deps) (a : Ambient) (e : Env) (c : string)
    (r : Response) : Prop :=
  (exists user isNew, r = verified d a user c isNew) \/
  (signUp_user e = None /\
   r = json 500 (BError "Failed to create user account")).

(** More requests in the world of [Sim]. *)
Module Demo.

(** A store under the policies of the migration, as far as they hold of
    every request: the update of [used] is refused. *)
Definition policies (u : string) : Env :=
  {| fail_insert_nonce := false; fail_select_nonce := false;
     fail_mark_used := true; fail_select_wallet := false;
     signUp_user := Some u; fail_insert_profile := false;
     fail_insert_wallet := false; fail_select_user_wallets := false |}.

(** A store whose lookup of a link by address returns nothing: refused, or
    the link hidden from the server's client. *)
Definition lookupHidden (u : string) : Env :=
  {| fail_insert_nonce := false; fail_select_nonce := false;
     fail_mark_used := false; fail_select_wallet := true;
     signUp_user := Some u; fail_insert_profile := false;
     fail_insert_wallet := false; fail_select_user_wallets := false |}.

(** A store whose lookup of a user's links returns nothing. *)
Definition linksHidden (u : string) : Env :=
  {| fail_insert_nonce := false; fail_select_nonce := false;
     fail_mark_used := false; fail_select_wallet := false;
     signUp_user := Some u; fail_insert_profile := false;
     fail_insert_wallet := false; fail_select_user_wallets := true |}.



(** A request without a signature. *)
Definition unsigned : VerifyRequest :=
  {| vr_walletAddress := Some Sim.alice; vr_signature := None;
     vr_message := Some Sim.message0 |}.

(** A request whose message is the number 42. *)
Definition numberAsMessage : VerifyRequest :=
  {| vr_walletAddress := Some Sim.alice;
     vr_signature := Some "0xdeadbeef";
     vr_message := Some (NonString "42") |}.

(** Bob presents the nonce issued to alice, under his own valid signature. *)
Definition bobWithAliceNonce : VerifyRequest :=
  {| vr_walletAddress := Some Sim.bob;
     vr_signature := Some (Sim.signedBy Sim.bob Sim.message0);
     vr_message := Some Sim.message0 |}.


(** Alice signs a message of her own making that embeds the issued nonce. *)
Definition ownMessage : string := "Nonce: " ++ Sim.nonce0.

Definition ownMessageRequest : VerifyRequest :=
  {| vr_walletAddress := Some Sim.alice;
     vr_signature := Some (Sim.signedBy Sim.alice ownMessage);
     vr_message := Some ownMessage |}.

(** The row of the nonce issued to alice. *)
Definition row0 : NonceRow :=
  {| n_id := 1; n_wallet_address := Sim.alice; n_nonce := Sim.nonce0;
     n_expires_at := Sim.t0 + 300000; n_used := false |}.

(** The store after alice's login: her account "u-1" and her link exist.
    A second nonce is then issued to her, from other random bytes. *)
Definition bytes32' : list nat :=
  map (fun i => ((i * 91 + 5) mod 256)%nat) (seq 0 32).

Definition later : Ambient :=
  {| clock := fun k => Sim.t0 + 60000 + Z.of_nat k; random := bytes32' |}.

Definition nonce1 : string := generateNonce bytes32'.
Definition message1 : string :=
  challenge nonce1 (Js.toISOString (Sim.t0 + 60001)).

Definition reissued : DB :=
  fst (run (calm "u-7") Sim.consumed (getNonce Sim.deps later Sim.alice)).

Definition secondLogin : VerifyRequest :=
  {| vr_walletAddress := Some Sim.alice;
     vr_signature := Some (Sim.signedBy Sim.alice message1);
     vr_message := Some message1 |}.

(** The holder of alice's session links bob's wallet to the account. *)
Definition linkedBob : DB :=
  fst (run (calm "u-9") Sim.consumed
           (linkWallet Sim.deps (Sim.at_ (Sim.t0 + 5000))
                       (Sim.linkRequest Sim.bob))).

(** After the link, a nonce is issued to bob's wallet and bob logs in. *)
Definition bobIssued : DB :=
  fst (run (calm "u-7") linkedBob (getNonce Sim.deps later Sim.bob)).

Definition bobLogin : VerifyRequest :=
  {| vr_walletAddress := Some Sim.bob;
     vr_signature := Some (Sim.signedBy Sim.bob message1);
     vr_message := Some message1 |}.

(** A token for "u-1" signed with a key that is not the server's. *)
Definition forged : Jwt :=
  {| jwt_payload := jwt_payload Sim.session; jwt_iat := jwt_iat Sim.session;
     jwt_exp := jwt_exp Sim.session; jwt_key := "guessed" |}.

End Demo.

(** * The browser modules

    ** Numbers

    JavaScript numbers are IEEE 754 doubles; the two percentages of the
    front end are computed with them. *)

Module JsNum.

(** A small non-negative integer as a double (exact below 2^53). *)
Definition ofInt (z : Z) : float := PrimFloat.of_uint63 (Uint63.of_Z z).

(** [Math.round]: the integer nearest to the exact value of [x], a tie going
    to the greater one. Infinities and NaN do not occur here: the callers
    divide by a positive number. *)
Definition mathRound (x : float) : Z :=
  match Prim2SF x with
  | S754_finite false m e =>
      if 0 <=? e then Zpos m * 2 ^ e
      else (2 * Zpos m + 2 ^ (- e)) / (2 * 2 ^ (- e))
  | S754_finite true m e =>
      if 0 <=? e then - (Zpos m * 2 ^ e)
      else (- 2 * Zpos m + 2 ^ (- e)) / (2 * 2 ^ (- e))
  | _ => 0
  end.

(** [Math.round((part / whole) * 100)]. *)
Definition percent (part whole : Z) : Z :=
  mathRound (PrimFloat.mul (PrimFloat.div (ofInt part) (ofInt whole))
                           (ofInt 100)).

(** The same percentage computed exactly, half rounded up. *)
Definition exactPercent (part whole : Z) : Z :=
  (200 * part + whole) / (2 * whole).

(** All pairs [0 <= part <= whole], [1 <= whole <= bound]. *)
Definition pairsUpTo (bound : nat) : list (Z * Z) :=
  flat_map (fun w => map (fun p => (Z.of_nat p, Z.of_nat w)) (seq 0 (S w)))
           (seq 1 bound).

End JsNum.

(** ** matching.js: compatibility of two profiles *)

Module Matching.

(** What the local getters of a [Date] return: [getFullYear], [getMonth]
    (0 to 11) and [getDate]. *)
Record Civil := { year : Z; month : Z; day : Z }.

(** A [date] column as the API returns it, 'YYYY-MM-DD': year, month (1 to
    12) and day of the month. *)
Record IsoDate := { iso_year : Z; iso_month : Z; iso_day : Z }.

Definition leap (y : Z) : bool :=
  (y mod 4 =? 0) && (negb (y mod 100 =? 0) || (y mod 400 =? 0)).

Definition daysInMonth (y m : Z) : Z :=
  if m =? 2 then (if leap y then 29 else 28)
  else if (m =? 4) || (m =? 6) || (m =? 9) || (m =? 11) then 30
  else 31.

Definition validDate (s : IsoDate) : bool :=
  (1 <=? iso_month s) && (iso_month s <=? 12) && (1 <=? iso_day s)
  && (iso_day s <=? daysInMonth (iso_year s) (iso_month s)).

(** The day count since 1970-01-01 of a calendar date. *)
Definition daysFromCivil (y m d : Z) : Z :=
  let y' := if m <=? 2 then y - 1 else y in
  let era := y' / 400 in
  let yoe := y' - era * 400 in
  let doy := (153 * (if 2 <? m then m - 3 else m + 9) + 2) / 5 + d - 1 in
  let doe := yoe * 365 + yoe / 4 - yoe / 100 + doy in
  era * 146097 + doe - 719468.

(** [new Date('YYYY-MM-DD').getTime()]: a date without a time is read as
    midnight UTC of that date. *)
Definition parseDate (s : IsoDate) : Z :=
  daysFromCivil (iso_year s) (iso_month s) (iso_day s) * 86400000.

(** The local getters of the instant [ms], in a zone that is [offset]
    minutes ahead of UTC at that instant (negative west of Greenwich). *)
Definition localCivil (offset ms : Z) : Civil :=
  let '(y, m, d) := Js.civilFromDays ((ms + offset * 60000) / 86400000) in
  {| year := y; month := m - 1; day := d |}.

(** [new Date(dateOfBirth)] of a stored date of birth under the local
    getters. *)
Definition birthDate (offset : Z) (dateOfBirth : IsoDate) : Civil :=
  localCivil offset (parseDate dateOfBirth).

(** A stored date, and the day before it, as calendar dates. *)
Definition civilOf (s : IsoDate) : Civil :=
  {| year := iso_year s; month := iso_month s - 1; day := iso_day s |}.

Definition dayBefore (s : IsoDate) : Civil :=
  if 1 <? iso_day s
  then {| year := iso_year s; month := iso_month s - 1;
          day := iso_day s - 1 |}
  else if 1 <? iso_month s
  then {| year := iso_year s; month := iso_month s - 2;
          day := daysInMonth (iso_year s) (iso_month s - 1) |}
  else {| year := iso_year s - 1; month := 11; day := 31 |}.

Definition sameCivil (x y : Civil) : bool :=
  (year x =? year y) && (month x =? month y) && (day x =? day y).

(** Every year-month-day triple with the year in [lo, lo + n), checked
    against the day count. *)
Definition triples (lo : Z) (n : nat) : list IsoDate :=
  flat_map (fun y =>
    flat_map (fun m =>
      map (fun d => {| iso_year := lo + Z.of_nat y;
                       iso_month := Z.of_nat m; iso_day := Z.of_nat d |})
          (seq 1 31))
      (seq 1 12))
    (seq 0 n).

Definition dayCountAgrees (s : IsoDate) : bool :=
  negb (validDate s)
  || (let n := daysFromCivil (iso_year s) (iso_month s) (iso_day s) in
      let '(y, m, d) := Js.civilFromDays n in
      let '(y', m', d') := Js.civilFromDays (n - 1) in
      sameCivil {| year := y; month := m - 1; day := d |} (civilOf s)
      && sameCivil {| year := y'; month := m' - 1; day := d' |}
                   (dayBefore s)).

(** The columns [calculateCompatibility] reads. A text column is [None]
    when null; [interests] is [None] when null or not an array;
    [date_of_birth] is [None] when null and otherwise the value of
    [new Date(date_of_birth)] under the local getters: for the stored date
    [s] in a zone [offset] minutes ahead of UTC, [birthDate offset s]. Field
    values are ASCII. *)

Record Prefs := { min_age : option Z; max_age : option Z }.

Record Profile := {
  id : string;
  religion : option string;
  education : option string;
  city : option string;
  state : option string;
  interests : option (list string);
  dietary_preferences : option string;
  date_of_birth : option Civil;
  partner_preferences : option Prefs
}.

(** Truthiness of a nullable string and of a nullable integer. *)
Definition truthyS (s : option string) : bool :=
  match s with
  | Some x => negb (String.eqb x EmptyString)
  | None => false
  end.

Definition truthyN (n : option Z) : bool :=
  match n with
  | Some z => negb (z =? 0)
  | None => false
  end.

Definition text (s : option string) : string :=
  match s with
  | Some x => x
  | None => EmptyString
  end.

Definition num (n : option Z) : Z :=
  match n with
  | Some z => z
  | None => 0
  end.

(** The arithmetic of [calculateAge] on its two dates: [today] is
    [new Date()] and [birthDate] is [new Date(dateOfBirth)], each as the
    local getters return it. *)
Definition calculateAge (today birthDate : Civil) : Z :=
  let age := year today - year birthDate in
  let monthDiff := month today - month birthDate in
  if (monthDiff <? 0) || ((monthDiff =? 0) && (day today <? day birthDate))
  then age - 1
  else age.

(** [calculateAge(dateOfBirth)] of a stored date of birth, on a day whose
    local date is [today], in a zone that was [offset] minutes ahead of UTC
    at midnight UTC of the date of birth. *)
Definition calculateAgeOf (offset : Z) (today : Civil)
    (dateOfBirth : IsoDate) : Z :=
  calculateAge today (birthDate offset dateOfBirth).

Definition educationLevels : list string :=
  ["high-school"; "diploma"; "bachelors"; "masters"; "phd"; "professional"].

(** [Array.prototype.indexOf]; [None] is [-1]. *)
Fixpoint indexOf (x : string) (l : list string) : option Z :=
  match l with
  | [] => None
  | y :: r =>
      if String.eqb y x then Some 0
      else match indexOf x r with
           | Some i => Some (i + 1)
           | None => None
           end
  end.

(** [Array.prototype.includes] on strings. *)
Definition includes (l : list string) (x : string) : bool :=
  existsb (String.eqb x) l.

Definition add (acc : Z * Z) (points weight : Z) : Z * Z :=
  (fst acc + points, snd acc + weight).

(** The pair [(score, maxScore)] after the six blocks of the function. *)
Definition tally (today : Civil) (profile1 profile2 : Profile) : Z * Z :=
  let acc := (0, 0) in
  let acc :=
    if truthyS (religion profile1) && truthyS (religion profile2)
    then add acc (if String.eqb (text (religion profile1))
                                (text (religion profile2))
                  then 20 else 0) 20
    else acc in
  let acc :=
    if truthyS (education profile1) && truthyS (education profile2)
    then
      match indexOf (text (education profile1)) educationLevels,
            indexOf (text (education profile2)) educationLevels with
      | Some edu1Index, Some edu2Index =>
          let diff := Z.abs (edu1Index - edu2Index) in
          add acc (Z.max 0 (15 - diff * 3)) 15
      | _, _ => add acc 0 15
      end
    else acc in
  let acc :=
    if truthyS (city profile1) && truthyS (city profile2)
    then
      if String.eqb (Js.toLowerCase (text (city profile1)))
                    (Js.toLowerCase (text (city profile2)))
      then add acc 15 15
      else if truthyS (state profile1) && truthyS (state profile2)
              && String.eqb (Js.toLowerCase (text (state profile1)))
                            (Js.toLowerCase (text (state profile2)))
      then add acc 7 15
      else add acc 0 15
    else acc in
  let acc :=
    match interests profile1, interests profile2 with
    | Some interests1, Some interests2 =>
        let commonInterests := filter (includes interests2) interests1 in
        add acc (Z.min 20 (Z.of_nat (List.length commonInterests) * 4)) 20
    | _, _ => acc
    end in
  let acc :=
    if truthyS (dietary_preferences profile1)
       && truthyS (dietary_preferences profile2)
    then add acc (if String.eqb (text (dietary_preferences profile1))
                                (text (dietary_preferences profile2))
                  then 10 else 0) 10
    else acc in
  let acc :=
    match partner_preferences profile1 with
    | Some prefs =>
        match date_of_birth profile2 with
        | Some birth =>
            if truthyN (min_age prefs) && truthyN (max_age prefs)
            then
              let age := calculateAge today birth in
              add acc (if (num (min_age prefs) <=? age)
                          && (age <=? num (max_age prefs))
                       then 20 else 0) 20
            else acc
        | None => acc
        end
    | None => acc
    end in
  acc.

Definition calculateCompatibility (today : Civil)
    (profile1 profile2 : Profile) : Z :=
  let '(score, maxScore) := tally today profile1 profile2 in
  if 0 <? maxScore then JsNum.percent score maxScore else 50.

(** *** The ordering of [findMatches]

    [matchesWithScores.sort((a, b) => b.compatibility_score -
    a.compatibility_score)]: [Array.prototype.sort] is stable, so the result is
    the one stable arrangement by decreasing score; it is built here by
    insertion from the right. *)
Definition Scored : Type := Profile * Z.

Fixpoint insertDesc (x : Scored) (l : list Scored) : list Scored :=
  match l with
  | [] => [x]
  | y :: r => if snd x <? snd y then y :: insertDesc x r else x :: l
  end.

Definition sortDesc (l : list Scored) : list Scored :=
  fold_right insertDesc [] l.

(** The part of [findMatches] after the query: score every candidate, then
    order the candidates. *)
Definition rankMatches (today : Civil) (myProfile : Profile)
    (potentialMatches : list Profile) : list Scored :=
  sortDesc (map (fun m => (m, calculateCompatibility today myProfile m))
                potentialMatches).

(** Calendar dates in chronological order. *)
Definition notAfter (x y : Civil) : Prop :=
  year x < year y \/
  (year x = year y /\ (month x < month y \/
                       (month x = month y /\ day x <= day y))).

Definition birthday (birth : Civil) (age : Z) : Civil :=
  {| year := year birth + age; month := month birth; day := day birth |}.

(** *** Sample profiles *)

Definition blank (i : string) : Profile :=
  {| id := i; religion := None; education := None; city := None;
     state := None; interests := None; dietary_preferences := None;
     date_of_birth := None; partner_preferences := None |}.

(** Three years of schooling apart, same state but another city, same diet:
    6 + 7 + 10 points of 40. *)
Definition asha : Profile :=
  {| id := "asha"; religion := None; education := Some "diploma";
     city := Some "Pune"; state := Some "Maharashtra"; interests := None;
     dietary_preferences := Some "vegetarian"; date_of_birth := None;
     partner_preferences := None |}.

Definition ravi : Profile :=
  {| id := "ravi"; religion := None; education := Some "phd";
     city := Some "Mumbai"; state := Some "maharashtra"; interests := None;
     dietary_preferences := Some "vegetarian"; date_of_birth := None;
     partner_preferences := None |}.

Definition today0 : Civil := {| year := 2025; month := 5; day := 15 |}.

(** Born on 10 March 1990; the day before the 35th birthday. *)
Definition tenthOfMarch : IsoDate :=
  {| iso_year := 1990; iso_month := 3; iso_day := 10 |}.

Definition ninthOfMarch2025 : Civil :=
  {| year := 2025; month := 2; day := 9 |}.

End Matching.


(** ** auth.js: how complete a profile is *)

Module JsText.

(** The ASCII part of the characters [String.prototype.trim] removes: tab,
    line feed, vertical tab, form feed, carriage return and space. *)
Definition isWhite (c : ascii) : bool :=
  let n := nat_of_ascii c in
  (Nat.leb 9 n && Nat.leb n 13) || Nat.eqb n 32.

Fixpoint trimStart (s : string) : string :=
  match s with
  | EmptyString => EmptyString
  | String c r => if isWhite c then trimStart r else s
  end.

Fixpoint trimEnd (s : string) : string :=
  match s with
  | EmptyString => EmptyString
  | String c r =>
      let r' := trimEnd r in
      if isWhite c && String.eqb r' EmptyString then EmptyString
      else String c r'
  end.

Definition trim (s : string) : string := trimEnd (trimStart s).

(** Some character of [s] is not white space. *)
Fixpoint hasInk (s : string) : bool :=
  match s with
  | EmptyString => false
  | String c r => negb (isWhite c) || hasInk r
  end.

End JsText.

Module Auth.

(** The form data as [calculateProfileCompletion] reads it: [userData[field]]
    is a string or absent. Field values are ASCII. *)
Definition UserData : Type := string -> option string.

Definition fields : list string :=
  ["firstName"; "lastName"; "email"; "phone"; "dateOfBirth"; "gender";
   "city"; "state"; "education"; "occupation"; "maritalStatus"; "aboutMe"].

(** [userData[field] && userData[field].trim() !== ''] *)
Definition filled (v : option string) : bool :=
  match v with
  | Some s => negb (String.eqb s EmptyString)
              && negb (String.eqb (JsText.trim s) EmptyString)
  | None => false
  end.

Definition filledFields (userData : UserData) : nat :=
  List.length (filter (fun field => filled (userData field)) fields).

Definition calculateProfileCompletion (userData : UserData) : Z :=
  JsNum.percent (Z.of_nat (filledFields userData))
                (Z.of_nat (List.length fields)).

(** A form with the given fields, everything else absent. *)
Fixpoint form (entries : list (string * string)) : UserData :=
  fun field =>
    match entries with
    | [] => None
    | (k, v) :: rest => if String.eqb k field then Some v else form rest field
    end.

End Auth.

(** ** matching.js and the profile module: likes and matches *)

Module Social.

(** The tables [likes] and [matches] of the migration, with the columns the
    code reads or writes. *)
Record LikeRow := {
  l_id : nat;
  l_from_user_id : string;
  l_to_user_id : string
}.

Record MatchRow := {
  m_id : nat;
  m_user_id : string;
  m_matched_user_id : string;
  m_status : string;
  m_compatibility_score : Z
}.

Record Tables := {
  likes : list LikeRow;
  matches : list MatchRow
}.

Definition noTables : Tables := {| likes := []; matches := [] |}.

(** Which calls the outside refuses (outage and the like), one flag for each
    awaited call of the four functions. *)
Record Net := {
  fail_select_like : bool;
  fail_insert_like : bool;
  fail_select_reciprocal : bool;
  fail_select_match : bool;
  fail_insert_match : bool;
  fail_select_matches : bool;
  fail_count_matches : bool;
  fail_count_likes : bool
}.

Definition calmNet : Net :=
  {| fail_select_like := false; fail_insert_like := false;
     fail_select_reciprocal := false; fail_select_match := false;
     fail_insert_match := false; fail_select_matches := false;
     fail_count_matches := false; fail_count_likes := false |}.

(** The row-level policies of the two tables for the signed-in user [me]:
    a like is visible to its sender and its receiver and can be inserted by
    its sender; a match is visible to both sides and can be inserted by its
    [user_id]. *)
Definition likeVisible (me : string) (r : LikeRow) : bool :=
  String.eqb (l_from_user_id r) me || String.eqb (l_to_user_id r) me.

Definition matchVisible (me : string) (r : MatchRow) : bool :=
  String.eqb (m_user_id r) me || String.eqb (m_matched_user_id r) me.

Definition isLike (from to : string) (r : LikeRow) : bool :=
  String.eqb (l_from_user_id r) from && String.eqb (l_to_user_id r) to.

Definition isMatch (u v : string) (r : MatchRow) : bool :=
  String.eqb (m_user_id r) u && String.eqb (m_matched_user_id r) v.

(** [.eq('from_user_id', from).eq('to_user_id', to).maybeSingle()] *)
Definition selectLike (refused : bool) (me from to : string) (t : Tables)
    : Reply LikeRow :=
  if refused then failed
  else Store.maybeSingle
         (filter (fun r => likeVisible me r && isLike from to r) (likes t)).

(** [.insert([{ from_user_id, to_user_id }]).select().single()]; the pair is
    UNIQUE. *)
Definition insertLike (refused : bool) (me from to : string) (t : Tables)
    : Tables * Reply LikeRow :=
  if refused || negb (String.eqb from me) || existsb (isLike from to) (likes t)
  then (t, failed)
  else
    let row := {| l_id := Store.freshId l_id (likes t);
                  l_from_user_id := from; l_to_user_id := to |} in
    ({| likes := likes t ++ [row]; matches := matches t |}, ok row).

(** [.or('and(user_id.eq.u1,matched_user_id.eq.u2),
          and(user_id.eq.u2,matched_user_id.eq.u1)').maybeSingle()] *)
Definition selectMatchBetween (refused : bool) (me u1 u2 : string)
    (t : Tables) : Reply MatchRow :=
  if refused then failed
  else Store.maybeSingle
         (filter (fun r => matchVisible me r
                           && (isMatch u1 u2 r || isMatch u2 u1 r))
                 (matches t)).

(** [.insert([{ user_id, matched_user_id, status, compatibility_score }])
    .select().single()]; the ordered pair is UNIQUE. *)
Definition insertMatch (refused : bool) (me u v status : string) (score : Z)
    (t : Tables) : Tables * Reply MatchRow :=
  if refused || negb (String.eqb u me) || existsb (isMatch u v) (matches t)
  then (t, failed)
  else
    let row := {| m_id := Store.freshId m_id (matches t);
                  m_user_id := u; m_matched_user_id := v;
                  m_status := status; m_compatibility_score := score |} in
    ({| likes := likes t; matches := matches t ++ [row] |}, ok row).

(** What the functions throw and catch. *)
Inductive Failure := NoUserLoggedIn | Refused.

Record Result (X : Type) := {
  r_data : option X;
  r_error : option Failure;
  r_message : option string
}.
Arguments r_data {X} _.
Arguments r_error {X} _.
Arguments r_message {X} _.

Definition done {X} (x : X) (msg : option string) : Result X :=
  {| r_data := Some x; r_error := None; r_message := msg |}.

Definition thrown {X} (f : Failure) : Result X :=
  {| r_data := None; r_error := Some f; r_message := None |}.

(** [createMatch], called on behalf of the signed-in user [me]. *)
Definition createMatch (net : Net) (me userId1 userId2 : string)
    (t : Tables) : Tables * Result MatchRow :=
  match data (selectMatchBetween (fail_select_match net) me userId1 userId2 t)
  with
  | Some existingMatch => (t, done existingMatch None)
  | None =>
      let '(t', r) := insertMatch (fail_insert_match net) me userId1 userId2
                                  "accepted" 85 t in
      match error r, data r with
      | false, Some row => (t', done row None)
      | _, _ => (t', thrown Refused)
      end
  end.

(** [sendLike]; [user] is what [getCurrentUser] returns. *)
Definition sendLike (net : Net) (user : option string) (toUserId : string)
    (t : Tables) : Tables * Result LikeRow :=
  match user with
  | None => (t, thrown NoUserLoggedIn)
  | Some me =>
      match data (selectLike (fail_select_like net) me me toUserId t) with
      | Some existingLike => (t, done existingLike (Some "Already liked"))
      | None =>
          let '(t1, r) := insertLike (fail_insert_like net) me me toUserId t in
          match error r, data r with
          | false, Some row =>
              match data (selectLike (fail_select_reciprocal net)
                                     me toUserId me t1) with
              | Some reciprocalLike =>
                  let '(t2, _) := createMatch net me me toUserId t1 in
                  (t2, done row (Some "It's a match!"))
              | None => (t1, done row (Some "Like sent"))
              end
          | _, _ => (t1, thrown Refused)
          end
      end
  end.

(** [getMyMatches]: the accepted rows whose [user_id] is the caller. The
    embedded profile of the other side is not represented. *)
Definition getMyMatches (net : Net) (user : option string) (t : Tables)
    : Result (list MatchRow) :=
  match user with
  | None => thrown NoUserLoggedIn
  | Some me =>
      if fail_select_matches net then thrown Refused
      else done (filter (fun r => matchVisible me r
                                  && String.eqb (m_user_id r) me
                                  && String.eqb (m_status r) "accepted")
                        (matches t)) None
  end.

(** [getProfileStats] of the profile module: a refused count is [null] and
    shown as 0. *)
Record Stats := { s_matches : nat; s_likes : nat }.

Definition getProfileStats (net : Net) (user : option string) (t : Tables)
    : Result Stats :=
  match user with
  | None => thrown NoUserLoggedIn
  | Some me =>
      let matchesCount :=
        if fail_count_matches net then 0%nat
        else List.length
               (filter (fun r => matchVisible me r
                                 && (String.eqb (m_user_id r) me
                                     || String.eqb (m_matched_user_id r) me)
                                 && String.eqb (m_status r) "accepted")
                       (matches t)) in
      let likesCount :=
        if fail_count_likes net then 0%nat
        else List.length
               (filter (fun r => likeVisible me r
                                 && String.eqb (l_to_user_id r) me)
                       (likes t)) in
      done {| s_matches := matchesCount; s_likes := likesCount |} None
  end.

(** *** What the tables look like *)

Definition liked (t : Tables) (from to : string) : Prop :=
  exists r, In r (likes t) /\ l_from_user_id r = from /\ l_to_user_id r = to.

(** Two match rows for the same two people, in either order. *)
Definition samePair (a b : MatchRow) : Prop :=
  (m_user_id a = m_user_id b /\ m_matched_user_id a = m_matched_user_id b) \/
  (m_user_id a = m_matched_user_id b /\ m_matched_user_id a = m_user_id b).

(** No like is stored twice; every match is accepted, carries the score 85
    and stands on a like in each direction; no two people are matched
    twice. *)
Definition consistent (t : Tables) : Prop :=
  NoDup (map (fun r => (l_from_user_id r, l_to_user_id r)) (likes t)) /\
  Forall (fun m => liked t (m_user_id m) (m_matched_user_id m) /\
                   liked t (m_matched_user_id m) (m_user_id m) /\
                   m_status m = "accepted" /\
                   m_compatibility_score m = 85) (matches t) /\
  ForallOrdPairs (fun a b => ~ samePair a b) (matches t).

(** The partner of [me] in a match row. *)
Definition matchedWith (me other : string) (rows : list MatchRow) : Prop :=
  exists r, In r rows /\ m_user_id r = me /\ m_matched_user_id r = other.

(** A history of [sendLike] calls, each with its own refusals, caller and
    target. *)
Definition replay (calls : list (Net * option string * string))
    (t : Tables) : Tables :=
  fold_left (fun t c => fst (sendLike (fst (fst c)) (snd (fst c)) (snd c) t))
            calls t.

(** What [who] is shown when no call is refused: the rows of [getMyMatches]
    and the match count of [getProfileStats]. *)
Definition myMatches (who : string) (t : Tables) : list MatchRow :=
  match r_data (getMyMatches calmNet (Some who) t) with
  | Some rows => rows
  | None => []
  end.

Definition matchesCount (who : string) (t : Tables) : nat :=
  match r_data (getProfileStats calmNet (Some who) t) with
  | Some stats => s_matches stats
  | None => 0%nat
  end.

(** A small history: Bina likes Arun, then Arun likes Bina. *)
Definition binaLikedArun : Tables :=
  fst (sendLike calmNet (Some "bina") "arun" noTables).

Definition matchRefused : Net :=
  {| fail_select_like := false; fail_insert_like := false;
     fail_select_reciprocal := false; fail_select_match := false;
     fail_insert_match := true; fail_select_matches := false;
     fail_count_matches := false; fail_count_likes := false |}.

End Social.

(** ** The wallet sign-in of the browser ([Web3AuthManager]) *)

Module Web3.

(** [localStorage]. A stored session token is kept as the token it spells. *)
Inductive Item := Text (s : string) | Token (t : Jwt).

Definition Storage : Type := list (string * Item).

Definition getItem (key : string) (s : Storage) : option Item :=
  match find (fun kv => String.eqb (fst kv) key) s with
  | Some kv => Some (snd kv)
  | None => None
  end.

Definition removeItem (key : string) (s : Storage) : Storage :=
  filter (fun kv => negb (String.eqb (fst kv) key)) s.

Definition setItem (key : string) (v : Item) (s : Storage) : Storage :=
  (key, v) :: removeItem key s.

(** Truthiness of what [getItem] returns. *)
Definition truthy (v : option Item) : bool :=
  match v with
  | Some (Text s) => negb (String.eqb s EmptyString)
  | Some (Token _) => true
  | None => false
  end.

(** The fields of the manager: [provider] and [signer] are set or [null]. *)
Record Manager := {
  mg_provider : bool;
  mg_signer : bool;
  mg_walletAddress : option string
}.

Record Client := {
  manager : Manager;
  localStorage : Storage
}.

(** What the page finds around it during one sign-in: the injected wallet
    ([None] is a rejected promise), the text of
    [Math.random().toString(36)], and whether each [fetch] resolves. *)
Record Browser := {
  ethereum : bool;
  requestAccounts : option (list string);
  getSigner : bool;
  sign : string -> option string;
  mathRandom : string;
  reach_nonce : bool;
  reach_verify : bool
}.

(** The server's side of the two requests of one sign-in. *)
Record Backend := {
  a_nonce : Ambient;
  e_nonce : Env;
  a_verify : Ambient;
  e_verify : Env
}.

(** An [Error] with its message, or whatever a library throws. *)
Inductive Thrown := Message (text : string) | External.

Inductive Outcome (X : Type) := Returned (x : X) | Threw (t : Thrown).
Arguments Returned {X} _.
Arguments Threw {X} _.

(** [response.ok] *)
Definition isOk (r : Response) : bool :=
  Nat.leb 200 (status r) && Nat.leb (status r) 299.

(** [error.error || fallback] *)
Definition errorText (b : Body) (fallback : string) : string :=
  match b with
  | BError msg => if String.eqb msg EmptyString then fallback else msg
  | _ => fallback
  end.

Section Page.

Variable d : Deps.
Variable b : Browser.
Variable sv : Backend.

(** [connectWallet]; the two event handlers it registers fire later and are
    not part of the sign-in. *)
Definition connectWallet (m : Manager) : Manager * Outcome string :=
  if negb (ethereum b)
  then (m, Threw (Message "MetaMask or compatible wallet not detected"))
  else
    let m1 := {| mg_provider := true; mg_signer := mg_signer m;
                 mg_walletAddress := mg_walletAddress m |} in
    match requestAccounts b with
    | None => (m1, Threw External)
    | Some [] => (m1, Threw (Message "No accounts found"))
    | Some (account :: _) =>
        match getAddress d account with
        | None => (m1, Threw External)
        | Some address =>
            if getSigner b
            then ({| mg_provider := true; mg_signer := true;
                     mg_walletAddress := Some address |}, Returned address)
            else ({| mg_provider := true; mg_signer := mg_signer m;
                     mg_walletAddress := Some address |}, Threw External)
        end
    end.

Definition requestNonce (db : DB) (walletAddress : string)
    : DB * Outcome Body :=
  if negb (reach_nonce b) then (db, Threw External)
  else
    let '(db', response) :=
      run (e_nonce sv) db (getNonce d (a_nonce sv) walletAddress) in
    if isOk response then (db', Returned (body response))
    else (db', Threw (Message (errorText (body response)
                                         "Failed to get nonce"))).

Definition signMessage (m : Manager) (message : string) : Outcome string :=
  if negb (mg_signer m) then Threw (Message "Wallet not connected")
  else
    match sign b message with
    | Some signature => Returned signature
    | None => Threw External
    end.

Definition verifySignature (db : DB) (walletAddress signature message : string)
    : DB * Outcome Body :=
  if negb (reach_verify b) then (db, Threw External)
  else
    let '(db', response) :=
      run (e_verify sv) db
          (verify d (a_verify sv)
                  {| vr_walletAddress := Some walletAddress;
                     vr_signature := Some signature;
                     vr_message := Some message |}) in
    if isOk response then (db', Returned (body response))
    else (db', Threw (Message (errorText (body response)
                                         "Verification failed"))).

(** [localStorage.getItem('web3_temp_pass') ||
     Math.random().toString(36).substring(2, 15)] *)
Definition tempPassword (s : Storage) : Item :=
  match getItem "web3_temp_pass" s with
  | Some v => if truthy (Some v) then v
              else Text (substring 2 13 (mathRandom b))
  | None => Text (substring 2 13 (mathRandom b))
  end.

(** [syncWithSupabase]: the password is remembered; the sign-in with it goes
    to the account service and its failure is only logged. *)
Definition syncWithSupabase (s : Storage) : Storage :=
  setItem "web3_temp_pass" (tempPassword s) s.

Definition authenticateWithWallet (c : Client) (db : DB)
    : DB * Client * Outcome Body :=
  let '(m1, connected) := connectWallet (manager c) in
  let c1 := {| manager := m1; localStorage := localStorage c |} in
  match connected with
  | Threw t => (db, c1, Threw t)
  | Returned address =>
      let '(db1, issued) := requestNonce db address in
      match issued with
      | Threw t => (db1, c1, Threw t)
      | Returned (BNonce _ message _) =>
          match signMessage m1 message with
          | Threw t => (db1, c1, Threw t)
          | Returned signature =>
              let '(db2, answered) :=
                verifySignature db1 address signature message in
              match answered with
              | Threw t => (db2, c1, Threw t)
              | Returned (BVerify true token user wallet isNew msg) =>
                  (db2,
                   {| manager := m1;
                      localStorage :=
                        syncWithSupabase
                          (setItem "web3_user_id" (Text user)
                             (setItem "web3_wallet_address" (Text wallet)
                                (setItem "web3_auth_token" (Token token)
                                   (localStorage c)))) |},
                   Returned (BVerify true token user wallet isNew msg))
              | Returned result => (db2, c1, Returned result)
              end
          end
      | Returned _ => (db1, c1, Threw External)
      end
  end.

End Page.

Definition disconnect (c : Client) : Client :=
  {| manager := {| mg_provider := false; mg_signer := false;
                   mg_walletAddress := None |};
     localStorage :=
       removeItem "web3_user_id"
         (removeItem "web3_wallet_address"
            (removeItem "web3_auth_token" (localStorage c))) |}.

Definition isAuthenticated (c : Client) : bool :=
  truthy (getItem "web3_auth_token" (localStorage c)).

Definition getWalletAddress (c : Client) : option Item :=
  getItem "web3_wallet_address" (localStorage c).

Definition getUserId (c : Client) : option Item :=
  getItem "web3_user_id" (localStorage c).

(** The password [createAccount] gives the account service. *)
Definition signUpPassword (p : Prog Response) : option string :=
  match p with
  | Await (SignUp _ password _) _ => Some password
  | _ => None
  end.

(** A page that has not signed in. *)
Definition fresh : Client :=
  {| manager := {| mg_provider := false; mg_signer := false;
                   mg_walletAddress := None |};
     localStorage := [] |}.

(** The remembered password, when there is one, is a text of at most
    thirteen characters. *)
Definition shortPass (s : Storage) : Prop :=
  forall v, getItem "web3_temp_pass" s = Some v ->
            exists p, v = Text p /\ (String.length p <= 13)%nat.

(** Alice's browser and the server's side of her sign-in, in the world of
    [Sim]. *)
Definition aliceBrowser : Browser :=
  {| ethereum := true;
     requestAccounts := Some [Js.toLowerCase Sim.alice];
     getSigner := true;
     sign := fun message => Some (Sim.signedBy Sim.alice message);
     mathRandom := "0.4fzyo82mvyr";
     reach_nonce := true;
     reach_verify := true |}.

Definition backend0 : Backend :=
  {| a_nonce := Sim.at_ Sim.t0; e_nonce := calm "u-1";
     a_verify := Sim.at_ (Sim.t0 + 1000); e_verify := calm "u-1" |}.

(** A wallet that signs with another key than that of its account. *)
Definition strayBrowser : Browser :=
  {| ethereum := true;
     requestAccounts := Some [Sim.alice];
     getSigner := true;
     sign := fun message => Some (Sim.signedBy Sim.bob message);
     mathRandom := "0.4fzyo82mvyr";
     reach_nonce := true;
     reach_verify := true |}.

End Web3.

(** ** The profile module: uploading a photo *)

Module Photo.

(** [String.prototype.split] with a one-character separator. *)
Fixpoint split (sep : ascii) (s : string) : list string :=
  match s with
  | EmptyString => [EmptyString]
  | String c r =>
      if Ascii.eqb c sep then EmptyString :: split sep r
      else match split sep r with
           | seg :: rest => String c seg :: rest
           | [] => [String c EmptyString]
           end
  end.

Definition dot : ascii := ascii_of_nat 46.

(** [file.name.split('.').pop()] *)
Definition fileExt (name : string) : string :=
  last (split dot name) EmptyString.

(** A non-negative integer in a template literal. *)
Definition numberText (n : Z) : string :=
  NilEmpty.string_of_uint (N.to_uint (Z.to_N n)).

(** [`profile-photos/${user.id}-${Date.now()}.${fileExt}`] *)
Definition filePath (user : string) (now : Z) (name : string) : string :=
  "profile-photos/" ++ user ++ "-" ++ numberText now ++ "."
    ++ fileExt name.

Fixpoint lacks (c : ascii) (s : string) : bool :=
  match s with
  | EmptyString => true
  | String x r => negb (Ascii.eqb x c) && lacks c r
  end.

(** The bucket [photos] (the names of its objects) and the column
    [profile_photo_url] of the profiles. *)
Record Media := {
  objects : list string;
  photo_url : list (string * option string)
}.

Record Net := {
  fail_upload : bool;
  fail_update : bool
}.

Inductive Failure := NoUserLoggedIn | Refused.

Section Upload.

(** [getPublicUrl] of the storage client. *)
Variable publicUrl : string -> string.

(** [storage.from('photos').upload(filePath, file)]: without [upsert] an
    existing object is not replaced, the call is refused. *)
Definition upload (refused : bool) (path : string) (m : Media)
    : Media * bool :=
  if refused || existsb (String.eqb path) (objects m) then (m, true)
  else ({| objects := objects m ++ [path]; photo_url := photo_url m |},
        false).

(** [.update({ profile_photo_url }).eq('id', user)]: every row of that id,
    of which there is at most one; no row is no error. *)
Definition updatePhoto (refused : bool) (user url : string) (m : Media)
    : Media * bool :=
  if refused then (m, true)
  else ({| objects := objects m;
           photo_url := map (fun row => if String.eqb (fst row) user
                                        then (fst row, Some url) else row)
                            (photo_url m) |},
        false).

(** [uploadProfilePhoto]: [data] and [error] of the result. *)
Definition uploadProfilePhoto (net : Net) (user : option string) (now : Z)
    (name : string) (m : Media) : Media * option string * option Failure :=
  match user with
  | None => (m, None, Some NoUserLoggedIn)
  | Some me =>
      let path := filePath me now name in
      let '(m1, uploadError) := upload (fail_upload net) path m in
      if uploadError then (m1, None, Some Refused)
      else
        let url := publicUrl path in
        let '(m2, updateError) := updatePhoto (fail_update net) me url m1 in
        if updateError then (m2, None, Some Refused)
        else (m2, Some url, None)
  end.

End Upload.

(** The photo of a profile, if the profile exists and has one. *)
Definition photoOf (user : string) (m : Media) : option string :=
  match find (fun row => String.eqb (fst row) user) (photo_url m) with
  | Some row => snd row
  | None => None
  end.

Definition hasProfile (user : string) (m : Media) : bool :=
  existsb (fun row => String.eqb (fst row) user) (photo_url m).

End Photo.
Example toISOString_epoch : Js.toISOString 0 = "1970-01-01T00:00:00.000Z".
Proof. reflexivity. Qed.

Example toISOString_2023 :
  Js.toISOString 1700000000123 = "2023-11-14T22:13:20.123Z".
Proof. vm_compute. reflexivity. Qed.

Example toISOString_leap :
  Js.toISOString 1709251199999 = "2024-02-29T23:59:59.999Z".
Proof. vm_compute. reflexivity. Qed.

Example matchNonce_first :
  Js.matchNonce "x Nonce: zz Nonce: 0af9Z Nonce: bb" = Some "0af9".
Proof. reflexivity. Qed.

Example toHex_bytes : Js.toHex [0; 10; 255; 171]%nat = "000affab".
Proof. reflexivity. Qed.

(** ** Strings: hexadecimal tokens and the nonce pattern *)

Lemma isLowerHex_hexDigit n : Js.isLowerHex (Js.hexDigit n) = true.
Proof.
  do 16 (destruct n as [|n]; [reflexivity|]). reflexivity.
Qed.

Lemma allLowerHex_app s t :
  Js.allLowerHex (s ++ t) = Js.allLowerHex s && Js.allLowerHex t.
Proof.
  induction s as [|c s IH]; simpl; [reflexivity|].
  rewrite IH. apply andb_assoc.
Qed.

Lemma toHex_allLowerHex bytes : Js.allLowerHex (Js.toHex bytes) = true.
Proof.
  induction bytes as [|b r IH]; simpl; [reflexivity|].
  now rewrite !isLowerHex_hexDigit, IH.
Qed.

Lemma toHex_length bytes :
  String.length (Js.toHex bytes) = (2 * List.length bytes)%nat.
Proof.
  induction bytes as [|b r IH]; simpl; [reflexivity|].
  rewrite IH. lia.
Qed.

(** The greedy group stops at the first character outside the class. *)
Lemma takeHex_stop h c rest :
  Js.allLowerHex h = true -> Js.isLowerHex c = false ->
  Js.takeHex (h ++ String c rest) = h.
Proof.
  intros Hh Hc. induction h as [|x h IH]; simpl in *.
  - now rewrite Hc.
  - apply andb_true_iff in Hh as [Hx Hh]. rewrite Hx. f_equal. auto.
Qed.

Lemma matchNonce_here s h :
  Js.matchNonceHere s = Some h -> Js.matchNonce s = Some h.
Proof.
  intros H. destruct s; cbn [Js.matchNonce]; now rewrite H.
Qed.

Lemma matchNonce_skip c r :
  Js.matchNonceHere (String c r) = None ->
  Js.matchNonce (String c r) = Js.matchNonce r.
Proof.
  intros H. cbn [Js.matchNonce]. now rewrite H.
Qed.

(** The pattern finds the token of a challenge, whatever the timestamp. *)
Lemma matchNonce_challenge tok ts :
  tok <> EmptyString -> Js.allLowerHex tok = true ->
  Js.matchNonce (challenge tok ts) = Some tok.
Proof.
  intros Hne Hhex.
  unfold challenge, preamble, newline. cbn [append].
  repeat (rewrite matchNonce_skip by reflexivity).
  apply matchNonce_here. unfold Js.matchNonceHere. cbn [Js.stripPrefix Ascii.eqb Bool.eqb].
  rewrite takeHex_stop by (auto; reflexivity).
  destruct tok; [congruence | reflexivity].
Qed.

Lemma generateNonce_nonempty bytes :
  List.length bytes = 32%nat -> generateNonce bytes <> EmptyString.
Proof.
  intros H E. apply (f_equal String.length) in E.
  unfold generateNonce in E. rewrite toHex_length, H in E. discriminate.
Qed.

(** ** Nonce issuance *)

(** C5: for the 32 random bytes of an issuance, the token is a 64-character
    lower-case hexadecimal string, and the pattern [Nonce: ([a-f0-9]+)] of the
    verification step, applied to the challenge message built from that token
    (with any timestamp), captures exactly the token. *)
Theorem C5_nonce_roundtrip (bytes : list nat) (ts : string) :
  List.length bytes = 32%nat ->
  String.length (generateNonce bytes) = 64%nat /\
  Js.allLowerHex (generateNonce bytes) = true /\
  Js.matchNonce (challenge (generateNonce bytes) ts)
    = Some (generateNonce bytes).
Proof.
  intros Hlen. split; [|split].
  - unfold generateNonce. now rewrite toHex_length, Hlen.
  - apply toHex_allLowerHex.
  - apply matchNonce_challenge.
    + now apply generateNonce_nonempty.
    + apply toHex_allLowerHex.
Qed.

Lemma C5_nonce_roundtrip_witness :
  List.length Sim.bytes32 = 32%nat /\
  Js.matchNonce (challenge (generateNonce Sim.bytes32) "2023-11-14T22:13:20.001Z")
    = Some (generateNonce Sim.bytes32).
Proof.
  split; [reflexivity|].
  apply (C5_nonce_roundtrip Sim.bytes32 "2023-11-14T22:13:20.001Z").
  reflexivity.
Defined.

(** What an accepted insert leaves in the store and in the answer. *)
Lemma getNonce_accepted (d : Deps) (a : Ambient) (wa c : string)
    (e : Env) (db : DB) :
  isAddress d wa = true ->
  getAddress d wa = Some c ->
  fail_insert_nonce e = false ->
  Store.nonceHeld (generateNonce (random a)) (auth_nonces db) = false ->
  run e db (getNonce d a wa) =
    (Store.setNonces db
       (auth_nonces db ++
          [{| n_id := Store.freshId n_id (auth_nonces db);
              n_wallet_address := c;
              n_nonce := generateNonce (random a);
              n_expires_at := clock a 0 + 300000;
              n_used := false |}]),
     json 200
       (BNonce (generateNonce (random a))
          (challenge (generateNonce (random a)) (Js.toISOString (clock a 1)))
          (Js.toISOString (clock a 0 + 300000)))).
Proof.
  intros Hv Hc Hf Hn. unfold getNonce.
  rewrite Hv, Hc. cbn [negb run Store.exec].
  rewrite Hf, Hn. reflexivity.
Qed.

(** The handler answers 200 only after an accepted insert. *)
Lemma getNonce_200 (d : Deps) (a : Ambient) (wa c : string)
    (e : Env) (db : DB) :
  getAddress d wa = Some c ->
  status (snd (run e db (getNonce d a wa))) = 200%nat ->
  isAddress d wa = true /\ fail_insert_nonce e = false /\
  Store.nonceHeld (generateNonce (random a)) (auth_nonces db) = false.
Proof.
  intros Hc. unfold getNonce. rewrite Hc.
  destruct (isAddress d wa); cbn; [|discriminate].
  destruct (fail_insert_nonce e); cbn; [discriminate|].
  destruct (Store.nonceHeld _ _); cbn; [discriminate|]. auto.
Qed.

(** C4: for a valid wallet address, when the store accepts the insert,
    issuance adds a record for the checksummed address with [used = false] and
    [expires_at] five minutes after the clock reading, and answers with the
    token, the expiry and the message: the fixed preamble, an empty line, the
    line [Nonce: <token>] and the line [Timestamp: <ISO-8601>]. *)
Theorem C4_issue_creates_nonce (d : Deps) (a : Ambient) (wa c : string)
    (e : Env) (db : DB) :
  isAddress d wa = true ->
  getAddress d wa = Some c ->
  fail_insert_nonce e = false ->
  Store.nonceHeld (generateNonce (random a)) (auth_nonces db) = false ->
  run e db (getNonce d a wa) =
    (Store.setNonces db
       (auth_nonces db ++
          [{| n_id := Store.freshId n_id (auth_nonces db);
              n_wallet_address := c;
              n_nonce := generateNonce (random a);
              n_expires_at := clock a 0 + 300000;
              n_used := false |}]),
     json 200
       (BNonce (generateNonce (random a))
          ("Sign this message to authenticate with DilSe Matchify."
             ++ newline ++ newline
             ++ "Nonce: " ++ generateNonce (random a) ++ newline
             ++ "Timestamp: " ++ Js.toISOString (clock a 1))
          (Js.toISOString (clock a 0 + 300000)))).
Proof.
  exact (getNonce_accepted d a wa c e db).
Qed.

Lemma C4_issue_creates_nonce_witness :
  run (calm "u-1") Sim.empty (getNonce Sim.deps (Sim.at_ Sim.t0) Sim.alice) =
    ({| auth_nonces :=
          [{| n_id := 1; n_wallet_address := Sim.alice;
              n_nonce := Sim.nonce0; n_expires_at := Sim.t0 + 300000;
              n_used := false |}];
        wallet_addresses := []; profiles := [] |},
     json 200 (BNonce Sim.nonce0 Sim.message0 "2023-11-14T22:18:20.000Z")).
Proof.
  apply (C4_issue_creates_nonce Sim.deps (Sim.at_ Sim.t0) Sim.alice Sim.alice
           (calm "u-1") Sim.empty); reflexivity.
Defined.

(** ** The nonce table *)

Lemma nonceHeld_app n l1 l2 :
  Store.nonceHeld n (l1 ++ l2) = Store.nonceHeld n l1 || Store.nonceHeld n l2.
Proof. apply existsb_app. Qed.

Lemma nonceHeld_markUsed n id l :
  Store.nonceHeld n (Store.markUsed id l) = Store.nonceHeld n l.
Proof.
  induction l as [|r l IH]; simpl; [reflexivity|].
  rewrite <- IH. unfold Store.nonceHeld. simpl.
  now destruct (Nat.eqb (n_id r) id).
Qed.

Lemma unusedNonces_absent n w l :
  Store.nonceHeld n l = false -> Store.unusedNonces n w l = [].
Proof.
  induction l as [|r l IH]; simpl; [reflexivity|].
  intros H. apply orb_false_iff in H as [H1 H2].
  rewrite H1. simpl. auto.
Qed.

Lemma unusedNonces_app n w l1 l2 :
  Store.unusedNonces n w (l1 ++ l2)
    = (Store.unusedNonces n w l1 ++ Store.unusedNonces n w l2)%list.
Proof. apply filter_app. Qed.

Lemma markUsed_app id l1 l2 :
  Store.markUsed id (l1 ++ l2)
    = (Store.markUsed id l1 ++ Store.markUsed id l2)%list.
Proof. apply map_app. Qed.

(** A row returned by the lookup carries the nonce and the address asked
    for, and is unused. *)
Lemma unusedNonces_In n w l r :
  In r (Store.unusedNonces n w l) ->
  In r l /\ n_nonce r = n /\ n_wallet_address r = w /\ n_used r = false.
Proof.
  unfold Store.unusedNonces. rewrite filter_In. intros [Hin H].
  apply andb_true_iff in H as [H Hu]. apply andb_true_iff in H as [Hn Hw].
  apply String.eqb_eq in Hn, Hw. destruct (n_used r); [discriminate|].
  auto.
Qed.

(** Once the rows with a given key are flagged, none of the rows that the
    lookup returned before is returned again. *)
Lemma unusedNonces_markUsed_other n w id l r :
  In r (Store.unusedNonces n w (Store.markUsed id l)) -> n_id r <> id.
Proof.
  unfold Store.unusedNonces, Store.markUsed. rewrite filter_In, in_map_iff.
  intros [[x [Hx _]] H] E.
  destruct (Nat.eqb (n_id x) id) eqn:Hid.
  - subst r. simpl in H. now rewrite andb_false_r in H.
  - subst r. apply Nat.eqb_neq in Hid. contradiction.
Qed.

(** ** Verification *)

Ltac break_if :=
  match goal with
  | |- context [if ?b then _ else _] => destruct b eqn:?
  | |- context [match ?x with Some _ => _ | None => _ end] => destruct x eqn:?
  | |- context [match ?x with Str _ => _ | NonString _ => _ end] =>
      destruct x eqn:?
  end.

Lemma eqb_empty_false s : s <> EmptyString -> String.eqb s EmptyString = false.
Proof. apply String.eqb_neq. Qed.

(** An attempt that is turned away with 400 or 401 has written nothing. *)
Lemma verify_rejected_keeps_store d a e db req :
  let out := run e db (verify d a req) in
  status (snd out) = 400%nat \/ status (snd out) = 401%nat -> fst out = db.
Proof.
  unfold verify. destruct req as [[wa|] [sg|] [m|]]; cbn; auto.
  repeat (break_if; cbn; auto).
  all: intros [H|H]; discriminate H.
Qed.

(** A nonce with no unused row left is refused, whatever else the request
    carries and whatever the store does. *)
Lemma verify_spent d a e db req (m : string) n :
  vr_message req = Some m -> Js.matchNonce m = Some n ->
  (forall w, Store.unusedNonces n w (auth_nonces db) = []) ->
  fst (run e db (verify d a req)) = db /\
  status (snd (run e db (verify d a req))) <> 200%nat.
Proof.
  intros Hm Hn Hspent. unfold verify. rewrite Hm.
  destruct (vr_walletAddress req) as [wa|], (vr_signature req) as [sg|];
    cbn; try (split; [reflexivity|discriminate]).
  repeat (break_if; cbn; try (split; [reflexivity|discriminate])).
  all: try congruence.
  all: inversion Hn; subst; rewrite Hspent in *; discriminate.
Qed.

(** The same, for a request that passes validation: the answer is the one
    given to an unknown nonce. *)
Lemma verify_no_unused_row d a e db wa sg m c n :
  wa <> EmptyString -> sg <> EmptyString ->
  isAddress d wa = true -> getAddress d wa = Some c ->
  Js.matchNonce m = Some n ->
  Store.unusedNonces n c (auth_nonces db) = [] ->
  run e db (verify d a {| vr_walletAddress := Some wa;
                          vr_signature := Some sg;
                          vr_message := Some m |})
    = (db, json 401 (BError "Invalid or expired nonce")).
Proof.
  intros Hwa Hsg Hv Hc Hn Hnone. unfold verify. cbn.
  rewrite (eqb_empty_false _ Hwa), (eqb_empty_false _ Hsg).
  assert (Hm : String.eqb m EmptyString = false).
  { apply String.eqb_neq. intros ->. discriminate Hn. }
  rewrite Hm, Hv, Hc, Hn. cbn.
  destruct (fail_select_nonce e); [reflexivity|].
  rewrite Hnone. reflexivity.
Qed.

(** An unused row whose expiry lies before the clock reading. *)
Lemma verify_expired d a e db wa sg m c n row :
  wa <> EmptyString -> sg <> EmptyString ->
  isAddress d wa = true -> getAddress d wa = Some c ->
  Js.matchNonce m = Some n ->
  fail_select_nonce e = false ->
  Store.unusedNonces n c (auth_nonces db) = [row] ->
  n_expires_at row < clock a 0 ->
  run e db (verify d a {| vr_walletAddress := Some wa;
                          vr_signature := Some sg;
                          vr_message := Some m |})
    = (db, json 401 (BError "Nonce has expired")).
Proof.
  intros Hwa Hsg Hv Hc Hn Hf Hrow Hexp. unfold verify. cbn.
  rewrite (eqb_empty_false _ Hwa), (eqb_empty_false _ Hsg).
  assert (Hm : String.eqb m EmptyString = false).
  { apply String.eqb_neq. intros ->. discriminate Hn. }
  rewrite Hm, Hv, Hc, Hn. cbn. rewrite Hf, Hrow. cbn.
  apply Z.ltb_lt in Hexp. rewrite Hexp. reflexivity.
Qed.

(** The account-creation branch never touches the nonce table, and answers
    200 as soon as [signUp] returns a user. *)
Lemma createAccount_run d a e db c u :
  signUp_user e = Some u ->
  snd (run e db (createAccount d a c)) = verified d a u c true /\
  auth_nonces (fst (run e db (createAccount d a c))) = auth_nonces db.
Proof.
  intros Hu. unfold createAccount. cbn. rewrite Hu. cbn.
  repeat (break_if; cbn); auto.
Qed.

Lemma createAccount_answer d a e db c :
  snd (run e db (createAccount d a c)) =
    match signUp_user e with
    | Some u => verified d a u c true
    | None => json 500 (BError "Failed to create user account")
    end.
Proof.
  unfold createAccount. cbn. destruct (signUp_user e); cbn; [|reflexivity].
  repeat (break_if; cbn); reflexivity.
Qed.

Lemma createAccount_nonces d a e db c :
  auth_nonces (fst (run e db (createAccount d a c))) = auth_nonces db.
Proof.
  unfold createAccount. cbn. destruct (signUp_user e); cbn; [|reflexivity].
  repeat (break_if; cbn); reflexivity.
Qed.

(** An attempt with a signature over an unused, unexpired nonce that the
    store returns: what it answers and what it leaves of the nonce table,
    whatever the store does afterwards. *)
Lemma verify_passes d a e db (wa : string) (sg : Value) (m c n r : string)
    (row : NonceRow) :
  wa <> EmptyString -> falsy sg = false ->
  isAddress d wa = true -> getAddress d wa = Some c ->
  Js.matchNonce m = Some n ->
  fail_select_nonce e = false ->
  Store.unusedNonces n c (auth_nonces db) = [row] ->
  clock a 0 <= n_expires_at row ->
  verifyMessage d m sg = Some r ->
  Js.toLowerCase r = Js.toLowerCase c ->
  let out := run e db (verify d a {| vr_walletAddress := Some wa;
                                     vr_signature := Some sg;
                                     vr_message := Some m |}) in
  pastChecks d a e c (snd out) /\
  (signUp_user e <> None -> status (snd out) = 200%nat) /\
  auth_nonces (fst out)
    = (if fail_mark_used e then auth_nonces db
       else Store.markUsed (n_id row) (auth_nonces db)).
Proof.
  intros Hwa Hsg Hv Hc Hn Hf Hrow Hexp Hr Hlow. unfold verify. cbn.
  rewrite (eqb_empty_false _ Hwa), Hsg.
  assert (Hm : String.eqb m EmptyString = false).
  { apply String.eqb_neq. intros ->. discriminate Hn. }
  rewrite Hm, Hv, Hc, Hn. cbn. rewrite Hf, Hrow. cbn.
  assert (Hx : (n_expires_at row <? clock a 0) = false) by (apply Z.ltb_ge; lia).
  rewrite Hx, Hr, Hlow, String.eqb_refl. cbn.
  assert (Hnew : forall db1,
    pastChecks d a e c (snd (run e db1 (createAccount d a c))) /\
    (signUp_user e <> None ->
     status (snd (run e db1 (createAccount d a c))) = 200%nat) /\
    auth_nonces (fst (run e db1 (createAccount d a c))) = auth_nonces db1).
  { intros db1. rewrite createAccount_answer, createAccount_nonces.
    unfold pastChecks. destruct (signUp_user e) as [u|].
    - split; [left; eauto|]. split; reflexivity.
    - split; [right; auto|]. split; [congruence|reflexivity]. }
  destruct (fail_mark_used e); cbn.
  all: destruct (fail_select_wallet e); cbn; [apply Hnew|].
  all: destruct (data (Store.maybeSingle _)) as [w|]; [|apply Hnew].
  all: destruct (String.eqb (w_user_id w) EmptyString); cbn; [apply Hnew|].
  all: split; [left; eauto|split; reflexivity].
Qed.

(** A valid signature over an unused, unexpired nonce: the attempt is
    accepted and the rows with the key of the nonce row are flagged. *)
Lemma verify_accepts d a e db wa sg m c n row r u :
  wa <> EmptyString -> sg <> EmptyString ->
  isAddress d wa = true -> getAddress d wa = Some c ->
  Js.matchNonce m = Some n ->
  fail_select_nonce e = false ->
  Store.unusedNonces n c (auth_nonces db) = [row] ->
  clock a 0 <= n_expires_at row ->
  verifyMessage d m sg = Some r ->
  Js.toLowerCase r = Js.toLowerCase c ->
  fail_mark_used e = false ->
  signUp_user e = Some u ->
  let out := run e db (verify d a {| vr_walletAddress := Some wa;
                                     vr_signature := Some sg;
                                     vr_message := Some m |}) in
  status (snd out) = 200%nat /\
  auth_nonces (fst out) = Store.markUsed (n_id row) (auth_nonces db).
Proof.
  intros Hwa Hsg Hv Hc Hn Hf Hrow Hexp Hr Hlow Hmark Hu. unfold verify. cbn.
  rewrite (eqb_empty_false _ Hwa), (eqb_empty_false _ Hsg).
  assert (Hm : String.eqb m EmptyString = false).
  { apply String.eqb_neq. intros ->. discriminate Hn. }
  rewrite Hm, Hv, Hc, Hn. cbn. rewrite Hf, Hrow. cbn.
  assert (Hx : (n_expires_at row <? clock a 0) = false) by (apply Z.ltb_ge; lia).
  rewrite Hx, Hr, Hlow, String.eqb_refl. cbn. rewrite Hmark.
  set (db1 := Store.setNonces db _).
  assert (Hacc :
    status (snd (run e db1 (createAccount d a c))) = 200%nat /\
    auth_nonces (fst (run e db1 (createAccount d a c))) = auth_nonces db1).
  { destruct (createAccount_run d a e db1 c u Hu) as [H1 H2].
    rewrite H1, H2. auto. }
  destruct (fail_select_wallet e); cbn.
  - apply Hacc.
  - destruct (data (Store.maybeSingle _)) as [w|]; [|apply Hacc].
    destruct (String.eqb (w_user_id w) EmptyString); cbn; [apply Hacc|auto].
Qed.

(** When every row of a nonce for an address is used -- in particular when
    there is no such row -- the lookup returns nothing. *)
Lemma unusedNonces_none n w l :
  (forall row, In row l -> n_nonce row = n -> n_wallet_address row = w ->
               n_used row = true) ->
  Store.unusedNonces n w l = [].
Proof.
  intros H. destruct (Store.unusedNonces n w l) as [|r rest] eqn:E; [reflexivity|].
  assert (Hin : In r (Store.unusedNonces n w l)) by (rewrite E; now left).
  apply unusedNonces_In in Hin as (Hin & Hn & Hw & Hu).
  rewrite (H r Hin Hn Hw) in Hu. discriminate.
Qed.

(** The row of a fresh issuance is the only unused row of its nonce. *)
Lemma unusedNonces_issued n c l id t :
  Store.nonceHeld n l = false ->
  Store.unusedNonces n c
    (l ++ [{| n_id := id; n_wallet_address := c; n_nonce := n;
              n_expires_at := t; n_used := false |}])
  = [{| n_id := id; n_wallet_address := c; n_nonce := n;
        n_expires_at := t; n_used := false |}].
Proof.
  intros H. rewrite unusedNonces_app, (unusedNonces_absent _ _ _ H).
  cbn. now rewrite !String.eqb_refl.
Qed.

(** After the flag is set on it, no unused row of that nonce is left. *)
Lemma unusedNonces_consumed n c w l id t :
  Store.nonceHeld n l = false ->
  Store.unusedNonces n w
    (Store.markUsed id
       (l ++ [{| n_id := id; n_wallet_address := c; n_nonce := n;
                 n_expires_at := t; n_used := false |}]))
  = [].
Proof.
  intros H. rewrite markUsed_app, unusedNonces_app.
  rewrite unusedNonces_absent by now rewrite nonceHeld_markUsed.
  cbn. rewrite Nat.eqb_refl. cbn. now rewrite andb_false_r.
Qed.

(** ** Single use *)

(** Where the store performs the update of the flag: a nonce issued for a
    valid address is accepted once -- by a request that carries the issued
    message and a signature recovering the address, no later than the expiry,
    when the store returns the row and the account service answers -- and
    from then on every request presenting that nonce value is refused and
    changes nothing, with 401 "Invalid or expired nonce" when the request is
    well formed. Of the three causes of refusal, an expired nonce is answered
    401 "Nonce has expired"; a nonce that was never issued and a nonce that was
    already used are both answered 401 "Invalid or expired nonce". *)
Theorem C1_issue_consume_once (d : Deps) (a0 a1 : Ambient) (e0 e1 : Env)
    (db0 : DB) (wa c sg r u : string) :
  getAddress d wa = Some c ->
  List.length (random a0) = 32%nat ->
  status (snd (run e0 db0 (getNonce d a0 wa))) = 200%nat ->
  wa <> EmptyString -> sg <> EmptyString ->
  verifyMessage d
    (challenge (generateNonce (random a0)) (Js.toISOString (clock a0 1))) sg
    = Some r ->
  Js.toLowerCase r = Js.toLowerCase c ->
  clock a1 0 <= clock a0 0 + 300000 ->
  fail_select_nonce e1 = false ->
  fail_mark_used e1 = false ->
  signUp_user e1 = Some u ->
  let nonce := generateNonce (random a0) in
  let message := challenge nonce (Js.toISOString (clock a0 1)) in
  let request sg :=
    {| vr_walletAddress := Some wa; vr_signature := Some sg;
       vr_message := Some message |} in
  let db1 := fst (run e0 db0 (getNonce d a0 wa)) in
  let first := run e1 db1 (verify d a1 (request sg)) in
  status (snd first) = 200%nat /\
  (forall a2 e2 req (m2 : string),
      vr_message req = Some m2 -> Js.matchNonce m2 = Some nonce ->
      fst (run e2 (fst first) (verify d a2 req)) = fst first /\
      status (snd (run e2 (fst first) (verify d a2 req))) <> 200%nat) /\
  (forall a2 e2 sg2, sg2 <> EmptyString ->
      run e2 (fst first) (verify d a2 (request sg2))
        = (fst first, json 401 (BError "Invalid or expired nonce"))) /\
  (forall a e db sg' m n, sg' <> EmptyString -> Js.matchNonce m = Some n ->
      (forall row, In row (auth_nonces db) -> n_nonce row = n ->
                   n_wallet_address row = c -> n_used row = true) ->
      run e db (verify d a {| vr_walletAddress := Some wa;
                              vr_signature := Some sg';
                              vr_message := Some m |})
        = (db, json 401 (BError "Invalid or expired nonce"))) /\
  (forall a e db sg' m n row, sg' <> EmptyString -> Js.matchNonce m = Some n ->
      fail_select_nonce e = false ->
      Store.unusedNonces n c (auth_nonces db) = [row] ->
      n_expires_at row < clock a 0 ->
      run e db (verify d a {| vr_walletAddress := Some wa;
                              vr_signature := Some sg';
                              vr_message := Some m |})
        = (db, json 401 (BError "Nonce has expired"))).
Proof.
  intros Hc Hlen H200 Hwa Hsg Hr Hlow Hexp Hsel Hmark Hu nonce message request
    db1 first.
  destruct (getNonce_200 d a0 wa c e0 db0 Hc H200) as (Hv & Hins & Hheld).
  assert (Hmatch : Js.matchNonce message = Some nonce).
  { apply matchNonce_challenge.
    - now apply generateNonce_nonempty.
    - apply toHex_allLowerHex. }
  assert (Hdb1 : auth_nonces db1 =
    (auth_nonces db0 ++
       [{| n_id := Store.freshId n_id (auth_nonces db0);
           n_wallet_address := c; n_nonce := nonce;
           n_expires_at := clock a0 0 + 300000; n_used := false |}])%list).
  { unfold db1. now rewrite (getNonce_accepted d a0 wa c e0 db0 Hv Hc Hins Hheld). }
  assert (Hrow := unusedNonces_issued nonce c (auth_nonces db0)
                    (Store.freshId n_id (auth_nonces db0))
                    (clock a0 0 + 300000) Hheld).
  rewrite <- Hdb1 in Hrow.
  destruct (verify_accepts d a1 e1 db1 wa sg message c nonce _ r u
              Hwa Hsg Hv Hc Hmatch Hsel Hrow Hexp Hr Hlow Hmark Hu)
    as [Hok Hnonces].
  fold (request sg) in Hok, Hnonces. fold first in Hok, Hnonces.
  assert (Hspent : forall w, Store.unusedNonces nonce w (auth_nonces (fst first)) = []).
  { intros w. rewrite Hnonces, Hdb1. cbn [n_id].
    now apply unusedNonces_consumed. }
  split; [exact Hok|]. split; [|split; [|split]].
  - intros a2 e2 req m2 Hm2 Hn2. now apply (verify_spent d a2 e2 _ req m2 nonce).
  - intros a2 e2 sg2 Hsg2.
    now apply (verify_no_unused_row d a2 e2 _ wa sg2 message c nonce).
  - intros a e db sg' m n Hsg' Hn Hall.
    apply (verify_no_unused_row d a e db wa sg' m c n); auto.
    now apply unusedNonces_none.
  - intros a e db sg' m n row Hsg' Hn Hf Hrow' Hlt.
    now apply (verify_expired d a e db wa sg' m c n row).
Qed.

Lemma C1_issue_consume_once_witness :
  let first :=
    run (calm "u-1") Sim.issued
        (verify Sim.deps (Sim.at_ (Sim.t0 + 1000)) Sim.goodRequest) in
  status (snd first) = 200%nat /\
  run (calm "u-2") (fst first)
      (verify Sim.deps (Sim.at_ (Sim.t0 + 2000)) Sim.goodRequest)
    = (fst first, json 401 (BError "Invalid or expired nonce")).
Proof.
  pose proof (C1_issue_consume_once Sim.deps (Sim.at_ Sim.t0)
                (Sim.at_ (Sim.t0 + 1000)) (calm "u-1") (calm "u-1") Sim.empty
                Sim.alice Sim.alice (Sim.signedBy Sim.alice Sim.message0)
                Sim.alice "u-1") as H.
  destruct H as (H1 & _ & H3 & _).
  1, 2, 7, 9, 10, 11: reflexivity.
  1, 4: vm_compute; reflexivity.
  1, 2: discriminate.
  1: vm_compute; discriminate.
  split; [exact H1|].
  apply (H3 (Sim.at_ (Sim.t0 + 2000)) (calm "u-2")
            (Sim.signedBy Sim.alice Sim.message0)).
  discriminate.
Defined.

(** A request presenting a nonce that was already used and a request
    presenting a nonce that was never issued get the very same answer. *)
Lemma C1_used_like_unknown :
  Store.nonceHeld Sim.nonce0 (auth_nonces Sim.consumed) = true /\
  Store.nonceHeld Sim.nonce0 (auth_nonces Sim.empty) = false /\
  snd (run (calm "u-2") Sim.consumed
           (verify Sim.deps (Sim.at_ (Sim.t0 + 2000)) Sim.goodRequest))
  = snd (run (calm "u-2") Sim.empty
             (verify Sim.deps (Sim.at_ (Sim.t0 + 2000)) Sim.goodRequest)).
Proof. repeat split; vm_compute; reflexivity. Qed.

(** C1: the handler awaits the update of the flag without reading its
    result. When the store refuses the update -- as the policies of the
    migration do for every request -- the row of an accepted nonce stays
    unused, and the same request, sent again before the expiry, is accepted
    again: the nonce is not consumed exactly once. *)
Theorem C1_replay_accepted (d : Deps) (a0 a1 a2 : Ambient) (e0 e1 e2 : Env)
    (db0 : DB) (wa c sg r u1 u2 : string) :
  getAddress d wa = Some c ->
  List.length (random a0) = 32%nat ->
  status (snd (run e0 db0 (getNonce d a0 wa))) = 200%nat ->
  wa <> EmptyString -> sg <> EmptyString ->
  verifyMessage d
    (challenge (generateNonce (random a0)) (Js.toISOString (clock a0 1))) sg
    = Some r ->
  Js.toLowerCase r = Js.toLowerCase c ->
  clock a1 0 <= clock a0 0 + 300000 ->
  clock a2 0 <= clock a0 0 + 300000 ->
  fail_select_nonce e1 = false -> fail_select_nonce e2 = false ->
  migrated e1 ->
  signUp_user e1 = Some u1 -> signUp_user e2 = Some u2 ->
  let nonce := generateNonce (random a0) in
  let message := challenge nonce (Js.toISOString (clock a0 1)) in
  let request :=
    {| vr_walletAddress := Some wa; vr_signature := Some sg;
       vr_message := Some message |} in
  let db1 := fst (run e0 db0 (getNonce d a0 wa)) in
  let first := run e1 db1 (verify d a1 request) in
  let second := run e2 (fst first) (verify d a2 request) in
  status (snd first) = 200%nat /\
  auth_nonces (fst first) = auth_nonces db1 /\
  status (snd second) = 200%nat.
Proof.
  intros Hc Hlen H200 Hwa Hsg Hr Hlow Hexp1 Hexp2 Hsel1 Hsel2 Hmig Hu1 Hu2
    nonce message request db1 first second.
  destruct (getNonce_200 d a0 wa c e0 db0 Hc H200) as (Hv & Hins & Hheld).
  assert (Hmatch : Js.matchNonce message = Some nonce).
  { apply matchNonce_challenge.
    - now apply generateNonce_nonempty.
    - apply toHex_allLowerHex. }
  assert (Hdb1 : auth_nonces db1 =
    (auth_nonces db0 ++
       [{| n_id := Store.freshId n_id (auth_nonces db0);
           n_wallet_address := c; n_nonce := nonce;
           n_expires_at := clock a0 0 + 300000; n_used := false |}])%list).
  { unfold db1. now rewrite (getNonce_accepted d a0 wa c e0 db0 Hv Hc Hins Hheld). }
  assert (Hrow := unusedNonces_issued nonce c (auth_nonces db0)
                    (Store.freshId n_id (auth_nonces db0))
                    (clock a0 0 + 300000) Hheld).
  rewrite <- Hdb1 in Hrow.
  assert (Hsg' : falsy sg = false) by (apply eqb_empty_false; exact Hsg).
  destruct (verify_passes d a1 e1 db1 wa sg message c nonce r _
              Hwa Hsg' Hv Hc Hmatch Hsel1 Hrow Hexp1 Hr Hlow)
    as (_ & Hok1 & Hn1).
  fold request in Hok1, Hn1. fold first in Hok1, Hn1.
  unfold migrated in Hmig. rewrite Hmig in Hn1.
  split; [apply Hok1; congruence|]. split; [exact Hn1|].
  rewrite <- Hn1 in Hrow.
  destruct (verify_passes d a2 e2 (fst first) wa sg message c nonce r _
              Hwa Hsg' Hv Hc Hmatch Hsel2 Hrow Hexp2 Hr Hlow)
    as (_ & Hok2 & _).
  apply Hok2. congruence.
Qed.

Lemma C1_replay_accepted_witness :
  let first :=
    run (Demo.policies "u-1") Sim.issued
        (verify Sim.deps (Sim.at_ (Sim.t0 + 1000)) Sim.goodRequest) in
  let second :=
    run (Demo.policies "u-2") (fst first)
        (verify Sim.deps (Sim.at_ (Sim.t0 + 2000)) Sim.goodRequest) in
  status (snd first) = 200%nat /\ status (snd second) = 200%nat.
Proof.
  unshelve epose proof
    (C1_replay_accepted Sim.deps (Sim.at_ Sim.t0) (Sim.at_ (Sim.t0 + 1000))
       (Sim.at_ (Sim.t0 + 2000)) (calm "u-1") (Demo.policies "u-1")
       (Demo.policies "u-2") Sim.empty Sim.alice Sim.alice
       (Sim.signedBy Sim.alice Sim.message0) Sim.alice "u-1" "u-2"
       _ _ _ _ _ _ _ _ _ _ _ _ _ _) as H.
  1: reflexivity.
  1: reflexivity.
  1: vm_compute; reflexivity.
  1: discriminate.
  1: vm_compute; discriminate.
  1: vm_compute; reflexivity.
  1: reflexivity.
  1: vm_compute; discriminate.
  1: vm_compute; discriminate.
  1: reflexivity.
  1: reflexivity.
  1: reflexivity.
  1: reflexivity.
  1: reflexivity.
  destruct H as (H1 & _ & H2). split; [exact H1|exact H2].
Defined.

(** ** Signature verification *)


Lemma sim_contract : EthersContract Sim.deps.
Proof.
  split; cbn.
  - intros a. unfold Sim.isAddress. destruct (Sim.getAddress a); split;
      intros H; eauto; try discriminate. destruct H; discriminate.
  - intros a c. unfold Sim.getAddress at 1.
    repeat break_if; intros H; inversion H; reflexivity.
  - intros c. unfold Sim.getAddress at 1.
    repeat break_if; intros H; inversion H; reflexivity.
  - intros m s r. unfold Sim.verifyMessage.
    repeat break_if; intros H; inversion H; reflexivity.
Qed.





(** ** Failed attempts *)

(** Setting the flag never brings an unused row back. *)
Lemma unusedNonces_markUsed_nil n w id l :
  Store.unusedNonces n w l = [] ->
  Store.unusedNonces n w (Store.markUsed id l) = [].
Proof.
  induction l as [|r l IH]; cbn; [reflexivity|].
  destruct (String.eqb (n_nonce r) n && String.eqb (n_wallet_address r) w
            && Bool.eqb (n_used r) false) eqn:E; [discriminate|].
  intros H. destruct (Nat.eqb (n_id r) id); cbn.
  - rewrite andb_false_r. auto.
  - rewrite E. auto.
Qed.

(** The nonce table after an attempt is the table before it, or that table
    with the flag set on some key. *)
Lemma verify_nonces d a e db req :
  auth_nonces (fst (run e db (verify d a req))) = auth_nonces db \/
  exists id,
    auth_nonces (fst (run e db (verify d a req)))
      = Store.markUsed id (auth_nonces db).
Proof.
  unfold verify, createAccount.
  destruct req as [[wa|] [sg|] [m|]]; cbn; auto.
  repeat (break_if; cbn; eauto).
Qed.

(** C8 (as the handler has it): an attempt that is refused with 400 or 401
    -- an invalid signature and an address mismatch among them -- writes
    nothing, so every later attempt is decided exactly as if the refused one
    had not been made; refusals are therefore not terminal for the nonce.
    What is terminal is the absence of an unused row: once no unused row of a
    nonce is left, no later attempt brings one back. *)
Theorem C8_refused_attempt_changes_nothing (d : Deps) (a1 a2 : Ambient)
    (e1 e2 : Env) (db : DB) (req1 req2 : VerifyRequest) :
  let first := run e1 db (verify d a1 req1) in
  (status (snd first) = 400%nat \/ status (snd first) = 401%nat ->
   run e2 (fst first) (verify d a2 req2) = run e2 db (verify d a2 req2)) /\
  (forall n,
     (forall w, Store.unusedNonces n w (auth_nonces db) = []) ->
     forall w, Store.unusedNonces n w (auth_nonces (fst first)) = []).
Proof.
  intros first. subst first. split.
  - intros H. now rewrite (verify_rejected_keeps_store d a1 e1 db req1 H).
  - intros n Hn w.
    destruct (verify_nonces d a1 e1 db req1) as [E|[id E]]; rewrite E; auto.
    now apply unusedNonces_markUsed_nil.
Qed.

Lemma C8_refused_attempt_changes_nothing_witness :
  run (calm "u-1")
      (fst (run (calm "u-1") Sim.issued
                (verify Sim.deps (Sim.at_ (Sim.t0 + 1000)) Sim.badRequest)))
      (verify Sim.deps (Sim.at_ (Sim.t0 + 2000)) Sim.goodRequest)
  = run (calm "u-1") Sim.issued
        (verify Sim.deps (Sim.at_ (Sim.t0 + 2000)) Sim.goodRequest).
Proof.
  apply (C8_refused_attempt_changes_nothing Sim.deps
           (Sim.at_ (Sim.t0 + 1000)) (Sim.at_ (Sim.t0 + 2000))
           (calm "u-1") (calm "u-1") Sim.issued Sim.badRequest
           Sim.goodRequest).
  right. vm_compute. reflexivity.
Defined.

(** C8, the claim as worded fails: an attempt presenting the nonce fails on
    its signature, and a later attempt presenting the same nonce succeeds. *)
Lemma C8_success_after_failure :
  let first :=
    run (calm "u-1") Sim.issued
        (verify Sim.deps (Sim.at_ (Sim.t0 + 1000)) Sim.badRequest) in
  let second :=
    run (calm "u-1") (fst first)
        (verify Sim.deps (Sim.at_ (Sim.t0 + 2000)) Sim.goodRequest) in
  vr_message Sim.badRequest = vr_message Sim.goodRequest /\
  Js.matchNonce Sim.message0 = Some Sim.nonce0 /\
  snd first = json 401 (BError "Invalid signature") /\
  status (snd second) = 200%nat.
Proof. repeat split; vm_compute; reflexivity. Qed.

(** ** Two attempts in flight *)

(** [run] is [step] repeated. *)
Lemma run_step e db A (p : Prog A) :
  run e db p = run e (fst (step e db p)) (snd (step e db p)).
Proof.
  destruct p as [x|X op k]; cbn; [reflexivity|].
  now destruct (Store.exec e db op).
Qed.

(** Letting only the first request move is running it alone. *)
Lemma interleave_first_only e1 e2 A (p1 p2 : Prog A) : forall k db,
  run e1 db p1
  = let '(db', p1', _) := interleave (repeat true k) e1 e2 db p1 p2 in
    run e1 db' p1'.
Proof.
  intros k. revert p1. induction k as [|k IH]; intros p1 db; cbn; [reflexivity|].
  rewrite (run_step e1 db A p1).
  destruct (step e1 db p1) as [db' p1']. cbn. apply IH.
Qed.

(** The lookup of a well-formed attempt writes nothing, and what the
    attempt does next no longer depends on the nonce table: with a signature
    that recovers the address it is accepted in any store. *)
Lemma verify_after_lookup d a e db wa sg m c n row r :
  wa <> EmptyString -> sg <> EmptyString ->
  isAddress d wa = true -> getAddress d wa = Some c ->
  Js.matchNonce m = Some n ->
  fail_select_nonce e = false ->
  Store.unusedNonces n c (auth_nonces db) = [row] ->
  clock a 0 <= n_expires_at row ->
  verifyMessage d m sg = Some r ->
  Js.toLowerCase r = Js.toLowerCase c ->
  let req := {| vr_walletAddress := Some wa; vr_signature := Some sg;
                vr_message := Some m |} in
  fst (step e db (verify d a req)) = db /\
  forall e' db1 u, signUp_user e' = Some u ->
    status (snd (run e' db1 (snd (step e db (verify d a req))))) = 200%nat.
Proof.
  intros Hwa Hsg Hv Hc Hn Hf Hrow Hexp Hr Hlow req. subst req.
  unfold verify. cbn.
  rewrite (eqb_empty_false _ Hwa), (eqb_empty_false _ Hsg).
  assert (Hm : String.eqb m EmptyString = false).
  { apply String.eqb_neq. intros ->. discriminate Hn. }
  rewrite Hm, Hv, Hc, Hn. cbn. rewrite Hf, Hrow. cbn.
  split; [reflexivity|]. intros e' db1 u Hu.
  assert (Hx : (n_expires_at row <? clock a 0) = false) by (apply Z.ltb_ge; lia).
  rewrite Hx, Hr, Hlow, String.eqb_refl. cbn.
  assert (Hacc : forall db2,
    status (snd (run e' db2 (createAccount d a c))) = 200%nat).
  { intros db2. destruct (createAccount_run d a e' db2 c u Hu) as [H1 _].
    now rewrite H1. }
  destruct (fail_mark_used e'); cbn.
  all: destruct (fail_select_wallet e'); cbn; [apply Hacc|].
  all: destruct (data (Store.maybeSingle _)) as [w|]; [|apply Hacc].
  all: destruct (String.eqb (w_user_id w) EmptyString); cbn;
    [apply Hacc|reflexivity].
Qed.

(** C3: two attempts presenting the same unused, unexpired nonce, each with
    a signature that recovers the address. When both perform their lookup
    before either sets the flag, the lookups write nothing and both attempts
    are then answered 200, whatever happens to the flag in between: the test
    of [used] and its update are two separate store calls. *)
Theorem C3_concurrent_attempts_both_accepted (d : Deps) (a1 a2 : Ambient)
    (e1 e2 : Env) (db : DB) (wa sg m c n r u1 u2 : string) (row : NonceRow) :
  wa <> EmptyString -> sg <> EmptyString ->
  isAddress d wa = true -> getAddress d wa = Some c ->
  Js.matchNonce m = Some n ->
  Store.unusedNonces n c (auth_nonces db) = [row] ->
  clock a1 0 <= n_expires_at row -> clock a2 0 <= n_expires_at row ->
  verifyMessage d m sg = Some r ->
  Js.toLowerCase r = Js.toLowerCase c ->
  fail_select_nonce e1 = false -> fail_select_nonce e2 = false ->
  signUp_user e1 = Some u1 -> signUp_user e2 = Some u2 ->
  let req := {| vr_walletAddress := Some wa; vr_signature := Some sg;
                vr_message := Some m |} in
  let '(db0, p1, p2) :=
    interleave [true; false] e1 e2 db (verify d a1 req) (verify d a2 req) in
  db0 = db /\
  status (snd (run e1 db0 p1)) = 200%nat /\
  status (snd (run e2 (fst (run e1 db0 p1)) p2)) = 200%nat.
Proof.
  intros Hwa Hsg Hv Hc Hn Hrow Hx1 Hx2 Hr Hlow Hf1 Hf2 Hu1 Hu2 req.
  destruct (verify_after_lookup d a1 e1 db wa sg m c n row r
              Hwa Hsg Hv Hc Hn Hf1 Hrow Hx1 Hr Hlow) as [Hd1 Hk1].
  destruct (verify_after_lookup d a2 e2 db wa sg m c n row r
              Hwa Hsg Hv Hc Hn Hf2 Hrow Hx2 Hr Hlow) as [Hd2 Hk2].
  fold req in Hd1, Hk1, Hd2, Hk2.
  cbn [interleave].
  destruct (step e1 db (verify d a1 req)) as [dbA p1].
  cbn [fst snd] in Hd1, Hk1. subst dbA.
  destruct (step e2 db (verify d a2 req)) as [dbB p2].
  cbn [fst snd] in Hd2, Hk2. subst dbB.
  split; [reflexivity|]. split.
  - apply (Hk1 e1 db u1 Hu1).
  - apply (Hk2 e2 _ u2 Hu2).
Qed.

Lemma C3_concurrent_attempts_both_accepted_witness :
  let p := verify Sim.deps (Sim.at_ (Sim.t0 + 1000)) Sim.goodRequest in
  let '(db0, p1, p2) :=
    interleave [true; false] (calm "u-1") (calm "u-2") Sim.issued p p in
  db0 = Sim.issued /\
  status (snd (run (calm "u-1") db0 p1)) = 200%nat /\
  status (snd (run (calm "u-2") (fst (run (calm "u-1") db0 p1)) p2))
    = 200%nat.
Proof.
  unshelve epose proof
    (C3_concurrent_attempts_both_accepted Sim.deps
       (Sim.at_ (Sim.t0 + 1000)) (Sim.at_ (Sim.t0 + 1000))
       (calm "u-1") (calm "u-2") Sim.issued Sim.alice
       (Sim.signedBy Sim.alice Sim.message0) Sim.message0 Sim.alice
       Sim.nonce0 Sim.alice "u-1" "u-2"
       {| n_id := 1; n_wallet_address := Sim.alice;
          n_nonce := Sim.nonce0; n_expires_at := Sim.t0 + 300000;
          n_used := false |}
       _ _ _ _ _ _ _ _ _ _ _ _ _ _) as H.
  1, 2: discriminate.
  1, 2, 8, 9, 10, 11, 12: reflexivity.
  1, 2, 5: vm_compute; reflexivity.
  1, 2: vm_compute; discriminate.
  exact H.
Defined.

(** The two attempts above, run on alice's nonce: each performs its lookup
    before the other has set the flag; both are answered 200, and the one
    nonce row has served two logins. *)
Example race_both_accepted :
  let p := verify Sim.deps (Sim.at_ (Sim.t0 + 1000)) Sim.goodRequest in
  let sched := [true; false; true; true; true; true; true; false; false] in
  let '(db, p1, p2) :=
    interleave sched (calm "u-1") (calm "u-2") Sim.issued p p in
  List.length (auth_nonces Sim.issued) = 1%nat /\
  (exists r1 r2,
     answer p1 = Some r1 /\ answer p2 = Some r2 /\
     status r1 = 200%nat /\ status r2 = 200%nat) /\
  Store.unusedNonces Sim.nonce0 Sim.alice (auth_nonces db) = [].
Proof.
  vm_compute. split; [reflexivity|]. split; [|reflexivity].
  eexists. eexists. repeat split; reflexivity.
Qed.

(** The same two attempts one after the other: the second is refused. *)
Example sequential_second_refused :
  let p := verify Sim.deps (Sim.at_ (Sim.t0 + 1000)) Sim.goodRequest in
  let sched := [true; true; true; true; true; true; false; false] in
  let '(_, p1, p2) :=
    interleave sched (calm "u-1") (calm "u-2") Sim.issued p p in
  answer p2 = Some (json 401 (BError "Invalid or expired nonce")) /\
  exists r1, answer p1 = Some r1 /\ status r1 = 200%nat.
Proof.
  vm_compute. split; [reflexivity|]. eexists. split; reflexivity.
Qed.

(** ** The session token *)

Lemma maybeSingle_In {R} (rows : list R) (r : R) :
  data (Store.maybeSingle rows) = Some r -> In r rows.
Proof.
  destruct rows as [|x [|y rest]]; cbn; try discriminate.
  intros H. inversion H. now left.
Qed.

(** C6: whenever the verify handler answers 200, the token it returns is
    signed with the configured secret and carries exactly the user id of the
    answer, the checksum form of the request's wallet address and
    [authMethod = "wallet"]; its expiry is its issue time plus seven days. The
    user id is the owner of the existing link for a returning wallet and the
    id returned by [signUp] for a new one. Minting the token writes nothing:
    for a returning wallet the link and profile tables are as before. *)
Theorem C6_session_token (d : Deps) (a : Ambient) (e : Env) (db db' : DB)
    (req : VerifyRequest) (ok : bool) (tok : Jwt) (u w msg : string)
    (isNew : bool) :
  run e db (verify d a req)
    = (db', json 200 (BVerify ok tok u w isNew msg)) ->
  ok = true /\
  jwt_payload tok
    = {| userId := u; walletAddress := w; authMethod := "wallet" |} /\
  jwt_key tok = JWT_SECRET d /\
  jwt_iat tok = clock a 1 / 1000 /\
  jwt_exp tok = jwt_iat tok + 7 * 24 * 60 * 60 /\
  (exists wa : string,
     vr_walletAddress req = Some wa /\ getAddress d wa = Some w) /\
  (isNew = false ->
     (exists row, In row (wallet_addresses db) /\
                  w_wallet_address row = w /\ w_user_id row = u) /\
     wallet_addresses db' = wallet_addresses db /\
     profiles db' = profiles db) /\
  (isNew = true -> signUp_user e = Some u).
Proof.
  unfold verify, createAccount.
  destruct req as [[wa|] [sg|] [m|]]; cbn; try discriminate.
  repeat (break_if; cbn; try discriminate).
  all: intros H; inversion H; subst; clear H.
  all: repeat split; eauto; try discriminate.
  all: match goal with
       | Hrow : data (Store.maybeSingle _) = Some ?r |- _ =>
           apply maybeSingle_In in Hrow; try unfold Store.walletsAt in Hrow;
           apply filter_In in Hrow as [Hin Heq];
           apply String.eqb_eq in Heq; exists r; solve [auto]
       end.
Qed.

Lemma C6_session_token_witness :
  exists tok,
    snd (run (calm "u-1") Sim.issued
             (verify Sim.deps (Sim.at_ (Sim.t0 + 1000)) Sim.goodRequest))
      = json 200 (BVerify true tok "u-1" Sim.alice true
                          "Account created successfully") /\
    jwt_payload tok
      = {| userId := "u-1"; walletAddress := Sim.alice;
           authMethod := "wallet" |} /\
    jwt_exp tok = jwt_iat tok + 604800.
Proof.
  eexists. split; [vm_compute; reflexivity|].
  pose proof
    (fun db' tok msg =>
       C6_session_token Sim.deps (Sim.at_ (Sim.t0 + 1000)) (calm "u-1")
         Sim.issued db' Sim.goodRequest true tok "u-1" Sim.alice msg true)
    as H.
  edestruct H as (_ & H1 & _ & _ & H4 & _); [vm_compute; reflexivity|].
  split; [exact H1|exact H4].
Defined.

(** ** Linking a wallet *)

Lemma walletsAt_absent a l :
  ~ In a (map w_wallet_address l) -> Store.walletsAt a l = [].
Proof.
  induction l as [|x l IH]; cbn; [reflexivity|].
  intros H. destruct (String.eqb_spec (w_wallet_address x) a) as [E|E].
  - exfalso. apply H. now left.
  - apply IH. intros Hin. apply H. now right.
Qed.

(** Under the uniqueness constraint, the lookup by address returns the row
    that holds the address. *)
Lemma walletsAt_unique l row :
  NoDup (map w_wallet_address l) -> In row l ->
  Store.walletsAt (w_wallet_address row) l = [row].
Proof.
  induction l as [|x l IH]; cbn; [contradiction|].
  intros Hnd [->|Hin]; inversion Hnd as [|? ? Hx Hl]; subst.
  - rewrite String.eqb_refl. f_equal. now apply walletsAt_absent.
  - destruct (String.eqb_spec (w_wallet_address x) (w_wallet_address row))
      as [E|E].
    + exfalso. apply Hx. rewrite E. now apply in_map.
    + now apply IH.
Qed.

Lemma addressHeld_In a l :
  Store.addressHeld a l = true <->
  exists row, In row l /\ w_wallet_address row = a.
Proof.
  unfold Store.addressHeld. rewrite existsb_exists.
  split; intros [row [Hin H]]; exists row; split; auto;
    now apply String.eqb_eq.
Qed.

(** The trigger changes nothing but flags. *)
Lemma demote_addresses u l :
  map w_wallet_address (Store.demote u l) = map w_wallet_address l.
Proof.
  unfold Store.demote. rewrite map_map. apply map_ext.
  intros r. now destruct (String.eqb (w_user_id r) u && w_is_primary r).
Qed.

Lemma demote_users u l :
  map w_user_id (Store.demote u l) = map w_user_id l.
Proof.
  unfold Store.demote. rewrite map_map. apply map_ext.
  intros r. now destruct (String.eqb (w_user_id r) u && w_is_primary r).
Qed.

Lemma demote_ids u l : map w_id (Store.demote u l) = map w_id l.
Proof.
  unfold Store.demote. rewrite map_map. apply map_ext.
  intros r. now destruct (String.eqb (w_user_id r) u && w_is_primary r).
Qed.

(** The rows another insert may have demoted, as a list of links. *)
Lemma demote_In u l w :
  In w (Store.demote u l) ->
  exists w0, In w0 l /\ w_wallet_address w = w_wallet_address w0 /\
             w_user_id w = w_user_id w0 /\ w_id w = w_id w0.
Proof.
  unfold Store.demote. intros H. apply in_map_iff in H.
  destruct H as (w0 & E & Hin). exists w0. split; [exact Hin|].
  destruct (String.eqb (w_user_id w0) u && w_is_primary w0); subst; auto.
Qed.

Lemma In_demote u l w0 :
  In w0 l ->
  exists w, In w (Store.demote u l) /\
            w_wallet_address w = w_wallet_address w0 /\
            w_user_id w = w_user_id w0 /\ w_id w = w_id w0.
Proof.
  intros Hin. eexists. split.
  - unfold Store.demote. apply in_map. exact Hin.
  - now destruct (String.eqb (w_user_id w0) u && w_is_primary w0).
Qed.

(** An accepted insert keeps the addresses of the link table distinct. *)
Lemma insertWallet_keeps_unique e db u a primary :
  NoDup (map w_wallet_address (wallet_addresses db)) ->
  NoDup (map w_wallet_address
           (wallet_addresses
              (fst (Store.exec e db (InsertWallet u a primary))))).
Proof.
  intros Hnd. cbn.
  destruct (fail_insert_wallet e); cbn; [exact Hnd|].
  destruct (Store.addressHeld a (wallet_addresses db)) eqn:Held; cbn;
    [exact Hnd|].
  assert (Hmap : map w_wallet_address
                   (if primary then Store.demote u (wallet_addresses db)
                    else wallet_addresses db)
                 = map w_wallet_address (wallet_addresses db))
    by (destruct primary; [apply demote_addresses|reflexivity]).
  rewrite map_app, Hmap. cbn. apply NoDup_app; [exact Hnd| |].
  - constructor; [intros []|constructor].
  - intros x Hx [<-|[]].
    apply in_map_iff in Hx as [row [Hrow Hin]].
    assert (Store.addressHeld a (wallet_addresses db) = true).
    { apply addressHeld_In. eauto. }
    congruence.
Qed.

(** C7 (as the handler has it): for a link request with a valid token whose
    subject is the user id of the request, an address with checksum form [c],
    and a link table with distinct addresses, as the schema keeps it. When a
    link -- of any owner, the caller included -- holds [c], the answer is
    400 "Wallet already linked to another account" if the lookup returns the
    link; if the lookup is refused or the link is hidden from the server, the
    handler goes on to the insert, which the uniqueness of the address
    refuses: 500 "Failed to link wallet". In both cases nothing is written.
    When no link holds [c], the answer is 200 and one link is added if the
    store accepts the insert (the trigger then takes the primary flag from the
    user's other links when the new one is primary), and
    500 "Failed to link wallet" with nothing written if it does not. *)
Theorem C7_link_rejects_held_address (d : Deps) (a : Ambient) (e : Env)
    (db : DB) (wa u c : string) (tok : Jwt) (dec : JwtPayload) :
  wa <> EmptyString -> u <> EmptyString ->
  jwt_verify tok (JWT_SECRET d) (clock a 0) = Some dec ->
  userId dec = u ->
  getAddress d wa = Some c ->
  NoDup (map w_wallet_address (wallet_addresses db)) ->
  let out := run e db (linkWallet d a {| lr_walletAddress := Some wa;
                                         lr_userId := Some u;
                                         lr_authToken := Some tok |}) in
  let primary :=
    fail_select_user_wallets e
    || Nat.eqb (List.length (Store.walletsOf u (wallet_addresses db))) 0 in
  (Store.addressHeld c (wallet_addresses db) = true ->
   out = (db, if fail_select_wallet e
              then json 500 (BError "Failed to link wallet")
              else json 400
                     (BError "Wallet already linked to another account"))) /\
  (Store.addressHeld c (wallet_addresses db) = false ->
   out = if fail_insert_wallet e
         then (db, json 500 (BError "Failed to link wallet"))
         else (Store.setWallets db
                 ((if primary then Store.demote u (wallet_addresses db)
                   else wallet_addresses db) ++
                  [{| w_id := Store.freshId w_id (wallet_addresses db);
                      w_user_id := u; w_wallet_address := c;
                      w_is_primary := primary |}]),
               json 200 (BLink true "Wallet linked successfully" c))).
Proof.
  intros Hwa Hu Htok Hsub Hc Hnd out primary. subst out primary.
  unfold linkWallet. cbn.
  rewrite (eqb_empty_false _ Hwa), (eqb_empty_false _ Hu), Htok, Hsub,
    String.eqb_refl, Hc. cbn.
  split.
  - intros Held. pose proof Held as Hrow.
    apply addressHeld_In in Hrow. destruct Hrow as (row & Hin & Hrow).
    destruct (fail_select_wallet e); cbn.
    + destruct (fail_select_user_wallets e); cbn;
        rewrite Held, orb_true_r; reflexivity.
    + rewrite <- Hrow. now rewrite (walletsAt_unique _ row Hnd Hin).
  - intros Hfree.
    assert (Hnone : Store.walletsAt c (wallet_addresses db) = []).
    { apply walletsAt_absent. intros Hin.
      apply in_map_iff in Hin as [x [Hx Hin]].
      assert (Store.addressHeld c (wallet_addresses db) = true)
        by (apply addressHeld_In; eauto).
      congruence. }
    destruct (fail_select_wallet e); cbn; rewrite ?Hnone; cbn.
    all: destruct (fail_select_user_wallets e); cbn; rewrite Hfree.
    all: destruct (fail_insert_wallet e); cbn; reflexivity.
Qed.

Lemma C7_link_rejects_held_address_witness :
  run (calm "u-9") Sim.consumed
      (linkWallet Sim.deps (Sim.at_ (Sim.t0 + 5000))
                  (Sim.linkRequest Sim.alice))
  = (Sim.consumed,
     json 400 (BError "Wallet already linked to another account")).
Proof.
  unshelve epose proof
    (C7_link_rejects_held_address Sim.deps (Sim.at_ (Sim.t0 + 5000))
       (calm "u-9") Sim.consumed Sim.alice "u-1" Sim.alice Sim.session
       (jwt_payload Sim.session) _ _ _ _ _ _) as H.
  1: discriminate.
  1: discriminate.
  1: vm_compute; reflexivity.
  1: reflexivity.
  1: reflexivity.
  1: vm_compute; constructor; [intros []|constructor].
  destruct H as [H _]. apply H. vm_compute. reflexivity.
Defined.

(** C7, the claim as worded fails: a link holds the address, the lookup
    does not return it, and the request is not answered "already linked": the
    handler goes on to the insert, which the store refuses. *)
Lemma C7_held_but_not_reported :
  Store.addressHeld Sim.alice (wallet_addresses Sim.consumed) = true /\
  run (Demo.lookupHidden "u-9") Sim.consumed
      (linkWallet Sim.deps (Sim.at_ (Sim.t0 + 5000))
                  (Sim.linkRequest Sim.alice))
  = (Sim.consumed, json 500 (BError "Failed to link wallet")).
Proof. split; vm_compute; reflexivity. Qed.

(** ** Account creation on first login *)

(** What the account-creation branch answers and writes. *)
Lemma createAccount_effect d a e db c u :
  signUp_user e = Some u ->
  let out := run e db (createAccount d a c) in
  snd out = verified d a u c true /\
  (fail_insert_wallet e = true ->
     wallet_addresses (fst out) = wallet_addresses db) /\
  (fail_insert_profile e = true -> profiles (fst out) = profiles db).
Proof.
  intros Hu. unfold createAccount. cbn. rewrite Hu. cbn.
  destruct (fail_insert_profile e), (fail_insert_wallet e); cbn.
  all: repeat (break_if; cbn).
  all: repeat split; auto; discriminate.
Qed.

(** C9: a verified first login for an address no link holds, for which
    [signUp] returns user [u]: whether or not the profile insert and the link
    insert are accepted, the answer is 200 with [success], [isNewUser] and a
    token for [u]; when the link insert is refused the link table is left as
    it was, so no link for the address exists after the successful answer
    (and likewise the profile table when the profile insert is refused). *)
Theorem C9_first_login_ignores_insert_failures (d : Deps) (a : Ambient)
    (e : Env) (db : DB) (wa sg m c n r u : string) (row : NonceRow) :
  wa <> EmptyString -> sg <> EmptyString ->
  isAddress d wa = true -> getAddress d wa = Some c ->
  Js.matchNonce m = Some n ->
  fail_select_nonce e = false ->
  Store.unusedNonces n c (auth_nonces db) = [row] ->
  clock a 0 <= n_expires_at row ->
  verifyMessage d m sg = Some r ->
  Js.toLowerCase r = Js.toLowerCase c ->
  Store.addressHeld c (wallet_addresses db) = false ->
  signUp_user e = Some u ->
  let out := run e db (verify d a {| vr_walletAddress := Some wa;
                                     vr_signature := Some sg;
                                     vr_message := Some m |}) in
  snd out
    = json 200
        (BVerify true
           (jwt_sign {| userId := u; walletAddress := c;
                        authMethod := "wallet" |}
                     (JWT_SECRET d) sevenDays (clock a 1))
           u c true "Account created successfully") /\
  (fail_insert_wallet e = true ->
     wallet_addresses (fst out) = wallet_addresses db /\
     Store.addressHeld c (wallet_addresses (fst out)) = false) /\
  (fail_insert_profile e = true -> profiles (fst out) = profiles db).
Proof.
  intros Hwa Hsg Hv Hc Hn Hf Hrow Hexp Hr Hlow Hnew Hu out. subst out.
  assert (Hnone : Store.walletsAt c (wallet_addresses db) = []).
  { apply walletsAt_absent. intros Hin.
    apply in_map_iff in Hin as [x [Hx Hin]].
    assert (Store.addressHeld c (wallet_addresses db) = true)
      by (apply addressHeld_In; eauto).
    congruence. }
  unfold verify. cbn.
  rewrite (eqb_empty_false _ Hwa), (eqb_empty_false _ Hsg).
  assert (Hm : String.eqb m EmptyString = false).
  { apply String.eqb_neq. intros ->. discriminate Hn. }
  rewrite Hm, Hv, Hc, Hn. cbn. rewrite Hf, Hrow. cbn.
  assert (Hx : (n_expires_at row <? clock a 0) = false) by (apply Z.ltb_ge; lia).
  rewrite Hx, Hr, Hlow, String.eqb_refl. cbn.
  assert (Hgo : forall db1,
    wallet_addresses db1 = wallet_addresses db ->
    profiles db1 = profiles db ->
    snd (run e db1 (createAccount d a c)) = verified d a u c true /\
    (fail_insert_wallet e = true ->
       wallet_addresses (fst (run e db1 (createAccount d a c)))
         = wallet_addresses db /\
       Store.addressHeld c
         (wallet_addresses (fst (run e db1 (createAccount d a c)))) = false) /\
    (fail_insert_profile e = true ->
       profiles (fst (run e db1 (createAccount d a c))) = profiles db)).
  { intros db1 Hw Hp.
    destruct (createAccount_effect d a e db1 c u Hu) as (H1 & H2 & H3).
    split; [exact H1|]. split.
    - intros F. rewrite (H2 F), Hw. auto.
    - intros F. now rewrite (H3 F). }
  assert (Hnone' := Hnone). unfold Store.walletsAt in Hnone'.
  destruct (fail_mark_used e), (fail_select_wallet e); cbn;
    rewrite ?Hnone, ?Hnone'; cbn; now apply Hgo.
Qed.

Lemma C9_first_login_ignores_insert_failures_witness :
  let out :=
    run Sim.refusing Sim.issued
        (verify Sim.deps (Sim.at_ (Sim.t0 + 1000)) Sim.goodRequest) in
  snd out
    = json 200
        (BVerify true
           (jwt_sign {| userId := "u-1"; walletAddress := Sim.alice;
                        authMethod := "wallet" |}
                     (JWT_SECRET Sim.deps) sevenDays (Sim.t0 + 1001))
           "u-1" Sim.alice true "Account created successfully") /\
  wallet_addresses (fst out) = [].
Proof.
  unshelve epose proof
    (C9_first_login_ignores_insert_failures Sim.deps
       (Sim.at_ (Sim.t0 + 1000)) Sim.refusing Sim.issued Sim.alice
       (Sim.signedBy Sim.alice Sim.message0) Sim.message0 Sim.alice
       Sim.nonce0 Sim.alice "u-1"
       {| n_id := 1; n_wallet_address := Sim.alice;
          n_nonce := Sim.nonce0; n_expires_at := Sim.t0 + 300000;
          n_used := false |}
       _ _ _ _ _ _ _ _ _ _ _ _) as H.
  1, 2: discriminate.
  1, 2, 4, 8, 9, 10: reflexivity.
  1, 2, 4: vm_compute; reflexivity.
  1: vm_compute; discriminate.
  cbv zeta in H. destruct H as (H1 & H2 & _).
  split; [exact H1|]. exact (proj1 (H2 eq_refl)).
Defined.

(** ** Linking an invalid address *)

(** C10: a link request with its three fields present, a valid token whose
    subject is the user id of the request, and a wallet address that the
    checksum conversion rejects: the conversion throws before any store call,
    and the generic handler answers 500 "Internal server error" -- there is no
    address validation that would answer 400. *)
Theorem C10_link_invalid_address_500 (d : Deps) (a : Ambient) (e : Env)
    (db : DB) (wa u : string) (tok : Jwt) (dec : JwtPayload) :
  wa <> EmptyString -> u <> EmptyString ->
  jwt_verify tok (JWT_SECRET d) (clock a 0) = Some dec ->
  userId dec = u ->
  getAddress d wa = None ->
  run e db (linkWallet d a {| lr_walletAddress := Some wa;
                              lr_userId := Some u;
                              lr_authToken := Some tok |})
    = (db, json 500 (BError "Internal server error")).
Proof.
  intros Hwa Hu Htok Hsub Hc. unfold linkWallet. cbn.
  now rewrite (eqb_empty_false _ Hwa), (eqb_empty_false _ Hu), Htok, Hsub,
    String.eqb_refl, Hc.
Qed.

Lemma C10_link_invalid_address_500_witness :
  isAddress Sim.deps "not-a-wallet" = false /\
  run (calm "u-9") Sim.consumed
      (linkWallet Sim.deps (Sim.at_ (Sim.t0 + 5000))
                  (Sim.linkRequest "not-a-wallet"))
  = (Sim.consumed, json 500 (BError "Internal server error")).
Proof.
  split; [reflexivity|].
  apply (C10_link_invalid_address_500 Sim.deps (Sim.at_ (Sim.t0 + 5000))
           (calm "u-9") Sim.consumed "not-a-wallet" "u-1" Sim.session
           (jwt_payload Sim.session)).
  1, 2: discriminate.
  1: vm_compute; reflexivity.
  1, 2: reflexivity.
Defined.

(** * Further properties of the server *)

(** ** Validation *)

(** The handler answers 400 exactly when a field is missing or empty, the
    wallet address is not an address (any value that is no string included),
    or the message is a string without a [Nonce: <hex>] segment; it then
    answers without a single store call. A message that is no string, sent
    with a valid address, is answered 500 instead: the call of [match] throws
    into the generic handler, again before any store call. *)
Theorem verify_400_exactly (d : Deps) (a : Ambient) (e : Env) (db : DB)
    (req : VerifyRequest) :
  (status (snd (run e db (verify d a req))) = 400%nat <->
   match vr_walletAddress req, vr_signature req, vr_message req with
   | Some wa, Some sg, Some m =>
       falsy wa = true \/ falsy sg = true \/ falsy m = true \/
       match wa with
       | NonString _ => True
       | Str w =>
           isAddress d w = false \/
           (getAddress d w <> None /\
            exists t : string, m = Str t /\ Js.matchNonce t = None)
       end
   | _, _, _ => True
   end) /\
  (status (snd (run e db (verify d a req))) = 400%nat ->
   exists msg, verify d a req = fail 400 msg) /\
  (forall (w c : string) (sg : Value) (j : string),
     vr_walletAddress req = Some w -> vr_signature req = Some sg ->
     vr_message req = Some (NonString j) ->
     w <> EmptyString -> falsy sg = false ->
     isAddress d w = true -> getAddress d w = Some c ->
     verify d a req = fail 500 "Internal server error").
Proof.
  assert (H3 : forall (w c : string) (sg : Value) (j : string),
     vr_walletAddress req = Some w -> vr_signature req = Some sg ->
     vr_message req = Some (NonString j) ->
     w <> EmptyString -> falsy sg = false ->
     isAddress d w = true -> getAddress d w = Some c ->
     verify d a req = fail 500 "Internal server error").
  { intros w c sg j Hw Hs Hm Hne Hsg Hv Hc. unfold verify.
    rewrite Hw, Hs, Hm. cbn. rewrite (eqb_empty_false _ Hne), Hsg. cbn.
    now rewrite Hv, Hc. }
  split; [|split; [|exact H3]]; clear H3.
  all: unfold verify.
  all: destruct req as [[wa|] [sg|] [m|]];
    try solve [cbn; try split; auto; eauto].
  all: cbn -[run].
  all: destruct (falsy wa) eqn:Fwa;
    [solve [cbn; try split; auto; eauto]|].
  all: destruct (falsy sg) eqn:Fsg;
    [solve [cbn; try split; auto; eauto]|].
  all: destruct (falsy m) eqn:Fm;
    [solve [cbn; try split; auto; eauto]|].
  all: cbn -[run].
  all: destruct wa as [w|jw];
    [|solve [cbn; try split; auto 6; eauto]].
  all: destruct (isAddress d w) eqn:Hv;
    [|solve [cbn; try split; auto 6; eauto]].
  all: cbn -[run].
  - destruct (getAddress d w) as [c|] eqn:Hc.
    2: { cbn. split; try discriminate.
         intros [H|[H|[H|[H|[H _]]]]]; congruence. }
    destruct m as [t|jm].
    2: { cbn. split; try discriminate.
         intros [H|[H|[H|[H|[_ (t & H & _)]]]]]; congruence. }
    destruct (Js.matchNonce t) as [n|] eqn:Hn.
    2: { cbn. split; auto. intros _. right. right. right. right.
         split; [congruence|exists t; auto]. }
    match goal with
    | |- context [run e db ?p] =>
        assert (Hno : status (snd (run e db p)) <> 400%nat)
    end.
    { unfold createAccount. cbn.
      repeat (break_if; cbn; try discriminate). }
    split; [intros H; contradiction|].
    intros [H|[H|[H|[H|[_ (t' & H & H')]]]]]; congruence.
  - destruct (getAddress d w) as [c|] eqn:Hc.
    2: { cbn. discriminate. }
    destruct m as [t|jm].
    2: { cbn. discriminate. }
    destruct (Js.matchNonce t) as [n|] eqn:Hn.
    2: { cbn. eauto. }
    match goal with
    | |- context [run e db ?p] =>
        assert (Hno : status (snd (run e db p)) <> 400%nat)
    end.
    { unfold createAccount. cbn.
      repeat (break_if; cbn; try discriminate). }
    intros H; contradiction.
Qed.

Lemma verify_400_exactly_witness :
  (exists msg, verify Sim.deps (Sim.at_ Sim.t0) Demo.unsigned = fail 400 msg) /\
  verify Sim.deps (Sim.at_ Sim.t0) Demo.numberAsMessage
    = fail 500 "Internal server error".
Proof.
  pose proof (verify_400_exactly Sim.deps (Sim.at_ Sim.t0) (calm "u-1")
                Sim.issued Demo.unsigned) as (_ & H & _).
  pose proof (verify_400_exactly Sim.deps (Sim.at_ Sim.t0) (calm "u-1")
                Sim.issued Demo.numberAsMessage) as (_ & _ & H').
  split.
  - apply H. reflexivity.
  - apply (H' Sim.alice Sim.alice (Str "0xdeadbeef") "42").
    1: reflexivity.
    1: reflexivity.
    1: reflexivity.
    1: discriminate.
    1: reflexivity.
    1: reflexivity.
    1: reflexivity.
Defined.

(** ** A nonce belongs to one wallet *)

(** A nonce whose rows all belong to other wallets is refused for this
    wallet with 401 "Invalid or expired nonce", whatever the signature, and
    stays usable by its owner: nothing is written. *)
Theorem nonce_bound_to_wallet (d : Deps) (a : Ambient) (e : Env) (db : DB)
    (wa sg m c n : string) :
  wa <> EmptyString -> sg <> EmptyString ->
  isAddress d wa = true -> getAddress d wa = Some c ->
  Js.matchNonce m = Some n ->
  (forall row, In row (auth_nonces db) -> n_nonce row = n ->
               n_wallet_address row <> c) ->
  run e db (verify d a {| vr_walletAddress := Some wa;
                          vr_signature := Some sg;
                          vr_message := Some m |})
    = (db, json 401 (BError "Invalid or expired nonce")).
Proof.
  intros Hwa Hsg Hv Hc Hn Hother.
  apply (verify_no_unused_row d a e db wa sg m c n); auto.
  apply unusedNonces_none. intros row Hin Hrn Hrw.
  exfalso. exact (Hother row Hin Hrn Hrw).
Qed.

Lemma nonce_bound_to_wallet_witness :
  Sim.verifyMessage Sim.message0 (Sim.signedBy Sim.bob Sim.message0)
    = Some Sim.bob /\
  run (calm "u-2") Sim.issued
      (verify Sim.deps (Sim.at_ (Sim.t0 + 1000)) Demo.bobWithAliceNonce)
    = (Sim.issued, json 401 (BError "Invalid or expired nonce")).
Proof.
  split; [vm_compute; reflexivity|].
  apply (nonce_bound_to_wallet Sim.deps (Sim.at_ (Sim.t0 + 1000))
           (calm "u-2") Sim.issued Sim.bob
           (Sim.signedBy Sim.bob Sim.message0) Sim.message0 Sim.bob
           Sim.nonce0).
  1, 2: discriminate.
  1, 2: reflexivity.
  1: vm_compute; reflexivity.
  vm_compute. intros row [<-|[]] _. discriminate.
Defined.

(** ** The instant of expiry *)

(** The handler's own test of the expiry, for an attempt whose unused nonce
    row the store returns and whose signature recovers the address: at every
    reading of the server's clock up to and including [expires_at] the
    attempt passes (200, or 500 when the account cannot be created); from the
    next millisecond on it is answered 401 "Nonce has expired" and nothing is
    written. (Under the read policy of the migration the store returns the
    row only while its own clock is before [expires_at].) *)
Theorem expiry_is_inclusive (d : Deps) (a : Ambient) (e : Env) (db : DB)
    (wa sg m c n r : string) (row : NonceRow) :
  wa <> EmptyString -> sg <> EmptyString ->
  isAddress d wa = true -> getAddress d wa = Some c ->
  Js.matchNonce m = Some n ->
  fail_select_nonce e = false ->
  Store.unusedNonces n c (auth_nonces db) = [row] ->
  verifyMessage d m sg = Some r ->
  Js.toLowerCase r = Js.toLowerCase c ->
  let out := run e db (verify d a {| vr_walletAddress := Some wa;
                                     vr_signature := Some sg;
                                     vr_message := Some m |}) in
  (clock a 0 <= n_expires_at row ->
   pastChecks d a e c (snd out) /\
   (signUp_user e <> None -> status (snd out) = 200%nat)) /\
  (n_expires_at row < clock a 0 ->
   out = (db, json 401 (BError "Nonce has expired"))).
Proof.
  intros Hwa Hsg Hv Hc Hn Hf Hrow Hr Hlow out. split.
  - intros Hle.
    destruct (verify_passes d a e db wa sg m c n r row Hwa
                (eqb_empty_false _ Hsg) Hv Hc Hn Hf Hrow Hle Hr Hlow)
      as (H1 & H2 & _).
    split; assumption.
  - intros Hlt.
    apply (verify_expired d a e db wa sg m c n row); assumption.
Qed.

Lemma expiry_is_inclusive_witness :
  status (snd (run (Demo.policies "u-1") Sim.issued
                   (verify Sim.deps (Sim.at_ (Sim.t0 + 300000))
                           Sim.goodRequest))) = 200%nat /\
  run (Demo.policies "u-1") Sim.issued
      (verify Sim.deps (Sim.at_ (Sim.t0 + 300001)) Sim.goodRequest)
    = (Sim.issued, json 401 (BError "Nonce has expired")).
Proof.
  split.
  - unshelve epose proof
      (expiry_is_inclusive Sim.deps (Sim.at_ (Sim.t0 + 300000))
         (Demo.policies "u-1")
         Sim.issued Sim.alice (Sim.signedBy Sim.alice Sim.message0)
         Sim.message0 Sim.alice Sim.nonce0 Sim.alice Demo.row0
         _ _ _ _ _ _ _ _ _) as H.
    1: discriminate.
    1: vm_compute; discriminate.
    1: reflexivity.
    1: reflexivity.
    1: vm_compute; reflexivity.
    1: reflexivity.
    1: vm_compute; reflexivity.
    1: vm_compute; reflexivity.
    1: reflexivity.
    apply (proj1 H); [vm_compute; discriminate|discriminate].
  - unshelve epose proof
      (expiry_is_inclusive Sim.deps (Sim.at_ (Sim.t0 + 300001))
         (Demo.policies "u-1")
         Sim.issued Sim.alice (Sim.signedBy Sim.alice Sim.message0)
         Sim.message0 Sim.alice Sim.nonce0 Sim.alice Demo.row0
         _ _ _ _ _ _ _ _ _) as H.
    1: discriminate.
    1: vm_compute; discriminate.
    1: reflexivity.
    1: reflexivity.
    1: vm_compute; reflexivity.
    1: reflexivity.
    1: vm_compute; reflexivity.
    1: vm_compute; reflexivity.
    1: reflexivity.
    apply (proj2 H). vm_compute. reflexivity.
Defined.

(** ** The message is not compared with the issued one *)

(** The handler does not compare the message with the one it issued: it
    reads the first [Nonce: <hex>] segment and checks the signature over the
    text as sent. For any text that embeds a nonce of the wallet whose unused
    row the store returns, before the expiry, with a signature over that text
    that recovers the wallet: the attempt passes (200, or 500 when the account
    cannot be created), and the nonce row is flagged exactly when the store
    performs the update. *)
Theorem any_message_with_the_nonce (d : Deps) (a : Ambient) (e : Env)
    (db : DB) (wa sg pre post c n r : string) (row : NonceRow) :
  wa <> EmptyString -> sg <> EmptyString ->
  isAddress d wa = true -> getAddress d wa = Some c ->
  Js.matchNonce (pre ++ "Nonce: " ++ n ++ post) = Some n ->
  fail_select_nonce e = false ->
  Store.unusedNonces n c (auth_nonces db) = [row] ->
  clock a 0 <= n_expires_at row ->
  verifyMessage d (pre ++ "Nonce: " ++ n ++ post) sg = Some r ->
  Js.toLowerCase r = Js.toLowerCase c ->
  let out := run e db (verify d a {| vr_walletAddress := Some wa;
                                     vr_signature := Some sg;
                                     vr_message :=
                                       Some (pre ++ "Nonce: " ++ n ++ post) |})
  in
  pastChecks d a e c (snd out) /\
  (signUp_user e <> None -> status (snd out) = 200%nat) /\
  auth_nonces (fst out)
    = (if fail_mark_used e then auth_nonces db
       else Store.markUsed (n_id row) (auth_nonces db)).
Proof.
  intros Hwa Hsg Hv Hc Hn Hf Hrow Hexp Hr Hlow.
  apply (verify_passes d a e db wa sg _ c n r row); try assumption.
  apply eqb_empty_false. exact Hsg.
Qed.

Lemma any_message_with_the_nonce_witness :
  Demo.ownMessage <> Sim.message0 /\
  status (snd (run (Demo.policies "u-1") Sim.issued
                   (verify Sim.deps (Sim.at_ (Sim.t0 + 1000))
                           Demo.ownMessageRequest))) = 200%nat.
Proof.
  split; [vm_compute; discriminate|].
  unshelve epose proof
    (any_message_with_the_nonce Sim.deps (Sim.at_ (Sim.t0 + 1000))
       (Demo.policies "u-1") Sim.issued Sim.alice
       (Sim.signedBy Sim.alice Demo.ownMessage) EmptyString EmptyString
       Sim.alice Sim.nonce0 Sim.alice Demo.row0
       _ _ _ _ _ _ _ _ _ _) as H.
  1: discriminate.
  1: vm_compute; discriminate.
  1: reflexivity.
  1: reflexivity.
  1: vm_compute; reflexivity.
  1: reflexivity.
  1: vm_compute; reflexivity.
  1: vm_compute; discriminate.
  1: vm_compute; reflexivity.
  1: reflexivity.
  destruct H as (_ & H & _). apply H. discriminate.
Defined.

(** ** What issuance writes *)

(** The nonce handler answers 200, 400 or 500. It writes only when it
    answers 200, and then exactly one row, unused, for the checksum form of the
    address; an address that is no address is answered 400, a refused insert
    (a nonce value already present included) 500 "Failed to generate nonce". *)
Theorem getNonce_writes_only_on_200 (d : Deps) (a : Ambient) (e : Env)
    (db : DB) (wa : string) :
  let out := run e db (getNonce d a wa) in
  (status (snd out) = 200%nat \/ status (snd out) = 400%nat \/
   status (snd out) = 500%nat) /\
  (status (snd out) <> 200%nat -> fst out = db) /\
  (status (snd out) = 200%nat ->
   exists c,
     getAddress d wa = Some c /\
     fst out =
       Store.setNonces db
         (auth_nonces db ++
            [{| n_id := Store.freshId n_id (auth_nonces db);
                n_wallet_address := c;
                n_nonce := generateNonce (random a);
                n_expires_at := clock a 0 + 300000;
                n_used := false |}])) /\
  (isAddress d wa = false ->
   snd out = json 400 (BError "Invalid wallet address")) /\
  (isAddress d wa = true -> getAddress d wa <> None ->
   fail_insert_nonce e
   || Store.nonceHeld (generateNonce (random a)) (auth_nonces db) = true ->
   snd out = json 500 (BError "Failed to generate nonce")).
Proof.
  unfold getNonce.
  destruct (isAddress d wa); cbn.
  - destruct (getAddress d wa) as [c|]; cbn.
    + destruct (fail_insert_nonce e
                || Store.nonceHeld (generateNonce (random a)) (auth_nonces db));
        cbn.
      * repeat split; auto; try discriminate; try congruence.
      * repeat split; auto; try discriminate; try congruence;
          try (intros _; exists c; auto).
    + repeat split; auto; try discriminate; try congruence.
  - repeat split; auto; try discriminate.
Qed.

Lemma getNonce_writes_only_on_200_witness :
  run (calm "u-1") Sim.issued (getNonce Sim.deps (Sim.at_ Sim.t0) Sim.alice)
    = (Sim.issued, json 500 (BError "Failed to generate nonce")).
Proof.
  pose proof (getNonce_writes_only_on_200 Sim.deps (Sim.at_ Sim.t0)
                (calm "u-1") Sim.issued Sim.alice) as H.
  cbv zeta in H. destruct H as (_ & Hdb & _ & _ & Hresp).
  assert (E1 := Hdb ltac:(vm_compute; discriminate)).
  assert (E2 := Hresp eq_refl ltac:(discriminate)
                  ltac:(vm_compute; reflexivity)).
  rewrite (surjective_pairing (run _ _ _)), E1, E2. reflexivity.
Defined.

(** ** The nonce table under verification *)

Lemma markUsed_flaggedFrom id l :
  Forall2 flaggedFrom l (Store.markUsed id l).
Proof.
  induction l as [|r l IH]; cbn; constructor; [|exact IH].
  unfold flaggedFrom. destruct (Nat.eqb (n_id r) id); cbn; repeat split; auto.
Qed.

Lemma flaggedFrom_refl l : Forall2 flaggedFrom l l.
Proof.
  induction l as [|r l IH]; constructor; [|exact IH].
  unfold flaggedFrom. repeat split; auto.
Qed.

(** Whatever the request and whatever the store does, an attempt leaves the
    nonce table with the same rows in the same order: no row is added or
    removed, no nonce, address or expiry is changed, and a flag that was set
    stays set. *)
Theorem verify_only_sets_flags (d : Deps) (a : Ambient) (e : Env) (db : DB)
    (req : VerifyRequest) :
  Forall2 flaggedFrom (auth_nonces db)
          (auth_nonces (fst (run e db (verify d a req)))).
Proof.
  destruct (verify_nonces d a e db req) as [E|[id E]]; rewrite E.
  - apply flaggedFrom_refl.
  - apply markUsed_flaggedFrom.
Qed.

(** ** Two facts about lists *)

Lemma NoDup_snoc {A} (l : list A) (x : A) :
  NoDup l -> ~ In x l -> NoDup (l ++ [x]).
Proof.
  intros Hl Hx. apply NoDup_app; [exact Hl| |].
  - constructor; [intros []|constructor].
  - intros y Hy [<-|[]]. contradiction.
Qed.

Lemma existsb_false_not_In {R} (key : R -> string) (k : string) (l : list R) :
  existsb (fun r => String.eqb (key r) k) l = false ->
  ~ In k (map key l).
Proof.
  intros H Hin. apply in_map_iff in Hin as [r [Hr Hin]].
  assert (existsb (fun r => String.eqb (key r) k) l = true).
  { apply existsb_exists. exists r. split; [exact Hin|].
    now apply String.eqb_eq. }
  congruence.
Qed.

(** ** Session tokens at the link endpoint *)

(** A token minted by the verify handler for user [u] at clock reading [t]
    is honoured by the link endpoint at every reading before second
    [t / 1000 + 604800] and answered 401 "Invalid or expired token" from that
    second on; without a single store call in the second case. *)
Theorem session_token_lifetime (d : Deps) (a0 a : Ambient) (e : Env)
    (db : DB) (wa u c0 : string) :
  wa <> EmptyString -> u <> EmptyString ->
  let req := {| lr_walletAddress := Some wa; lr_userId := Some u;
                lr_authToken := Some (sessionToken d a0 u c0) |} in
  (clock a 0 / 1000 < clock a0 1 / 1000 + 604800 ->
   status (snd (run e db (linkWallet d a req))) <> 401%nat /\
   status (snd (run e db (linkWallet d a req))) <> 403%nat) /\
  (clock a0 1 / 1000 + 604800 <= clock a 0 / 1000 ->
   linkWallet d a req = fail 401 "Invalid or expired token").
Proof.
  intros Hwa Hu req. subst req. unfold linkWallet, sessionToken, jwt_verify,
    jwt_sign. cbn -[run Z.div].
  rewrite (eqb_empty_false _ Hwa), (eqb_empty_false _ Hu), !String.eqb_refl.
  cbn -[run Z.div]. change sevenDays with 604800. split.
  - intros Hlt.
    assert (Hx : (clock a0 1 / 1000 + 604800 <=? clock a 0 / 1000) = false)
      by (apply Z.leb_gt; lia).
    rewrite Hx. cbn. rewrite String.eqb_refl. cbn.
    repeat (break_if; cbn; try (split; discriminate)).
  - intros Hle. apply Z.leb_le in Hle. now rewrite Hle.
Qed.

Lemma session_token_lifetime_witness :
  linkWallet Sim.deps (Sim.at_ (Sim.t0 + 1001 + 604800000))
             (Sim.linkRequest Sim.bob)
    = fail 401 "Invalid or expired token" /\
  status (snd (run (calm "u-9") Sim.consumed
                   (linkWallet Sim.deps (Sim.at_ (Sim.t0 + 604800000))
                               (Sim.linkRequest Sim.bob)))) <> 401%nat.
Proof.
  pose proof (session_token_lifetime Sim.deps (Sim.at_ (Sim.t0 + 1000))
                (Sim.at_ (Sim.t0 + 1001 + 604800000)) (calm "u-9")
                Sim.consumed Sim.bob "u-1" Sim.alice) as H1.
  pose proof (session_token_lifetime Sim.deps (Sim.at_ (Sim.t0 + 1000))
                (Sim.at_ (Sim.t0 + 604800000)) (calm "u-9")
                Sim.consumed Sim.bob "u-1" Sim.alice) as H2.
  cbv zeta in H1, H2. split.
  - apply H1; [discriminate|discriminate|]. vm_compute. discriminate.
  - apply H2; [discriminate|discriminate|]. vm_compute. reflexivity.
Defined.

(** A link request is authorized before anything else is looked at: a token
    that does not verify (expired, or signed with another key) is answered 401
    and a token of another user 403, each without converting the address and
    without a store call -- so also for an address that is invalid or already
    linked. *)
Theorem link_authorization_comes_first (d : Deps) (a : Ambient)
    (wa u : string) (tok : Jwt) :
  wa <> EmptyString -> u <> EmptyString ->
  let req := {| lr_walletAddress := Some wa; lr_userId := Some u;
                lr_authToken := Some tok |} in
  (jwt_key tok <> JWT_SECRET d ->
   linkWallet d a req = fail 401 "Invalid or expired token") /\
  (jwt_verify tok (JWT_SECRET d) (clock a 0) = None ->
   linkWallet d a req = fail 401 "Invalid or expired token") /\
  (forall dec, jwt_verify tok (JWT_SECRET d) (clock a 0) = Some dec ->
   userId dec <> u ->
   linkWallet d a req = fail 403 "Unauthorized").
Proof.
  intros Hwa Hu req. subst req. unfold linkWallet. cbn.
  rewrite (eqb_empty_false _ Hwa), (eqb_empty_false _ Hu). cbn.
  split; [|split].
  - intros Hk. unfold jwt_verify.
    apply String.eqb_neq in Hk. now rewrite Hk.
  - intros Hv. now rewrite Hv.
  - intros dec Hv Hne. rewrite Hv.
    apply String.eqb_neq in Hne. now rewrite Hne.
Qed.

Lemma link_authorization_comes_first_witness :
  linkWallet Sim.deps (Sim.at_ (Sim.t0 + 5000))
    {| lr_walletAddress := Some "not-a-wallet"; lr_userId := Some "u-1";
       lr_authToken := Some Demo.forged |}
    = fail 401 "Invalid or expired token" /\
  linkWallet Sim.deps (Sim.at_ (Sim.t0 + 5000))
    {| lr_walletAddress := Some Sim.alice; lr_userId := Some "u-2";
       lr_authToken := Some Sim.session |}
    = fail 403 "Unauthorized".
Proof.
  split.
  - destruct (link_authorization_comes_first Sim.deps
                (Sim.at_ (Sim.t0 + 5000)) "not-a-wallet" "u-1" Demo.forged)
      as (H & _ & _).
    1, 2: discriminate.
    apply H. vm_compute. discriminate.
  - destruct (link_authorization_comes_first Sim.deps
                (Sim.at_ (Sim.t0 + 5000)) Sim.alice "u-2" Sim.session)
      as (_ & _ & H).
    1, 2: discriminate.
    apply (H (jwt_payload Sim.session)).
    + vm_compute. reflexivity.
    + vm_compute. discriminate.
Defined.

(** ** The primary flag of a new link *)

Lemma demote_not_primary u l w :
  In w (Store.demote u l) -> w_user_id w = u -> w_is_primary w = false.
Proof.
  unfold Store.demote. intros H Hu. apply in_map_iff in H.
  destruct H as (w0 & E & _).
  destruct (String.eqb (w_user_id w0) u && w_is_primary w0) eqn:Hb.
  - now subst w.
  - subst w. rewrite Hu, String.eqb_refl in Hb. exact Hb.
Qed.

Lemma demote_others u l w :
  In w l -> w_user_id w <> u -> In w (Store.demote u l).
Proof.
  intros Hin Hne. unfold Store.demote. apply in_map_iff. exists w.
  split; [|exact Hin].
  apply String.eqb_neq in Hne. now rewrite Hne.
Qed.

(** An authorized link request for an address no link holds, whose insert
    the store accepts, is answered 200 and adds exactly one row. The row is
    primary when the lookup of the user's links returns none: when the user
    has no link, and also whenever that lookup fails, whatever links the user
    has. A primary row takes the flag from every other link of the user (the
    trigger of the migration), so that the new link is then the user's only
    primary one; a row that is not primary leaves the table as it was. The
    links of other users stay as they are in either case. *)
Theorem link_primary_flag (d : Deps) (a : Ambient) (e : Env) (db : DB)
    (wa u c : string) (tok : Jwt) (dec : JwtPayload) :
  wa <> EmptyString -> u <> EmptyString ->
  jwt_verify tok (JWT_SECRET d) (clock a 0) = Some dec ->
  userId dec = u ->
  getAddress d wa = Some c ->
  Store.addressHeld c (wallet_addresses db) = false ->
  fail_insert_wallet e = false ->
  let primary :=
    fail_select_user_wallets e
    || Nat.eqb (List.length (Store.walletsOf u (wallet_addresses db))) 0 in
  let row := {| w_id := Store.freshId w_id (wallet_addresses db);
                w_user_id := u; w_wallet_address := c;
                w_is_primary := primary |} in
  let out := run e db (linkWallet d a {| lr_walletAddress := Some wa;
                                         lr_userId := Some u;
                                         lr_authToken := Some tok |}) in
  snd out = json 200 (BLink true "Wallet linked successfully" c) /\
  wallet_addresses (fst out)
    = ((if primary then Store.demote u (wallet_addresses db)
        else wallet_addresses db) ++ [row])%list /\
  (primary = true ->
   forall w, In w (wallet_addresses (fst out)) ->
             w_user_id w = u -> w_is_primary w = true -> w = row) /\
  (forall w, In w (wallet_addresses db) -> w_user_id w <> u ->
             In w (wallet_addresses (fst out))).
Proof.
  intros Hwa Hu Htok Hsub Hc Hnew Hins primary row out.
  assert (Hout : out =
    (Store.setWallets db
       ((if primary then Store.demote u (wallet_addresses db)
         else wallet_addresses db) ++ [row]),
     json 200 (BLink true "Wallet linked successfully" c))).
  { subst out row primary. unfold linkWallet. cbn.
    rewrite (eqb_empty_false _ Hwa), (eqb_empty_false _ Hu), Htok, Hsub,
      String.eqb_refl, Hc. cbn.
    assert (Hnone : Store.walletsAt c (wallet_addresses db) = []).
    { apply walletsAt_absent. now apply existsb_false_not_In. }
    assert (Hnone' := Hnone). unfold Store.walletsAt in Hnone'.
    destruct (fail_select_wallet e); cbn; rewrite ?Hnone, ?Hnone'; cbn.
    all: destruct (fail_select_user_wallets e); cbn; rewrite Hins, Hnew; cbn;
      reflexivity. }
  rewrite Hout. cbn [fst snd]. clearbody row primary. clear Hout out.
  assert (Hw : wallet_addresses
                 (Store.setWallets db
                    ((if primary then Store.demote u (wallet_addresses db)
                      else wallet_addresses db) ++ [row]))
               = ((if primary then Store.demote u (wallet_addresses db)
                   else wallet_addresses db) ++ [row])%list)
    by reflexivity.
  rewrite Hw. clear Hw.
  split; [reflexivity|]. split; [reflexivity|]. split.
  - intros -> w Hin Hwu Hp. apply in_app_iff in Hin as [Hin|[<-|[]]].
    + rewrite (demote_not_primary u _ w Hin Hwu) in Hp. discriminate.
    + reflexivity.
  - intros w Hin Hne. apply in_app_iff. left.
    destruct primary; [now apply demote_others|exact Hin].
Qed.

Lemma link_primary_flag_witness :
  wallet_addresses
    (fst (run (Demo.linksHidden "u-9") Sim.consumed
              (linkWallet Sim.deps (Sim.at_ (Sim.t0 + 5000))
                          (Sim.linkRequest Sim.bob))))
    = [{| w_id := 1; w_user_id := "u-1"; w_wallet_address := Sim.alice;
          w_is_primary := false |};
       {| w_id := 2; w_user_id := "u-1"; w_wallet_address := Sim.bob;
          w_is_primary := true |}].
Proof.
  unshelve epose proof
    (link_primary_flag Sim.deps (Sim.at_ (Sim.t0 + 5000))
       (Demo.linksHidden "u-9") Sim.consumed Sim.bob "u-1" Sim.bob
       Sim.session (jwt_payload Sim.session) _ _ _ _ _ _ _) as H.
  1: discriminate.
  1: discriminate.
  1: vm_compute; reflexivity.
  1: reflexivity.
  1: reflexivity.
  1: vm_compute; reflexivity.
  1: reflexivity.
  cbv zeta in H. destruct H as (_ & H & _).
  unfold Sim.linkRequest. rewrite H. vm_compute. reflexivity.
Defined.

(** ** Returning wallets *)

(** An accepted attempt for an address whose lookup returns a link. *)
Lemma verify_returning d a e db (wa sg m c n : string) row (r : string) w :
  wa <> EmptyString -> sg <> EmptyString ->
  isAddress d wa = true -> getAddress d wa = Some c ->
  Js.matchNonce m = Some n ->
  fail_select_nonce e = false ->
  Store.unusedNonces n c (auth_nonces db) = [row] ->
  clock a 0 <= n_expires_at row ->
  verifyMessage d m sg = Some r ->
  Js.toLowerCase r = Js.toLowerCase c ->
  fail_select_wallet e = false ->
  Store.walletsAt c (wallet_addresses db) = [w] ->
  w_user_id w <> EmptyString ->
  let out := run e db (verify d a {| vr_walletAddress := Some wa;
                                     vr_signature := Some sg;
                                     vr_message := Some m |}) in
  snd out = verified d a (w_user_id w) c false /\
  wallet_addresses (fst out) = wallet_addresses db /\
  profiles (fst out) = profiles db.
Proof.
  intros Hwa Hsg Hv Hc Hn Hf Hrow Hexp Hr Hlow Hsel Hw Hu out. subst out.
  unfold verify. cbn.
  rewrite (eqb_empty_false _ Hwa), (eqb_empty_false _ Hsg).
  assert (Hm : String.eqb m EmptyString = false).
  { apply String.eqb_neq. intros ->. discriminate Hn. }
  rewrite Hm, Hv, Hc, Hn. cbn. rewrite Hf, Hrow. cbn.
  assert (Hx : (n_expires_at row <? clock a 0) = false) by (apply Z.ltb_ge; lia).
  rewrite Hx, Hr, Hlow, String.eqb_refl. cbn.
  assert (Hw' := Hw). unfold Store.walletsAt in Hw'.
  destruct (fail_mark_used e); cbn; rewrite Hsel; cbn;
    rewrite ?Hw, ?Hw'; cbn; rewrite (eqb_empty_false _ Hu); cbn; auto.
Qed.

(** The link insert of account creation for an address that a link holds is
    refused by the uniqueness constraint: the link table stays as it is. *)
Lemma createAccount_held d a e db c :
  Store.addressHeld c (wallet_addresses db) = true ->
  wallet_addresses (fst (run e db (createAccount d a c)))
    = wallet_addresses db.
Proof.
  intros Held. unfold createAccount. cbn.
  destruct (signUp_user e); cbn; [|reflexivity].
  assert (Held' := Held). unfold Store.addressHeld in Held'.
  destruct (fail_insert_profile e
            || Store.profileClash _ (profiles db)); cbn;
    destruct (fail_insert_wallet e); cbn; rewrite ?Held, ?Held'; reflexivity.
Qed.

(** An accepted attempt for an address whose lookup returns nothing. *)
Lemma verify_not_found d a e db (wa sg m c n : string) row (r : string) :
  wa <> EmptyString -> sg <> EmptyString ->
  isAddress d wa = true -> getAddress d wa = Some c ->
  Js.matchNonce m = Some n ->
  fail_select_nonce e = false ->
  Store.unusedNonces n c (auth_nonces db) = [row] ->
  clock a 0 <= n_expires_at row ->
  verifyMessage d m sg = Some r ->
  Js.toLowerCase r = Js.toLowerCase c ->
  fail_select_wallet e = true ->
  exists db1,
    wallet_addresses db1 = wallet_addresses db /\
    run e db (verify d a {| vr_walletAddress := Some wa;
                            vr_signature := Some sg;
                            vr_message := Some m |})
      = run e db1 (createAccount d a c).
Proof.
  intros Hwa Hsg Hv Hc Hn Hf Hrow Hexp Hr Hlow Hsel.
  unfold verify. cbn.
  rewrite (eqb_empty_false _ Hwa), (eqb_empty_false _ Hsg).
  assert (Hm : String.eqb m EmptyString = false).
  { apply String.eqb_neq. intros ->. discriminate Hn. }
  rewrite Hm, Hv, Hc, Hn. cbn. rewrite Hf, Hrow. cbn.
  assert (Hx : (n_expires_at row <? clock a 0) = false) by (apply Z.ltb_ge; lia).
  rewrite Hx, Hr, Hlow, String.eqb_refl. cbn.
  destruct (fail_mark_used e); cbn; rewrite Hsel; cbn;
    eexists; (split; [|reflexivity]); reflexivity.
Qed.

(** A verified login for an address that has a link resolves to the owner
    of the link exactly when the lookup of the link returns it: then the
    answer is 200, [isNewUser = false], "Login successful", with a token for
    the owner; the account service is not called, and the link and profile
    tables are left alone. When the lookup returns nothing (refused, or the
    link hidden from the server's client), the handler takes the wallet for a
    new one: it asks the account service for a new account and answers for
    that user with [isNewUser = true], or 500 when the service refuses, while
    the link table stays as it is. *)
Theorem returning_wallet_resolves_to_owner (d : Deps) (a : Ambient)
    (e : Env) (db : DB) (wa sg m c n r : string) (row : NonceRow)
    (link : WalletRow) :
  wa <> EmptyString -> sg <> EmptyString ->
  isAddress d wa = true -> getAddress d wa = Some c ->
  Js.matchNonce m = Some n ->
  fail_select_nonce e = false ->
  Store.unusedNonces n c (auth_nonces db) = [row] ->
  clock a 0 <= n_expires_at row ->
  verifyMessage d m sg = Some r ->
  Js.toLowerCase r = Js.toLowerCase c ->
  NoDup (map w_wallet_address (wallet_addresses db)) ->
  In link (wallet_addresses db) ->
  w_wallet_address link = c ->
  w_user_id link <> EmptyString ->
  let out := run e db (verify d a {| vr_walletAddress := Some wa;
                                     vr_signature := Some sg;
                                     vr_message := Some m |}) in
  (fail_select_wallet e = false ->
   snd out
     = json 200
         (BVerify true
            (jwt_sign {| userId := w_user_id link; walletAddress := c;
                         authMethod := "wallet" |}
                      (JWT_SECRET d) sevenDays (clock a 1))
            (w_user_id link) c false "Login successful") /\
   wallet_addresses (fst out) = wallet_addresses db /\
   profiles (fst out) = profiles db) /\
  (fail_select_wallet e = true ->
   snd out
     = match signUp_user e with
       | Some u => verified d a u c true
       | None => json 500 (BError "Failed to create user account")
       end /\
   wallet_addresses (fst out) = wallet_addresses db).
Proof.
  intros Hwa Hsg Hv Hc Hn Hf Hrow Hexp Hr Hlow Hnd Hin Hlc Hu out.
  split; intros Hsel.
  - apply (verify_returning d a e db wa sg m c n row r link); auto.
    rewrite <- Hlc. now apply walletsAt_unique.
  - destruct (verify_not_found d a e db wa sg m c n row r)
      as (db1 & Hw1 & Hrun); auto.
    subst out. rewrite Hrun. split.
    + apply createAccount_answer.
    + rewrite createAccount_held; [exact Hw1|].
      rewrite Hw1. apply addressHeld_In. exists link. now split.
Qed.

Lemma returning_wallet_resolves_to_owner_witness :
  snd (run (calm "u-2") Demo.reissued (verify Sim.deps Demo.later
                                              Demo.secondLogin))
    = json 200
        (BVerify true
           (jwt_sign {| userId := "u-1"; walletAddress := Sim.alice;
                        authMethod := "wallet" |}
                     (JWT_SECRET Sim.deps) sevenDays (Sim.t0 + 60001))
           "u-1" Sim.alice false "Login successful") /\
  snd (run (Demo.lookupHidden "u-2") Demo.reissued
           (verify Sim.deps Demo.later Demo.secondLogin))
    = verified Sim.deps Demo.later "u-2" Sim.alice true.
Proof.
  split.
  - unshelve epose proof
      (returning_wallet_resolves_to_owner Sim.deps Demo.later (calm "u-2")
         Demo.reissued Sim.alice (Sim.signedBy Sim.alice Demo.message1)
         Demo.message1 Sim.alice Demo.nonce1 Sim.alice
         {| n_id := 2; n_wallet_address := Sim.alice; n_nonce := Demo.nonce1;
            n_expires_at := Sim.t0 + 360000; n_used := false |}
         {| w_id := 1; w_user_id := "u-1"; w_wallet_address := Sim.alice;
            w_is_primary := true |}
         _ _ _ _ _ _ _ _ _ _ _ _ _ _) as H.
    1: discriminate.
    1: vm_compute; discriminate.
    1: reflexivity.
    1: reflexivity.
    1: vm_compute; reflexivity.
    1: reflexivity.
    1: vm_compute; reflexivity.
    1: vm_compute; discriminate.
    1: vm_compute; reflexivity.
    1: reflexivity.
    1: vm_compute; constructor; [intros []|constructor].
    1: vm_compute; left; reflexivity.
    1: reflexivity.
    1: discriminate.
    exact (proj1 (proj1 H eq_refl)).
  - unshelve epose proof
      (returning_wallet_resolves_to_owner Sim.deps Demo.later
         (Demo.lookupHidden "u-2")
         Demo.reissued Sim.alice (Sim.signedBy Sim.alice Demo.message1)
         Demo.message1 Sim.alice Demo.nonce1 Sim.alice
         {| n_id := 2; n_wallet_address := Sim.alice; n_nonce := Demo.nonce1;
            n_expires_at := Sim.t0 + 360000; n_used := false |}
         {| w_id := 1; w_user_id := "u-1"; w_wallet_address := Sim.alice;
            w_is_primary := true |}
         _ _ _ _ _ _ _ _ _ _ _ _ _ _) as H.
    1: discriminate.
    1: vm_compute; discriminate.
    1: reflexivity.
    1: reflexivity.
    1: vm_compute; reflexivity.
    1: reflexivity.
    1: vm_compute; reflexivity.
    1: vm_compute; discriminate.
    1: vm_compute; reflexivity.
    1: reflexivity.
    1: vm_compute; constructor; [intros []|constructor].
    1: vm_compute; left; reflexivity.
    1: reflexivity.
    1: discriminate.
    exact (proj1 (proj2 H eq_refl)).
Defined.

(** The link row that account creation adds when its insert is accepted. *)
Lemma createAccount_links d a e db c u :
  signUp_user e = Some u ->
  fail_insert_wallet e = false ->
  Store.addressHeld c (wallet_addresses db) = false ->
  exists others,
    map w_wallet_address others = map w_wallet_address (wallet_addresses db) /\
    map w_user_id others = map w_user_id (wallet_addresses db) /\
    wallet_addresses (fst (run e db (createAccount d a c)))
      = (others ++
           [{| w_id := Store.freshId w_id (wallet_addresses db);
               w_user_id := u; w_wallet_address := c;
               w_is_primary := true |}])%list.
Proof.
  intros Hu Hins Hnew. unfold createAccount. cbn. rewrite Hu. cbn.
  assert (Hnew' := Hnew). unfold Store.addressHeld in Hnew'.
  exists (Store.demote u (wallet_addresses db)).
  split; [apply demote_addresses|]. split; [apply demote_users|].
  destruct (fail_insert_profile e
            || Store.profileClash _ (profiles db)); cbn;
    rewrite Hins; cbn; rewrite ?Hnew, ?Hnew'; reflexivity.
Qed.

(** A later store that still has the links of an earlier one (same address,
    same user), with its addresses distinct, returns for an address the link
    of the same user. *)
Lemma carried_link (l l2 : list WalletRow) (w : WalletRow) :
  NoDup (map w_wallet_address l2) ->
  (forall x, In x l ->
     exists x', In x' l2 /\ w_wallet_address x' = w_wallet_address x /\
                w_user_id x' = w_user_id x) ->
  In w l ->
  exists w', Store.walletsAt (w_wallet_address w) l2 = [w'] /\
             w_user_id w' = w_user_id w.
Proof.
  intros Hnd Hcar Hin. destruct (Hcar w Hin) as (w' & Hin' & Ha & Hu).
  exists w'. split; [|exact Hu]. rewrite <- Ha. now apply walletsAt_unique.
Qed.

(** First login, then login again. When the first verified login of an
    address that no link holds created account [u] (the account service
    answered with [u]) and the store accepted the insert of its link, then a
    later verified login of that address, in any later store that still has
    the links of the first (with distinct addresses) and whose lookup of the
    link returns it, is answered for the same [u] with [isNewUser = false].
    Both logins are attempts whose unused nonce row the store returns before
    the expiry, with a signature that recovers the address. *)
Theorem first_login_then_login (d : Deps) (a1 a2 : Ambient) (e1 e2 : Env)
    (db db2 : DB) (wa sg1 sg2 m1 m2 c n1 n2 r1 r2 u : string)
    (row1 row2 : NonceRow) :
  wa <> EmptyString -> sg1 <> EmptyString -> sg2 <> EmptyString ->
  u <> EmptyString ->
  isAddress d wa = true -> getAddress d wa = Some c ->
  (* the first login *)
  Js.matchNonce m1 = Some n1 ->
  fail_select_nonce e1 = false ->
  Store.unusedNonces n1 c (auth_nonces db) = [row1] ->
  clock a1 0 <= n_expires_at row1 ->
  verifyMessage d m1 sg1 = Some r1 ->
  Js.toLowerCase r1 = Js.toLowerCase c ->
  Store.addressHeld c (wallet_addresses db) = false ->
  signUp_user e1 = Some u ->
  fail_insert_wallet e1 = false ->
  (* the later store *)
  NoDup (map w_wallet_address (wallet_addresses db2)) ->
  (forall w,
     In w (wallet_addresses
             (fst (run e1 db (verify d a1 {| vr_walletAddress := Some wa;
                                             vr_signature := Some sg1;
                                             vr_message := Some m1 |})))) ->
     exists w', In w' (wallet_addresses db2) /\
                w_wallet_address w' = w_wallet_address w /\
                w_user_id w' = w_user_id w) ->
  (* the second login *)
  Js.matchNonce m2 = Some n2 ->
  fail_select_nonce e2 = false ->
  Store.unusedNonces n2 c (auth_nonces db2) = [row2] ->
  clock a2 0 <= n_expires_at row2 ->
  verifyMessage d m2 sg2 = Some r2 ->
  Js.toLowerCase r2 = Js.toLowerCase c ->
  fail_select_wallet e2 = false ->
  snd (run e1 db (verify d a1 {| vr_walletAddress := Some wa;
                                 vr_signature := Some sg1;
                                 vr_message := Some m1 |}))
    = verified d a1 u c true /\
  snd (run e2 db2 (verify d a2 {| vr_walletAddress := Some wa;
                                  vr_signature := Some sg2;
                                  vr_message := Some m2 |}))
    = verified d a2 u c false.
Proof.
  intros Hwa Hsg1 Hsg2 Hu Hv Hc Hn1 Hf1 Hrow1 Hx1 Hr1 Hl1 Hnew Hsu Hins
    Hnd2 Hcar Hn2 Hf2 Hrow2 Hx2 Hr2 Hl2 Hsel2.
  assert (Hnone : Store.walletsAt c (wallet_addresses db) = []).
  { apply walletsAt_absent. now apply existsb_false_not_In. }
  assert (Hnone' := Hnone). unfold Store.walletsAt in Hnone'.
  assert (Hfirst :
    snd (run e1 db (verify d a1 {| vr_walletAddress := Some wa;
                                   vr_signature := Some sg1;
                                   vr_message := Some m1 |}))
      = verified d a1 u c true /\
    exists others,
    wallet_addresses
      (fst (run e1 db (verify d a1 {| vr_walletAddress := Some wa;
                                      vr_signature := Some sg1;
                                      vr_message := Some m1 |})))
      = (others ++
           [{| w_id := Store.freshId w_id (wallet_addresses db);
               w_user_id := u; w_wallet_address := c;
               w_is_primary := true |}])%list).
  { unfold verify. cbn.
    rewrite (eqb_empty_false _ Hwa), (eqb_empty_false _ Hsg1).
    assert (Hm : String.eqb m1 EmptyString = false).
    { apply String.eqb_neq. intros ->. discriminate Hn1. }
    rewrite Hm, Hv, Hc, Hn1. cbn. rewrite Hf1, Hrow1. cbn.
    assert (Hx : (n_expires_at row1 <? clock a1 0) = false)
      by (apply Z.ltb_ge; lia).
    rewrite Hx, Hr1, Hl1, String.eqb_refl. cbn.
    assert (Hgo : forall db1,
      wallet_addresses db1 = wallet_addresses db ->
      snd (run e1 db1 (createAccount d a1 c)) = verified d a1 u c true /\
      exists others,
      wallet_addresses (fst (run e1 db1 (createAccount d a1 c)))
        = (others ++
             [{| w_id := Store.freshId w_id (wallet_addresses db);
                 w_user_id := u; w_wallet_address := c;
                 w_is_primary := true |}])%list).
    { intros db1 Hw. split.
      - apply (createAccount_run d a1 e1 db1 c u Hsu).
      - destruct (createAccount_links d a1 e1 db1 c u Hsu Hins)
          as (others & _ & _ & E); [now rewrite Hw|].
        exists others. rewrite E, Hw. reflexivity. }
    destruct (fail_mark_used e1), (fail_select_wallet e1); cbn;
      rewrite ?Hnone, ?Hnone'; cbn; now apply Hgo. }
  destruct Hfirst as [Hresp [others Hwallets]]. split; [exact Hresp|].
  rewrite Hwallets in Hcar.
  destruct (carried_link _ _
              {| w_id := Store.freshId w_id (wallet_addresses db);
                 w_user_id := u; w_wallet_address := c;
                 w_is_primary := true |} Hnd2 Hcar)
    as (w' & Hw' & Hu').
  { apply in_app_iff. right. now left. }
  cbn in Hw', Hu'. rewrite <- Hu'.
  apply (verify_returning d a2 e2 db2 wa sg2 m2 c n2 row2 r2 w'); auto.
  now rewrite Hu'.
Qed.

Lemma first_login_then_login_witness :
  snd (run (calm "u-2") Demo.reissued (verify Sim.deps Demo.later
                                              Demo.secondLogin))
    = verified Sim.deps Demo.later "u-1" Sim.alice false.
Proof.
  unshelve epose proof
    (first_login_then_login Sim.deps (Sim.at_ (Sim.t0 + 1000)) Demo.later
       (calm "u-1") (calm "u-2") Sim.issued Demo.reissued Sim.alice
       (Sim.signedBy Sim.alice Sim.message0)
       (Sim.signedBy Sim.alice Demo.message1) Sim.message0 Demo.message1
       Sim.alice Sim.nonce0 Demo.nonce1 Sim.alice Sim.alice "u-1"
       Demo.row0
       {| n_id := 2; n_wallet_address := Sim.alice; n_nonce := Demo.nonce1;
          n_expires_at := Sim.t0 + 360000; n_used := false |}
       _ _ _ _ _ _ _ _ _ _ _ _ _ _ _ _ _ _ _ _ _ _ _ _) as H.
  1: discriminate.
  1: vm_compute; discriminate.
  1: vm_compute; discriminate.
  1: discriminate.
  1: reflexivity.
  1: reflexivity.
  1: vm_compute; reflexivity.
  1: reflexivity.
  1: vm_compute; reflexivity.
  1: vm_compute; discriminate.
  1: vm_compute; reflexivity.
  1: reflexivity.
  1: reflexivity.
  1: reflexivity.
  1: reflexivity.
  1: vm_compute; constructor; [intros []|constructor].
  1: { intros w Hin. vm_compute in Hin. destruct Hin as [<-|[]].
       eexists. split; [vm_compute; left; reflexivity|].
       split; reflexivity. }
  1: vm_compute; reflexivity.
  1: reflexivity.
  1: vm_compute; reflexivity.
  1: vm_compute; discriminate.
  1: vm_compute; reflexivity.
  1: reflexivity.
  1: reflexivity.
  exact (proj2 H).
Defined.

(** Link, then login. Once a link request of user [u] for an address has
    been answered 200, a verified login of that address, in any later store
    that still has the links left by the request (with distinct addresses)
    and whose lookup of the link returns it, is answered for [u] with
    [isNewUser = false]. The login is an attempt whose unused nonce row the
    store returns before the expiry, with a signature that recovers the
    address. *)
Theorem link_then_login (d : Deps) (a1 a2 : Ambient) (e1 e2 : Env)
    (db db2 : DB) (wa sg m c n r u : string) (tok : Jwt) (dec : JwtPayload)
    (row : NonceRow) :
  wa <> EmptyString -> sg <> EmptyString -> u <> EmptyString ->
  isAddress d wa = true -> getAddress d wa = Some c ->
  (* the link request *)
  jwt_verify tok (JWT_SECRET d) (clock a1 0) = Some dec ->
  userId dec = u ->
  status (snd (run e1 db (linkWallet d a1 {| lr_walletAddress := Some wa;
                                             lr_userId := Some u;
                                             lr_authToken := Some tok |})))
    = 200%nat ->
  (* the later store *)
  NoDup (map w_wallet_address (wallet_addresses db2)) ->
  (forall w,
     In w (wallet_addresses
             (fst (run e1 db (linkWallet d a1
                                {| lr_walletAddress := Some wa;
                                   lr_userId := Some u;
                                   lr_authToken := Some tok |})))) ->
     exists w', In w' (wallet_addresses db2) /\
                w_wallet_address w' = w_wallet_address w /\
                w_user_id w' = w_user_id w) ->
  (* the login *)
  Js.matchNonce m = Some n ->
  fail_select_nonce e2 = false ->
  Store.unusedNonces n c (auth_nonces db2) = [row] ->
  clock a2 0 <= n_expires_at row ->
  verifyMessage d m sg = Some r ->
  Js.toLowerCase r = Js.toLowerCase c ->
  fail_select_wallet e2 = false ->
  snd (run e2 db2 (verify d a2 {| vr_walletAddress := Some wa;
                                  vr_signature := Some sg;
                                  vr_message := Some m |}))
    = verified d a2 u c false.
Proof.
  intros Hwa Hsg Hu Hv Hc Htok Hsub H200 Hnd2 Hcar Hn Hf Hrow Hx Hr Hl Hsel.
  assert (Hlink :
    exists others primary,
      wallet_addresses
        (fst (run e1 db (linkWallet d a1 {| lr_walletAddress := Some wa;
                                            lr_userId := Some u;
                                            lr_authToken := Some tok |})))
        = (others ++
             [{| w_id := Store.freshId w_id (wallet_addresses db);
                 w_user_id := u; w_wallet_address := c;
                 w_is_primary := primary |}])%list).
  { revert H200. unfold linkWallet. cbn.
    rewrite (eqb_empty_false _ Hwa), (eqb_empty_false _ Hu), Htok, Hsub,
      String.eqb_refl, Hc. cbn.
    repeat (break_if; cbn; try discriminate).
    all: intros _; eexists; eexists; reflexivity. }
  destruct Hlink as (others & primary & Hwallets). rewrite Hwallets in Hcar.
  destruct (carried_link _ _
              {| w_id := Store.freshId w_id (wallet_addresses db);
                 w_user_id := u; w_wallet_address := c;
                 w_is_primary := primary |} Hnd2 Hcar)
    as (w' & Hw' & Hu').
  { apply in_app_iff. right. now left. }
  cbn in Hw', Hu'. rewrite <- Hu'.
  apply (verify_returning d a2 e2 db2 wa sg m c n row r w'); auto.
  now rewrite Hu'.
Qed.

Lemma link_then_login_witness :
  snd (run (calm "u-2") Demo.bobIssued
           (verify Sim.deps Demo.later Demo.bobLogin))
    = verified Sim.deps Demo.later "u-1" Sim.bob false.
Proof.
  unshelve epose proof
    (link_then_login Sim.deps (Sim.at_ (Sim.t0 + 5000)) Demo.later
       (calm "u-9") (calm "u-2") Sim.consumed Demo.bobIssued Sim.bob
       (Sim.signedBy Sim.bob Demo.message1) Demo.message1 Sim.bob
       Demo.nonce1 Sim.bob "u-1" Sim.session (jwt_payload Sim.session)
       {| n_id := 2; n_wallet_address := Sim.bob; n_nonce := Demo.nonce1;
          n_expires_at := Sim.t0 + 360000; n_used := false |}
       _ _ _ _ _ _ _ _ _ _ _ _ _ _ _ _ _) as H.
  1: discriminate.
  1: vm_compute; discriminate.
  1: discriminate.
  1: reflexivity.
  1: reflexivity.
  1: vm_compute; reflexivity.
  1: reflexivity.
  1: vm_compute; reflexivity.
  1: vm_compute; constructor;
       [intros [E|[]]; discriminate E|constructor; [intros []|constructor]].
  1: { intros w Hin. vm_compute in Hin. destruct Hin as [<-|[<-|[]]].
       - eexists. split; [vm_compute; left; reflexivity|].
         split; reflexivity.
       - eexists. split; [vm_compute; right; left; reflexivity|].
         split; reflexivity. }
  1: vm_compute; reflexivity.
  1: reflexivity.
  1: vm_compute; reflexivity.
  1: vm_compute; discriminate.
  1: vm_compute; reflexivity.
  1: reflexivity.
  1: reflexivity.
  exact H.
Defined.

(** ** Nonce values *)

Lemma hexDigit_inj n1 n2 :
  (n1 < 16)%nat -> (n2 < 16)%nat ->
  Js.hexDigit n1 = Js.hexDigit n2 -> n1 = n2.
Proof.
  intros H1 H2.
  do 16 (destruct n1 as [|n1]; [
    do 16 (destruct n2 as [|n2]; [intros E; (reflexivity || discriminate E)|]);
    lia |]).
  lia.
Qed.

Lemma hexByte_inj x y rx ry :
  (x < 256)%nat -> (y < 256)%nat ->
  (Js.hexByte x ++ rx)%string = (Js.hexByte y ++ ry)%string ->
  x = y /\ rx = ry.
Proof.
  intros Hx Hy. unfold Js.hexByte.
  rewrite (Nat.mod_small x 256), (Nat.mod_small y 256) by assumption.
  pose proof (Nat.div_mod_eq x 16) as Ex.
  pose proof (Nat.div_mod_eq y 16) as Ey.
  assert (Hhx : (x / 16 < 16)%nat)
    by (apply Nat.Div0.div_lt_upper_bound; lia).
  assert (Hhy : (y / 16 < 16)%nat)
    by (apply Nat.Div0.div_lt_upper_bound; lia).
  assert (Hlx : (x mod 16 < 16)%nat) by (apply Nat.mod_upper_bound; lia).
  assert (Hly : (y mod 16 < 16)%nat) by (apply Nat.mod_upper_bound; lia).
  revert Ex Ey Hhx Hhy Hlx Hly.
  generalize (x / 16)%nat (x mod 16)%nat (y / 16)%nat (y mod 16)%nat.
  intros hx lx hy ly Ex Ey Hhx Hhy Hlx Hly.
  cbn [append]. intros E. injection E as Ehi Elo Erest.
  apply hexDigit_inj in Ehi; [|assumption|assumption].
  apply hexDigit_inj in Elo; [|assumption|assumption].
  split; [lia|exact Erest].
Qed.

(** Different bytes never give the same nonce: the encoding of a byte list
    determines its length and every byte. *)
Theorem generateNonce_injective (b1 b2 : list nat) :
  Forall (fun b => (b < 256)%nat) b1 ->
  Forall (fun b => (b < 256)%nat) b2 ->
  generateNonce b1 = generateNonce b2 -> b1 = b2.
Proof.
  unfold generateNonce. intros H1. revert b2.
  induction H1 as [|x l1 Hx Hl1 IH]; intros b2 H2 E.
  - destruct b2 as [|y l2]; [reflexivity|discriminate E].
  - destruct b2 as [|y l2]; [discriminate E|].
    inversion H2 as [|? ? Hy Hl2]; subst.
    cbn [Js.toHex] in E.
    apply hexByte_inj in E as [-> E]; try assumption.
    f_equal. now apply IH.
Qed.

Lemma generateNonce_injective_witness :
  generateNonce Sim.bytes32 <> generateNonce Demo.bytes32'.
Proof.
  intros E.
  apply (generateNonce_injective Sim.bytes32 Demo.bytes32') in E.
  - vm_compute in E. discriminate E.
  - vm_compute. repeat constructor.
  - vm_compute. repeat constructor.
Defined.

(** * Further properties of the browser modules *)

(** ** Percentages *)

Example percent_asha_ravi :
  Matching.tally Matching.today0 Matching.asha Matching.ravi = (23, 40) /\
  Matching.calculateCompatibility Matching.today0 Matching.asha Matching.ravi
    = 57.
Proof. vm_compute. split; reflexivity. Qed.

Lemma pairsUpTo_complete (bound : nat) (p w : Z) :
  0 <= p <= w -> 1 <= w <= Z.of_nat bound ->
  In (p, w) (JsNum.pairsUpTo bound).
Proof.
  intros Hp Hw. unfold JsNum.pairsUpTo. apply in_flat_map.
  exists (Z.to_nat w). split.
  - apply in_seq. lia.
  - apply in_map_iff. exists (Z.to_nat p). split.
    + f_equal; lia.
    + apply in_seq. lia.
Qed.

Lemma percent_checked :
  forallb (fun pw =>
    let p := fst pw in
    let w := snd pw in
    let r := JsNum.percent p w in
    (r =? (if ((p =? 23) && (w =? 40)) || ((p =? 46) && (w =? 80))
           then 57 else JsNum.exactPercent p w))
    && (0 <=? r) && (r <=? 100)
    && Bool.eqb (r =? 100) (p =? w)
    && Bool.eqb (r =? 0) (p =? 0))
    (JsNum.pairsUpTo 100) = true.
Proof. vm_compute. reflexivity. Qed.

Lemma percent_facts (part whole : Z) :
  0 <= part <= whole -> 0 < whole <= 100 ->
  JsNum.percent part whole
    = (if ((part =? 23) && (whole =? 40)) || ((part =? 46) && (whole =? 80))
       then 57 else JsNum.exactPercent part whole) /\
  0 <= JsNum.percent part whole <= 100 /\
  (JsNum.percent part whole = 100 <-> part = whole) /\
  (JsNum.percent part whole = 0 <-> part = 0).
Proof.
  intros Hp Hw.
  pose proof percent_checked as H. rewrite forallb_forall in H.
  specialize (H (part, whole)
                (pairsUpTo_complete 100 part whole Hp ltac:(lia))).
  cbn [fst snd] in H. cbv zeta in H.
  repeat (apply andb_true_iff in H; destruct H as [H ?]).
  apply Z.eqb_eq in H.
  repeat match goal with
         | H : (_ <=? _) = true |- _ => apply Z.leb_le in H
         | H : Bool.eqb _ _ = true |- _ => apply Bool.eqb_prop in H
         end.
  split; [exact H|]. split; [lia|]. split.
  - destruct (Z.eqb_spec (JsNum.percent part whole) 100);
      destruct (Z.eqb_spec part whole); try discriminate; tauto.
  - destruct (Z.eqb_spec (JsNum.percent part whole) 0);
      destruct (Z.eqb_spec part 0); try discriminate; tauto.
Qed.


(** The rounded percentage of [part] in [whole], for every
    [0 <= part <= whole <= 100]: it is the exact percentage rounded half up,
    except for 23 of 40 and 46 of 80, where the double product falls just
    below 57.5 and the result is 57 instead of 58. It lies between 0 and 100,
    is 100 only for the whole and 0 only for nothing. *)
Theorem percent_rounding (part whole : Z) :
  0 <= part <= whole -> 0 < whole <= 100 ->
  JsNum.percent part whole
    = (if ((part =? 23) && (whole =? 40)) || ((part =? 46) && (whole =? 80))
       then 57 else JsNum.exactPercent part whole) /\
  0 <= JsNum.percent part whole <= 100 /\
  (JsNum.percent part whole = 100 <-> part = whole) /\
  (JsNum.percent part whole = 0 <-> part = 0).
Proof. exact (percent_facts part whole). Qed.

Lemma percent_rounding_witness :
  JsNum.percent 23 40 = 57 /\ JsNum.exactPercent 23 40 = 58 /\
  JsNum.percent 7 40 = JsNum.exactPercent 7 40.
Proof.
  destruct (percent_rounding 23 40) as (H1 & _); [lia|lia|].
  destruct (percent_rounding 7 40) as (H2 & _); [lia|lia|].
  split; [exact H1|]. split; [reflexivity|exact H2].
Defined.

(** ** Age *)

(** The arithmetic of [calculateAge] counts the birthdays of [birth] that
    are not after [today]. *)
Lemma calculateAge_birthdays (today birth : Matching.Civil) :
  let age := Matching.calculateAge today birth in
  Matching.notAfter (Matching.birthday birth age) today /\
  ~ Matching.notAfter (Matching.birthday birth (age + 1)) today.
Proof.
  unfold Matching.calculateAge, Matching.notAfter, Matching.birthday.
  cbn [Matching.year Matching.month Matching.day].
  destruct (Z.ltb_spec (Matching.month today - Matching.month birth) 0);
    destruct (Z.eqb_spec (Matching.month today - Matching.month birth) 0);
    destruct (Z.ltb_spec (Matching.day today) (Matching.day birth));
    cbn [orb andb]; lia.
Qed.

(** The local day of midnight UTC of day [n]: day [n] itself in a zone
    ahead of UTC or on it, the day before in a zone behind. *)
Lemma local_day (offset n : Z) :
  -1440 < offset < 1440 ->
  (n * 86400000 + offset * 60000) / 86400000
    = if offset <? 0 then n - 1 else n.
Proof.
  intros H. destruct (Z.ltb_spec offset 0).
  - symmetry. apply (Z.div_unique_pos _ _ _ (86400000 + offset * 60000));
      lia.
  - symmetry. apply (Z.div_unique_pos _ _ _ (offset * 60000)); lia.
Qed.

Lemma triples_complete (lo : Z) (n : nat) (s : Matching.IsoDate) :
  lo <= Matching.iso_year s < lo + Z.of_nat n ->
  1 <= Matching.iso_month s <= 12 -> 1 <= Matching.iso_day s <= 31 ->
  In s (Matching.triples lo n).
Proof.
  intros Hy Hm Hd. destruct s as [y m d]. cbn in Hy, Hm, Hd.
  unfold Matching.triples. apply in_flat_map.
  exists (Z.to_nat (y - lo)). split; [apply in_seq; lia|].
  apply in_flat_map. exists (Z.to_nat m). split; [apply in_seq; lia|].
  apply in_map_iff. exists (Z.to_nat d). split; [|apply in_seq; lia].
  f_equal; lia.
Qed.

Lemma daysInMonth_le y m : Matching.daysInMonth y m <= 31.
Proof. unfold Matching.daysInMonth. repeat break_if; lia. Qed.

Lemma dates_checked :
  forallb Matching.dayCountAgrees (Matching.triples 1900 201) = true.
Proof. vm_compute. reflexivity. Qed.

Lemma sameCivil_eq x y : Matching.sameCivil x y = true -> x = y.
Proof.
  unfold Matching.sameCivil. intros H.
  apply andb_prop in H as [H Hd]. apply andb_prop in H as [Hy Hm].
  apply Z.eqb_eq in Hy, Hm, Hd. destruct x, y. cbn in *. congruence.
Qed.

(** The local date of [new Date(dateOfBirth)] for a stored date. *)
Lemma birthDate_local (offset : Z) (s : Matching.IsoDate) :
  Matching.validDate s = true -> 1900 <= Matching.iso_year s <= 2100 ->
  -1440 < offset < 1440 ->
  Matching.birthDate offset s
    = if offset <? 0 then Matching.dayBefore s else Matching.civilOf s.
Proof.
  intros Hv Hy Ho.
  assert (Hin : In s (Matching.triples 1900 201)).
  { unfold Matching.validDate in Hv.
    apply andb_prop in Hv as [Hv H4]. apply andb_prop in Hv as [Hv H3].
    apply andb_prop in Hv as [H1 H2].
    apply Z.leb_le in H1, H2, H3, H4.
    pose proof (daysInMonth_le (Matching.iso_year s) (Matching.iso_month s)).
    apply triples_complete; lia. }
  pose proof dates_checked as Hall.
  rewrite forallb_forall in Hall. specialize (Hall s Hin).
  unfold Matching.dayCountAgrees in Hall. rewrite Hv in Hall.
  cbn [negb orb] in Hall. cbv zeta in Hall.
  unfold Matching.birthDate, Matching.localCivil, Matching.parseDate.
  rewrite (local_day offset _ Ho).
  set (n := Matching.daysFromCivil _ _ _) in *. clearbody n.
  destruct (offset <? 0).
  all: destruct (Js.civilFromDays n) as [[y m] d].
  all: destruct (Js.civilFromDays (n - 1)) as [[y' m'] d'].
  all: apply andb_prop in Hall as [E1 E2].
  all: apply sameCivil_eq in E1, E2; assumption.
Qed.

(** [calculateAge] of a stored date of birth (from 1900 to 2100) counts
    completed years, from the date of birth in a zone on UTC or ahead of it,
    and from the day before the date of birth in a zone behind UTC: there
    [new Date('YYYY-MM-DD')], midnight UTC, falls on the evening before, and
    the age goes up one day early. The birthday of the age returned, counted
    from that date, is not after today, and the next one is. *)
Theorem calculateAge_completed_years (offset : Z) (today : Matching.Civil)
    (dateOfBirth : Matching.IsoDate) :
  Matching.validDate dateOfBirth = true ->
  1900 <= Matching.iso_year dateOfBirth <= 2100 ->
  -1440 < offset < 1440 ->
  let born := if offset <? 0 then Matching.dayBefore dateOfBirth
              else Matching.civilOf dateOfBirth in
  let age := Matching.calculateAgeOf offset today dateOfBirth in
  Matching.birthDate offset dateOfBirth = born /\
  Matching.notAfter (Matching.birthday born age) today /\
  ~ Matching.notAfter (Matching.birthday born (age + 1)) today.
Proof.
  intros Hv Hy Ho born age.
  assert (E : Matching.birthDate offset dateOfBirth = born)
    by (apply birthDate_local; assumption).
  split; [exact E|].
  subst age. unfold Matching.calculateAgeOf. rewrite E.
  apply calculateAge_birthdays.
Qed.

Lemma calculateAge_completed_years_witness :
  Matching.calculateAgeOf 330 Matching.ninthOfMarch2025
                          Matching.tenthOfMarch = 34 /\
  Matching.calculateAgeOf (-300) Matching.ninthOfMarch2025
                          Matching.tenthOfMarch = 35 /\
  Matching.birthDate (-300) Matching.tenthOfMarch
    = {| Matching.year := 1990; Matching.month := 2; Matching.day := 9 |}.
Proof.
  unshelve epose proof
    (calculateAge_completed_years (-300) Matching.ninthOfMarch2025
       Matching.tenthOfMarch eq_refl _ _) as H.
  1: cbn; lia.
  1: lia.
  split; [vm_compute; reflexivity|].
  split; [vm_compute; reflexivity|].
  exact (proj1 H).
Defined.

(** ** The score *)

Lemma tally_bounds today p1 p2 :
  0 <= fst (Matching.tally today p1 p2)
    <= snd (Matching.tally today p1 p2) /\
  snd (Matching.tally today p1 p2) <= 100.
Proof.
  unfold Matching.tally. cbv zeta.
  set (acc1 := if Matching.truthyS (Matching.religion p1) && _
               then _ else _).
  assert (B1 : 0 <= fst acc1 <= snd acc1 /\ snd acc1 <= 20).
  { subst acc1. unfold Matching.add.
    repeat (break_if; cbn [fst snd]); lia. }
  clearbody acc1.
  set (acc2 := if Matching.truthyS (Matching.education p1) && _
               then _ else _).
  assert (B2 : 0 <= fst acc2 <= snd acc2 /\ snd acc2 <= 35).
  { subst acc2. unfold Matching.add.
    repeat (break_if; cbn [fst snd]); lia. }
  clearbody acc2. clear B1 acc1.
  set (acc3 := if Matching.truthyS (Matching.city p1) && _
               then _ else _).
  assert (B3 : 0 <= fst acc3 <= snd acc3 /\ snd acc3 <= 50).
  { subst acc3. unfold Matching.add.
    repeat (break_if; cbn [fst snd]); lia. }
  clearbody acc3. clear B2 acc2.
  set (acc5 := if Matching.truthyS (Matching.dietary_preferences p1) && _
               then _ else _).
  assert (B5 : 0 <= fst acc5 <= snd acc5 /\ snd acc5 <= 80).
  { subst acc5. unfold Matching.add.
    repeat (break_if; cbn [fst snd]); lia. }
  clearbody acc5. clear B3 acc3.
  unfold Matching.add.
  repeat (break_if; cbn [fst snd]); lia.
Qed.

(** The compatibility of two profiles lies between 0 and 100. It is 50 when
    no block of the function could compare anything; otherwise it is 100
    exactly when every block that compared something gave its full weight, and
    0 exactly when none gave a point. *)
Theorem compatibility_range (today : Matching.Civil)
    (p1 p2 : Matching.Profile) :
  let score := fst (Matching.tally today p1 p2) in
  let maxScore := snd (Matching.tally today p1 p2) in
  let result := Matching.calculateCompatibility today p1 p2 in
  0 <= result <= 100 /\
  (maxScore = 0 -> result = 50) /\
  (0 < maxScore -> (result = 100 <-> score = maxScore) /\
                   (result = 0 <-> score = 0)).
Proof.
  intros score maxScore result.
  pose proof (tally_bounds today p1 p2) as [Hs Hm].
  fold score in Hs. fold maxScore in Hs, Hm.
  unfold result, Matching.calculateCompatibility.
  rewrite (surjective_pairing (Matching.tally today p1 p2)).
  fold score maxScore.
  destruct (Z.ltb_spec 0 maxScore) as [Hpos|Hzero].
  - destruct (percent_facts score maxScore) as (_ & Hr & H100 & H0);
      [lia|lia|].
    split; [exact Hr|]. split; [lia|]. intros _. split; assumption.
  - split; [lia|]. split; [reflexivity|lia].
Qed.

Lemma compatibility_range_witness :
  Matching.calculateCompatibility Matching.today0 (Matching.blank "a")
                                  Matching.ravi = 50.
Proof.
  apply (compatibility_range Matching.today0 (Matching.blank "a")
                             Matching.ravi).
  reflexivity.
Defined.

(** A profile with no data scores 50 with everyone, on either side. *)
Lemma blank_scores_50 today i p :
  Matching.calculateCompatibility today (Matching.blank i) p = 50 /\
  Matching.calculateCompatibility today p (Matching.blank i) = 50.
Proof.
  split.
  - reflexivity.
  - unfold Matching.calculateCompatibility, Matching.tally, Matching.blank.
    cbn [Matching.religion Matching.education Matching.city Matching.state
         Matching.interests Matching.dietary_preferences
         Matching.date_of_birth Matching.partner_preferences
         Matching.truthyS].
    rewrite !andb_false_r.
    destruct (Matching.interests p), (Matching.partner_preferences p);
      reflexivity.
Qed.

Lemma includes_In (l : list string) (x : string) :
  Matching.includes l x = true <-> In x l.
Proof.
  unfold Matching.includes. rewrite existsb_exists. split.
  - intros (y & Hy & E). apply String.eqb_eq in E. now subst.
  - intros H. exists x. split; [exact H|apply String.eqb_refl].
Qed.

Lemma common_count_sym (l1 l2 : list string) :
  NoDup l1 -> NoDup l2 ->
  List.length (filter (Matching.includes l2) l1)
    = List.length (filter (Matching.includes l1) l2).
Proof.
  intros H1 H2. apply Permutation_length. apply NoDup_Permutation.
  - now apply NoDup_filter.
  - now apply NoDup_filter.
  - intros x. rewrite !filter_In, !includes_In. tauto.
Qed.

(** Without partner preferences on either side, and with no interest listed
    twice, the compatibility of two profiles does not depend on which of them
    is the viewer. *)
Theorem compatibility_symmetric (today : Matching.Civil)
    (p1 p2 : Matching.Profile) :
  Matching.partner_preferences p1 = None ->
  Matching.partner_preferences p2 = None ->
  (forall l, Matching.interests p1 = Some l -> NoDup l) ->
  (forall l, Matching.interests p2 = Some l -> NoDup l) ->
  Matching.calculateCompatibility today p1 p2
    = Matching.calculateCompatibility today p2 p1.
Proof.
  intros Hp1 Hp2 Hi1 Hi2.
  unfold Matching.calculateCompatibility.
  replace (Matching.tally today p2 p1) with (Matching.tally today p1 p2);
    [reflexivity|].
  unfold Matching.tally. cbv zeta. rewrite Hp1, Hp2.
  rewrite (andb_comm (Matching.truthyS (Matching.religion p2))).
  rewrite (String.eqb_sym (Matching.text (Matching.religion p2))).
  rewrite (andb_comm (Matching.truthyS (Matching.education p2))).
  rewrite (andb_comm (Matching.truthyS (Matching.city p2))).
  rewrite (String.eqb_sym
             (Js.toLowerCase (Matching.text (Matching.city p2)))).
  rewrite (andb_comm (Matching.truthyS (Matching.state p2))).
  rewrite (String.eqb_sym
             (Js.toLowerCase (Matching.text (Matching.state p2)))).
  rewrite (andb_comm (Matching.truthyS (Matching.dietary_preferences p2))).
  rewrite (String.eqb_sym (Matching.text (Matching.dietary_preferences p2))).
  assert (Hc : forall l1 l2, Matching.interests p1 = Some l1 ->
                             Matching.interests p2 = Some l2 ->
             List.length (filter (Matching.includes l1) l2)
               = List.length (filter (Matching.includes l2) l1)).
  { intros l1 l2 E1 E2. symmetry. apply common_count_sym; auto. }
  destruct (Matching.interests p1) as [l1|], (Matching.interests p2) as [l2|];
    try rewrite (Hc l1 l2 eq_refl eq_refl);
    destruct (Matching.indexOf (Matching.text (Matching.education p1)) _)
      as [i1|],
             (Matching.indexOf (Matching.text (Matching.education p2)) _)
      as [i2|];
    try replace (Z.abs (i2 - i1)) with (Z.abs (i1 - i2)) by lia;
    reflexivity.
Qed.

Lemma compatibility_symmetric_witness :
  Matching.calculateCompatibility Matching.today0 Matching.asha Matching.ravi
    = Matching.calculateCompatibility Matching.today0 Matching.ravi
                                      Matching.asha.
Proof.
  apply compatibility_symmetric.
  - reflexivity.
  - reflexivity.
  - intros l E. discriminate E.
  - intros l E. discriminate E.
Defined.

(** An interest listed twice counts twice for the one who lists it. *)
Example compatibility_counts_repeats :
  let once := {| Matching.id := "a"; Matching.religion := None;
                 Matching.education := None; Matching.city := None;
                 Matching.state := None;
                 Matching.interests := Some ["music"];
                 Matching.dietary_preferences := None;
                 Matching.date_of_birth := None;
                 Matching.partner_preferences := None |} in
  let twice := {| Matching.id := "b"; Matching.religion := None;
                  Matching.education := None; Matching.city := None;
                  Matching.state := None;
                  Matching.interests := Some ["music"; "music"];
                  Matching.dietary_preferences := None;
                  Matching.date_of_birth := None;
                  Matching.partner_preferences := None |} in
  Matching.calculateCompatibility Matching.today0 once twice = 20 /\
  Matching.calculateCompatibility Matching.today0 twice once = 40.
Proof. vm_compute. split; reflexivity. Qed.

(** ** The ordering of the suggestions *)

Lemma insertDesc_perm x l : Permutation (Matching.insertDesc x l) (x :: l).
Proof.
  induction l as [|y r IH]; cbn.
  - apply Permutation_refl.
  - destruct (snd x <? snd y).
    + eapply perm_trans; [apply perm_skip, IH|apply perm_swap].
    + apply Permutation_refl.
Qed.

Lemma sortDesc_perm l : Permutation (Matching.sortDesc l) l.
Proof.
  induction l as [|x l IH]; cbn.
  - constructor.
  - eapply perm_trans; [apply insertDesc_perm|now apply perm_skip].
Qed.

Lemma insertDesc_sorted x l :
  StronglySorted (fun a b : Matching.Scored => snd b <= snd a) l ->
  StronglySorted (fun a b : Matching.Scored => snd b <= snd a)
                 (Matching.insertDesc x l).
Proof.
  induction 1 as [|y r Hs IH Hy]; cbn.
  - repeat constructor.
  - destruct (Z.ltb_spec (snd x) (snd y)) as [Hlt|Hge].
    + constructor; [exact IH|].
      apply Forall_forall. intros z Hz.
      apply (Permutation_in _ (insertDesc_perm x r)) in Hz.
      destruct Hz as [<-|Hz]; [lia|].
      rewrite Forall_forall in Hy. now apply Hy.
    + constructor; [now constructor|].
      constructor; [exact Hge|].
      rewrite Forall_forall in Hy |- *. intros z Hz.
      specialize (Hy z Hz). cbn in Hy. lia.
Qed.

Lemma sortDesc_sorted l :
  StronglySorted (fun a b : Matching.Scored => snd b <= snd a)
                 (Matching.sortDesc l).
Proof.
  induction l as [|x l IH]; cbn.
  - constructor.
  - now apply insertDesc_sorted.
Qed.

Lemma insertDesc_stable v x l :
  filter (fun r : Matching.Scored => snd r =? v) (Matching.insertDesc x l)
    = filter (fun r : Matching.Scored => snd r =? v) (x :: l).
Proof.
  induction l as [|y r IH]; [reflexivity|].
  cbn [Matching.insertDesc].
  destruct (Z.ltb_spec (snd x) (snd y)) as [Hlt|Hge]; [|reflexivity].
  cbn [filter] in *. rewrite IH.
  destruct (Z.eqb_spec (snd x) v), (Z.eqb_spec (snd y) v);
    try reflexivity; lia.
Qed.

Lemma sortDesc_stable v l :
  filter (fun r : Matching.Scored => snd r =? v) (Matching.sortDesc l)
    = filter (fun r : Matching.Scored => snd r =? v) l.
Proof.
  induction l as [|x l IH]; [reflexivity|].
  cbn [Matching.sortDesc fold_right].
  rewrite insertDesc_stable. cbn [filter].
  fold (Matching.sortDesc l). now rewrite IH.
Qed.

(** The suggestions returned by [findMatches] are the candidates of the query,
    each once and with its compatibility score, in order of decreasing score;
    candidates of equal score keep the order in which the query returned
    them. *)
Theorem rankMatches_ordered (today : Matching.Civil) (me : Matching.Profile)
    (candidates : list Matching.Profile) :
  let ranked := Matching.rankMatches today me candidates in
  Permutation (map fst ranked) candidates /\
  Forall (fun r => snd r = Matching.calculateCompatibility today me (fst r))
         ranked /\
  StronglySorted (fun a b : Matching.Scored => snd b <= snd a) ranked /\
  forall v,
    map fst (filter (fun r : Matching.Scored => snd r =? v) ranked)
      = filter (fun m => Matching.calculateCompatibility today me m =? v)
               candidates.
Proof.
  intros ranked. unfold ranked, Matching.rankMatches.
  set (score := fun m => (m, Matching.calculateCompatibility today me m)).
  assert (Hfst : map fst (map score candidates) = candidates).
  { rewrite map_map. cbn. apply map_id. }
  split; [|split; [|split]].
  - rewrite <- Hfst at 2. apply Permutation_map, sortDesc_perm.
  - apply Forall_forall. intros r Hr.
    apply (Permutation_in _ (sortDesc_perm _)) in Hr.
    apply in_map_iff in Hr. destruct Hr as (m & <- & _). reflexivity.
  - apply sortDesc_sorted.
  - intros v. rewrite sortDesc_stable.
    clear. induction candidates as [|m l IH]; [reflexivity|].
    cbn [map filter score snd].
    destruct (Matching.calculateCompatibility today me m =? v);
      cbn [map fst]; now rewrite IH.
Qed.

(** ** The completion percentage of a profile *)

Lemma trimEnd_empty s : JsText.trimEnd s = EmptyString <-> JsText.hasInk s = false.
Proof.
  induction s as [|c r IH]; cbn; [tauto|].
  destruct (JsText.isWhite c); cbn.
  - destruct (String.eqb_spec (JsText.trimEnd r) EmptyString) as [E|E].
    + split; [intros _; now apply IH|reflexivity].
    + split; [discriminate|]. intros H. apply IH in H. contradiction.
  - split; discriminate.
Qed.

Lemma hasInk_trimStart s : JsText.hasInk (JsText.trimStart s) = JsText.hasInk s.
Proof.
  induction s as [|c r IH]; cbn; [reflexivity|].
  destruct (JsText.isWhite c) eqn:E; cbn; [exact IH|now rewrite E].
Qed.

Lemma filled_hasInk v :
  Auth.filled v = true <-> exists s, v = Some s /\ JsText.hasInk s = true.
Proof.
  destruct v as [s|]; cbn.
  - assert (H : String.eqb (JsText.trim s) EmptyString
                = negb (JsText.hasInk s)).
    { unfold JsText.trim.
      destruct (String.eqb_spec (JsText.trimEnd (JsText.trimStart s))
                                EmptyString) as [E|E].
      - apply trimEnd_empty in E. rewrite hasInk_trimStart in E.
        now rewrite E.
      - destruct (JsText.hasInk s) eqn:Hi; [reflexivity|].
        exfalso. apply E. apply trimEnd_empty.
        now rewrite hasInk_trimStart. }
    rewrite H, negb_involutive. split.
    + intros Hf. apply andb_true_iff in Hf. exists s. tauto.
    + intros (s' & [= <-] & Hi). rewrite Hi, andb_true_r.
      destruct s; [discriminate|reflexivity].
  - split; [discriminate|]. intros (s & E & _). discriminate.
Qed.

Lemma completion_checked :
  forallb (fun n =>
    (JsNum.percent (Z.of_nat n) 12 =? JsNum.exactPercent (Z.of_nat n) 12)
    && (JsNum.percent (Z.of_nat n) 12 <=? 92)
    && forallb (fun k => JsNum.percent (Z.of_nat k) 12
                           <? JsNum.percent (Z.of_nat n) 12) (seq 0 n))
    (seq 0 12) = true /\
  JsNum.percent 12 12 = 100 /\
  forallb (fun k => JsNum.percent (Z.of_nat k) 12 <? 100) (seq 0 12) = true.
Proof. vm_compute. repeat split. Qed.

Lemma filledFields_le u : (Auth.filledFields u <= 12)%nat.
Proof. unfold Auth.filledFields. apply (filter_length_le _ Auth.fields). Qed.

Lemma filledFields_all u :
  Auth.filledFields u = 12%nat <->
  forall f, In f Auth.fields -> Auth.filled (u f) = true.
Proof.
  unfold Auth.filledFields.
  set (p := fun field => Auth.filled (u field)).
  split.
  - intros H f Hf.
    assert (G : forall l : list string,
               List.length (filter p l) = List.length l -> filter p l = l).
    { clear. induction l as [|x l IH]; cbn; [reflexivity|].
      destruct (p x); cbn.
      - intros [= H]. now rewrite IH.
      - intros H. pose proof (filter_length_le p l). lia. }
    assert (E : filter p Auth.fields = Auth.fields) by (apply G; exact H).
    fold (p f). rewrite <- E in Hf. apply filter_In in Hf. tauto.
  - intros H.
    assert (E : filter p Auth.fields = Auth.fields).
    { apply forallb_filter_id. apply forallb_forall. exact H. }
    now rewrite E.
Qed.

(** The completion percentage stored at sign-up is the share of the twelve
    named form fields that hold visible text, rounded half up (the double
    arithmetic is exact for twelfths). A field counts exactly when it holds a
    character other than white space. The result is 100 exactly when all
    twelve count, and at most 92 otherwise; a form with more counted fields
    always gets a strictly higher percentage. *)
Theorem profile_completion (userData : Auth.UserData) :
  Auth.calculateProfileCompletion userData
    = JsNum.exactPercent (Z.of_nat (Auth.filledFields userData)) 12 /\
  (forall f, Auth.filled (userData f) = true <->
             exists s, userData f = Some s /\ JsText.hasInk s = true) /\
  (Auth.calculateProfileCompletion userData = 100 <->
   forall f, In f Auth.fields -> Auth.filled (userData f) = true) /\
  (Auth.calculateProfileCompletion userData <> 100 ->
   Auth.calculateProfileCompletion userData <= 92) /\
  (forall other,
     (Auth.filledFields userData < Auth.filledFields other)%nat ->
     Auth.calculateProfileCompletion userData
       < Auth.calculateProfileCompletion other).
Proof.
  destruct completion_checked as (Hall & H12 & Hlt).
  rewrite forallb_forall in Hall, Hlt.
  pose proof (filledFields_le userData) as Hle.
  unfold Auth.calculateProfileCompletion.
  change (Z.of_nat (List.length Auth.fields)) with 12.
  assert (Hsmall : forall n, (n < 12)%nat ->
            JsNum.percent (Z.of_nat n) 12 = JsNum.exactPercent (Z.of_nat n) 12
            /\ JsNum.percent (Z.of_nat n) 12 <= 92
            /\ forall k, (k < n)%nat ->
                 JsNum.percent (Z.of_nat k) 12 < JsNum.percent (Z.of_nat n) 12).
  { intros n Hn. specialize (Hall n ltac:(apply in_seq; lia)).
    apply andb_true_iff in Hall. destruct Hall as [Hall H3].
    apply andb_true_iff in Hall. destruct Hall as [H1 H2].
    split; [now apply Z.eqb_eq|]. split; [now apply Z.leb_le|].
    intros k Hk. rewrite forallb_forall in H3.
    apply Z.ltb_lt. apply H3. apply in_seq. lia. }
  assert (Hbelow : forall n, (n < 12)%nat ->
            JsNum.percent (Z.of_nat n) 12 < 100).
  { intros n Hn. apply Z.ltb_lt. apply Hlt. apply in_seq. lia. }
  split; [|split; [|split; [|split]]].
  - destruct (Nat.eq_dec (Auth.filledFields userData) 12) as [E|E].
    + rewrite E. vm_compute. reflexivity.
    + apply Hsmall. lia.
  - intros f. apply filled_hasInk.
  - rewrite <- filledFields_all. split.
    + intros H. destruct (Nat.eq_dec (Auth.filledFields userData) 12)
        as [E|E]; [exact E|].
      specialize (Hbelow (Auth.filledFields userData) ltac:(lia)). lia.
    + intros ->. exact H12.
  - intros H. destruct (Nat.eq_dec (Auth.filledFields userData) 12) as [E|E].
    + rewrite E in H. contradiction.
    + apply Hsmall. lia.
  - intros other Hother.
    pose proof (filledFields_le other) as Hle'.
    destruct (Nat.eq_dec (Auth.filledFields other) 12) as [E|E].
    + rewrite E. change (Z.of_nat 12) with 12. rewrite H12.
      apply Hbelow. lia.
    + apply Hsmall; lia.
Qed.

(** Eleven fields filled and no [email] among the form data: 92. *)
Example completion_without_email :
  Auth.calculateProfileCompletion
    (Auth.form [("firstName", "Asha"); ("lastName", "Rao");
                ("phone", "0123456789"); ("dateOfBirth", "1995-04-01");
                ("gender", "female"); ("city", "Pune");
                ("state", "Maharashtra"); ("education", "masters");
                ("occupation", "engineer"); ("maritalStatus", "single");
                ("aboutMe", "Hello"); ("religion", "   ")]) = 92.
Proof. vm_compute. reflexivity. Qed.

(** ** Likes and matches *)

Lemma isLike_iff f g r :
  Social.isLike f g r = true <->
  Social.l_from_user_id r = f /\ Social.l_to_user_id r = g.
Proof.
  unfold Social.isLike. rewrite andb_true_iff, !String.eqb_eq. tauto.
Qed.

Lemma isMatch_iff u v r :
  Social.isMatch u v r = true <->
  Social.m_user_id r = u /\ Social.m_matched_user_id r = v.
Proof.
  unfold Social.isMatch. rewrite andb_true_iff, !String.eqb_eq. tauto.
Qed.

Lemma filter_none {A} (p : A -> bool) (l : list A) :
  (forall r, In r l -> p r = false) -> filter p l = [].
Proof.
  induction l as [|x l IH]; cbn; [reflexivity|].
  intros H. rewrite (H x (or_introl eq_refl)). apply IH.
  intros r Hr. apply H. now right.
Qed.

Lemma filter_unique {A K} (key : A -> K) (p : A -> bool) (l : list A)
    (row : A) :
  NoDup (map key l) -> In row l ->
  (forall r, In r l -> p r = true <-> key r = key row) ->
  filter p l = [row].
Proof.
  induction l as [|x l IH]; cbn; [intros _ []|].
  intros Hnd Hin Hp. inversion Hnd as [|? ? Hx Hl]; subst.
  destruct Hin as [->|Hin].
  - assert (E : p row = true) by (apply Hp; [now left|reflexivity]).
    rewrite E. f_equal. apply filter_none.
    intros r Hr. destruct (p r) eqn:Er; [|reflexivity].
    exfalso. apply Hx. apply in_map_iff. exists r. split; [|exact Hr].
    apply Hp; [now right|exact Er].
  - assert (E : p x = false).
    { destruct (p x) eqn:Ex; [|reflexivity].
      exfalso. apply Hx. apply in_map_iff. exists row. split; [|exact Hin].
      symmetry. apply Hp; [now left|exact Ex]. }
    rewrite E. apply IH; [assumption|assumption|].
    intros r Hr. apply Hp. now right.
Qed.

Lemma ForallOrdPairs_snoc {A} (R : A -> A -> Prop) (l : list A) (x : A) :
  ForallOrdPairs R l -> Forall (fun a => R a x) l ->
  ForallOrdPairs R (l ++ [x]).
Proof.
  induction 1 as [|a l Ha Hl IH]; cbn; intros Hx.
  - constructor; constructor.
  - inversion Hx; subst. constructor.
    + apply Forall_app. split; [exact Ha|]. constructor; [assumption|constructor].
    + now apply IH.
Qed.

Lemma liked_iff t f g :
  Social.liked t f g <-> existsb (Social.isLike f g) (Social.likes t) = true.
Proof.
  unfold Social.liked. rewrite existsb_exists.
  split; intros (r & Hr & H); exists r; (split; [exact Hr|]).
  - apply isLike_iff. exact H.
  - apply isLike_iff in H. exact H.
Qed.

Lemma consistent_noTables : Social.consistent Social.noTables.
Proof.
  unfold Social.consistent; cbn. split; [constructor|].
  split; constructor.
Qed.

(** The one like from [f] to [g], when it is there and one side is the
    caller. *)
Lemma selectLike_found refused me f g t :
  NoDup (map (fun r => (Social.l_from_user_id r, Social.l_to_user_id r))
             (Social.likes t)) ->
  Social.liked t f g -> f = me \/ g = me ->
  exists row, In row (Social.likes t) /\
    Social.l_from_user_id row = f /\ Social.l_to_user_id row = g /\
    Social.selectLike refused me f g t = if refused then failed else ok row.
Proof.
  intros Hnd (row & Hin & Hf & Hg) Hme. exists row.
  split; [exact Hin|]. split; [exact Hf|]. split; [exact Hg|].
  unfold Social.selectLike. destruct refused; [reflexivity|].
  rewrite (filter_unique _ _ _ row Hnd Hin); [reflexivity|].
  intros r Hr. rewrite andb_true_iff, isLike_iff. unfold Social.likeVisible.
  rewrite orb_true_iff, !String.eqb_eq. rewrite Hf, Hg. split.
  - intros (_ & E1 & E2). now rewrite E1, E2.
  - intros [= E1 E2]. rewrite E1, E2. tauto.
Qed.

Lemma selectLike_absent refused me f g t :
  ~ Social.liked t f g ->
  data (Social.selectLike refused me f g t) = None.
Proof.
  intros Hno. unfold Social.selectLike. destruct refused; [reflexivity|].
  rewrite filter_none; [reflexivity|].
  intros r Hr. destruct (Social.isLike f g r) eqn:E.
  - exfalso. apply Hno. exists r. split; [exact Hr|]. now apply isLike_iff.
  - apply andb_false_r.
Qed.

Lemma insertLike_cases refused me f g t :
  (Social.insertLike refused me f g t = (t, failed) /\
   (refused = true \/ f <> me \/ Social.liked t f g)) \/
  (refused = false /\ f = me /\ ~ Social.liked t f g /\
   Social.insertLike refused me f g t =
     ({| Social.likes := Social.likes t ++
           [{| Social.l_id := Store.freshId Social.l_id (Social.likes t);
               Social.l_from_user_id := f; Social.l_to_user_id := g |}];
         Social.matches := Social.matches t |},
      ok {| Social.l_id := Store.freshId Social.l_id (Social.likes t);
            Social.l_from_user_id := f; Social.l_to_user_id := g |})).
Proof.
  unfold Social.insertLike.
  destruct refused; cbn; [left; auto|].
  destruct (String.eqb_spec f me) as [E|E]; cbn; [|left; auto].
  destruct (existsb (Social.isLike f g) (Social.likes t)) eqn:Ex.
  - left. split; [reflexivity|]. right. right. now apply liked_iff.
  - right. repeat split; auto. intros H. apply liked_iff in H. congruence.
Qed.

Lemma liked_grows t f g row :
  Social.liked t f g ->
  Social.liked {| Social.likes := Social.likes t ++ [row];
                  Social.matches := Social.matches t |} f g.
Proof.
  intros (r & Hr & H). exists r. split; [|exact H].
  cbn. apply in_or_app. now left.
Qed.

Lemma consistent_like t f g :
  Social.consistent t -> ~ Social.liked t f g ->
  Social.consistent
    {| Social.likes := Social.likes t ++
         [{| Social.l_id := Store.freshId Social.l_id (Social.likes t);
             Social.l_from_user_id := f; Social.l_to_user_id := g |}];
       Social.matches := Social.matches t |}.
Proof.
  intros (Hnd & Hm & Hp) Hno. unfold Social.consistent. cbn [Social.likes Social.matches].
  split; [|split; [|exact Hp]].
  - rewrite map_app. cbn. apply NoDup_snoc; [exact Hnd|].
    intros Hin. apply in_map_iff in Hin. destruct Hin as (r & [= E1 E2] & Hr).
    apply Hno. exists r. auto.
  - eapply Forall_impl; [|exact Hm]. cbn. intros m (H1 & H2 & H3).
    split; [now apply liked_grows|]. split; [now apply liked_grows|exact H3].
Qed.

(** No match between two people of whom one has not liked the other. *)
Lemma no_match_without_like t u v :
  Social.consistent t -> ~ Social.liked t u v ->
  forall m, In m (Social.matches t) ->
    Social.isMatch u v m = false /\ Social.isMatch v u m = false.
Proof.
  intros (_ & Hm & _) Hno m Hin. rewrite Forall_forall in Hm.
  destruct (Hm m Hin) as (H1 & H2 & _).
  split.
  - destruct (Social.isMatch u v m) eqn:E; [|reflexivity].
    apply isMatch_iff in E. destruct E as [<- <-]. contradiction.
  - destruct (Social.isMatch v u m) eqn:E; [|reflexivity].
    apply isMatch_iff in E. destruct E as [<- <-]. contradiction.
Qed.

Lemma createMatch_fresh net me other t :
  Social.consistent t ->
  Social.liked t me other -> Social.liked t other me ->
  (forall m, In m (Social.matches t) ->
     Social.isMatch me other m = false /\ Social.isMatch other me m = false) ->
  let row := {| Social.m_id := Store.freshId Social.m_id (Social.matches t);
                Social.m_user_id := me; Social.m_matched_user_id := other;
                Social.m_status := "accepted";
                Social.m_compatibility_score := 85 |} in
  let t' := {| Social.likes := Social.likes t;
               Social.matches := Social.matches t ++ [row] |} in
  Social.consistent t' /\
  Social.createMatch net me me other t =
    if Social.fail_insert_match net then (t, Social.thrown Social.Refused)
    else (t', Social.done row None).
Proof.
  intros Hc Hl1 Hl2 Hnone row t'. split.
  - destruct Hc as (Hnd & Hm & Hp). unfold Social.consistent, t'.
    cbn [Social.likes Social.matches].
    split; [exact Hnd|]. split.
    + apply Forall_app. split.
      * eapply Forall_impl; [|exact Hm]. cbn.
        intros m ((r1 & ? & ?) & (r2 & ? & ?) & H3).
        split; [exists r1; auto|]. split; [exists r2; auto|exact H3].
      * constructor; [|constructor]. cbn.
        destruct Hl1 as (r1 & ? & ?), Hl2 as (r2 & ? & ?).
        split; [exists r1; auto|]. split; [exists r2; auto|]. auto.
    + apply ForallOrdPairs_snoc; [exact Hp|].
      apply Forall_forall. intros m Hin.
      destruct (Hnone m Hin) as [N1 N2]. unfold Social.samePair. cbn.
      intros [[E1 E2]|[E1 E2]].
      * assert (Social.isMatch me other m = true) by now apply isMatch_iff.
        congruence.
      * assert (Social.isMatch other me m = true) by now apply isMatch_iff.
        congruence.
  - unfold Social.createMatch.
    assert (Hsel : data (Social.selectMatchBetween
                           (Social.fail_select_match net) me me other t)
                   = None).
    { unfold Social.selectMatchBetween.
      destruct (Social.fail_select_match net); [reflexivity|].
      rewrite filter_none; [reflexivity|].
      intros m Hin. destruct (Hnone m Hin) as [N1 N2].
      rewrite N1, N2. apply andb_false_r. }
    rewrite Hsel. unfold Social.insertMatch. rewrite String.eqb_refl.
    assert (Hex : existsb (Social.isMatch me other) (Social.matches t)
                  = false).
    { destruct (existsb _ _) eqn:E; [|reflexivity].
      apply existsb_exists in E. destruct E as (m & Hin & E).
      destruct (Hnone m Hin). congruence. }
    rewrite Hex. destruct (Social.fail_insert_match net); reflexivity.
Qed.

Lemma createMatch_keeps net me u v t :
  Social.consistent t ->
  Social.liked t u v -> Social.liked t v u ->
  (forall m, In m (Social.matches t) ->
     Social.isMatch u v m = false /\ Social.isMatch v u m = false) ->
  u = me ->
  Social.consistent (fst (Social.createMatch net me u v t)).
Proof.
  intros Hc H1 H2 Hnone ->.
  destruct (createMatch_fresh net me v t Hc H1 H2 Hnone) as [Hc' E].
  rewrite E. destruct (Social.fail_insert_match net); assumption.
Qed.

Lemma sendLike_keeps net user toUserId t :
  Social.consistent t ->
  Social.consistent (fst (Social.sendLike net user toUserId t)).
Proof.
  intros Hc. unfold Social.sendLike.
  destruct user as [me|]; [|exact Hc].
  destruct (data (Social.selectLike _ me me toUserId t)); [exact Hc|].
  destruct (insertLike_cases (Social.fail_insert_like net) me me toUserId t)
    as [[E _]|(_ & _ & Hno & E)]; rewrite E; cbn [error data failed ok].
  - exact Hc.
  - set (row := {| Social.l_id := _ |}).
    set (t1 := {| Social.likes := _ |}).
    assert (Hc1 : Social.consistent t1) by now apply consistent_like.
    destruct (data (Social.selectLike _ me toUserId me t1)) eqn:Hrec;
      [|exact Hc1].
    assert (Hback : Social.liked t1 toUserId me).
    { unfold Social.selectLike in Hrec.
      destruct (Social.fail_select_reciprocal net); [discriminate|].
      apply maybeSingle_In in Hrec. apply filter_In in Hrec.
      destruct Hrec as [Hin Hp]. apply andb_true_iff in Hp.
      destruct Hp as [_ Hp]. apply isLike_iff in Hp.
      exists l. tauto. }
    assert (Hforth : Social.liked t1 me toUserId).
    { exists row. split; [|split; reflexivity].
      cbn. apply in_or_app. right. now left. }
    assert (Hnone : forall m, In m (Social.matches t1) ->
              Social.isMatch me toUserId m = false /\
              Social.isMatch toUserId me m = false).
    { intros m Hin. apply (no_match_without_like t me toUserId Hc Hno).
      exact Hin. }
    pose proof (createMatch_keeps net me me toUserId t1 Hc1 Hforth Hback
                                  Hnone eq_refl) as Hc2.
    destruct (Social.createMatch net me me toUserId t1). exact Hc2.
Qed.

Lemma sendLike_again net me other t :
  Social.consistent t -> Social.liked t me other ->
  fst (Social.sendLike net (Some me) other t) = t /\
  (Social.fail_select_like net = false ->
   exists row, In row (Social.likes t) /\
     Social.l_from_user_id row = me /\ Social.l_to_user_id row = other /\
     snd (Social.sendLike net (Some me) other t)
       = Social.done row (Some "Already liked")) /\
  (Social.fail_select_like net = true ->
   snd (Social.sendLike net (Some me) other t)
     = Social.thrown Social.Refused).
Proof.
  intros Hc Hl. pose proof Hc as (Hnd & _).
  destruct (selectLike_found (Social.fail_select_like net) me me other t
              Hnd Hl (or_introl eq_refl)) as (row & Hin & Hf & Hg & Hsel).
  unfold Social.sendLike. rewrite Hsel.
  destruct (Social.fail_select_like net); cbn [data failed ok].
  - destruct (insertLike_cases (Social.fail_insert_like net) me me other t)
      as [[E _]|(_ & _ & Hno & _)]; [|contradiction].
    rewrite E. cbn. split; [reflexivity|]. split; [discriminate|reflexivity].
  - cbn. split; [reflexivity|]. split; [|discriminate].
    intros _. exists row. auto.
Qed.

Lemma sendLike_reciprocated net me other t :
  Social.consistent t -> ~ Social.liked t me other ->
  Social.liked t other me \/ other = me ->
  Social.fail_insert_like net = false ->
  Social.fail_select_reciprocal net = false ->
  let like := {| Social.l_id := Store.freshId Social.l_id (Social.likes t);
                 Social.l_from_user_id := me;
                 Social.l_to_user_id := other |} in
  let row := {| Social.m_id := Store.freshId Social.m_id (Social.matches t);
                Social.m_user_id := me; Social.m_matched_user_id := other;
                Social.m_status := "accepted";
                Social.m_compatibility_score := 85 |} in
  Social.sendLike net (Some me) other t =
    ({| Social.likes := Social.likes t ++ [like];
        Social.matches := if Social.fail_insert_match net
                          then Social.matches t
                          else Social.matches t ++ [row] |},
     Social.done like (Some "It's a match!")).
Proof.
  intros Hc Hno Hback Hins Hrec like row.
  unfold Social.sendLike.
  rewrite (selectLike_absent _ me me other t Hno).
  destruct (insertLike_cases (Social.fail_insert_like net) me me other t)
    as [[_ [E|[E|E]]]|(_ & _ & _ & E)];
    [congruence|congruence|contradiction|].
  rewrite E. cbn [error data ok]. fold like.
  set (t1 := {| Social.likes := _ |}).
  assert (Hc1 : Social.consistent t1) by now apply consistent_like.
  assert (Hforth : Social.liked t1 me other).
  { exists like. split; [|split; reflexivity].
    cbn. apply in_or_app. right. now left. }
  assert (Hback1 : Social.liked t1 other me).
  { destruct Hback as [H| ->]; [now apply liked_grows|exact Hforth]. }
  pose proof Hc1 as (Hnd1 & _).
  destruct (selectLike_found (Social.fail_select_reciprocal net) me other me
              t1 Hnd1 Hback1 (or_intror eq_refl))
    as (r & _ & _ & _ & Hsel).
  rewrite Hsel, Hrec. cbn [data ok].
  assert (Hnone : forall m, In m (Social.matches t1) ->
            Social.isMatch me other m = false /\
            Social.isMatch other me m = false).
  { intros m Hin. apply (no_match_without_like t me other Hc Hno). exact Hin. }
  destruct (createMatch_fresh net me other t1 Hc1 Hforth Hback1 Hnone)
    as [_ Ecm].
  rewrite Ecm. destruct (Social.fail_insert_match net); reflexivity.
Qed.

Lemma filter_snoc_length {A} (p : A -> bool) (l : list A) (x : A) :
  p x = true ->
  List.length (filter p (l ++ [x])) = S (List.length (filter p l)).
Proof.
  intros H. rewrite filter_app, length_app. cbn. rewrite H. cbn. lia.
Qed.

(** In every history of [sendLike] calls -- whoever calls, whatever is
    refused -- the tables stay consistent: no like is stored twice, every
    match is accepted with the score 85 and stands on a like in each
    direction, and no two people are matched twice. *)
Theorem likes_history_consistent
    (calls : list (Social.Net * option string * string)) (t : Social.Tables) :
  Social.consistent t -> Social.consistent (Social.replay calls t).
Proof.
  revert t. induction calls as [|c calls IH]; intros t Hc; [exact Hc|].
  cbn. apply IH. now apply sendLike_keeps.
Qed.

Lemma likes_history_consistent_witness :
  Social.consistent
    (Social.replay [(Social.calmNet, Some "bina", "arun");
                    (Social.matchRefused, Some "arun", "bina");
                    (Social.calmNet, Some "arun", "bina");
                    (Social.calmNet, None, "arun")] Social.noTables).
Proof.
  apply likes_history_consistent. exact consistent_noTables.
Defined.

(** A like that is already stored is final: sending it again changes neither
    table and creates no match, whatever the other side has done since. The
    answer is "Already liked" with the stored row, or an error when the
    lookup is refused. *)
Theorem already_liked_changes_nothing (net : Social.Net) (me other : string)
    (t : Social.Tables) :
  Social.consistent t -> Social.liked t me other ->
  let out := Social.sendLike net (Some me) other t in
  fst out = t /\
  (Social.fail_select_like net = false ->
   exists row, In row (Social.likes t) /\
     Social.l_from_user_id row = me /\ Social.l_to_user_id row = other /\
     snd out = Social.done row (Some "Already liked")) /\
  (Social.fail_select_like net = true ->
   snd out = Social.thrown Social.Refused).
Proof. intros Hc Hl. exact (sendLike_again net me other t Hc Hl). Qed.

(** When the other side has liked first, a like answers "It's a match!" and
    adds one match row: the caller as [user_id], accepted, score 85. The
    caller's match list shows the other; the other's match list does not show
    the caller; the match count rises by one for both. *)
Theorem mutual_like_creates_match (net : Social.Net) (me other : string)
    (t : Social.Tables) :
  Social.consistent t ->
  Social.liked t other me -> ~ Social.liked t me other -> me <> other ->
  Social.fail_insert_like net = false ->
  Social.fail_select_reciprocal net = false ->
  Social.fail_insert_match net = false ->
  let out := Social.sendLike net (Some me) other t in
  Social.r_message (snd out) = Some "It's a match!" /\
  Social.matches (fst out) =
    (Social.matches t ++
      [{| Social.m_id := Store.freshId Social.m_id (Social.matches t);
          Social.m_user_id := me; Social.m_matched_user_id := other;
          Social.m_status := "accepted";
          Social.m_compatibility_score := 85 |}])%list /\
  Social.matchedWith me other (Social.myMatches me (fst out)) /\
  ~ Social.matchedWith other me (Social.myMatches other (fst out)) /\
  Social.matchesCount me (fst out) = S (Social.matchesCount me t) /\
  Social.matchesCount other (fst out) = S (Social.matchesCount other t).
Proof.
  intros Hc Hback Hno Hne Hins Hrec Hm out.
  pose proof (sendLike_reciprocated net me other t Hc Hno (or_introl Hback)
                Hins Hrec) as E.
  cbv zeta in E. rewrite Hm in E. subst out. rewrite E. cbn [fst snd].
  set (row := {| Social.m_id := _ |}).
  split; [reflexivity|]. split; [reflexivity|].
  unfold Social.myMatches, Social.matchesCount, Social.getMyMatches,
    Social.getProfileStats.
  cbn [Social.calmNet Social.fail_select_matches Social.fail_count_matches
       Social.fail_count_likes Social.r_data Social.done Social.matches
       Social.s_matches Social.likes].
  split; [|split; [|split]].
  - exists row. split; [|split; reflexivity].
    apply filter_In. split; [apply in_or_app; right; now left|].
    unfold Social.matchVisible. cbn. rewrite String.eqb_refl. reflexivity.
  - intros (r & Hin & Hu & Hv). apply filter_In in Hin.
    destruct Hin as [Hin _]. apply in_app_or in Hin.
    destruct Hin as [Hin|[<-|[]]].
    + destruct (no_match_without_like t me other Hc Hno r Hin) as [_ N].
      assert (Social.isMatch other me r = true) by now apply isMatch_iff.
      congruence.
    + cbn in Hu. congruence.
  - apply filter_snoc_length. unfold Social.matchVisible. cbn.
    rewrite String.eqb_refl. reflexivity.
  - apply filter_snoc_length. unfold Social.matchVisible. cbn.
    rewrite String.eqb_refl, !orb_true_r. reflexivity.
Qed.

Lemma binaLikedArun_consistent : Social.consistent Social.binaLikedArun.
Proof. apply sendLike_keeps. exact consistent_noTables. Qed.

Lemma binaLikedArun_liked : Social.liked Social.binaLikedArun "bina" "arun".
Proof.
  exists {| Social.l_id := 1; Social.l_from_user_id := "bina";
            Social.l_to_user_id := "arun" |}.
  vm_compute. auto.
Qed.

Lemma binaLikedArun_not_back :
  ~ Social.liked Social.binaLikedArun "arun" "bina".
Proof.
  intros H. apply liked_iff in H. vm_compute in H. discriminate H.
Qed.

Lemma already_liked_changes_nothing_witness :
  fst (Social.sendLike Social.calmNet (Some "bina") "arun"
                       Social.binaLikedArun) = Social.binaLikedArun.
Proof.
  destruct (already_liked_changes_nothing Social.calmNet "bina" "arun"
              Social.binaLikedArun binaLikedArun_consistent
              binaLikedArun_liked) as [H _].
  exact H.
Defined.

Lemma mutual_like_creates_match_witness :
  Social.r_message
    (snd (Social.sendLike Social.calmNet (Some "arun") "bina"
                          Social.binaLikedArun)) = Some "It's a match!" /\
  ~ Social.matchedWith "bina" "arun"
      (Social.myMatches "bina"
         (fst (Social.sendLike Social.calmNet (Some "arun") "bina"
                               Social.binaLikedArun))).
Proof.
  destruct (mutual_like_creates_match Social.calmNet "arun" "bina"
              Social.binaLikedArun binaLikedArun_consistent
              binaLikedArun_liked binaLikedArun_not_back)
    as (H1 & _ & _ & H4 & _).
  - discriminate.
  - reflexivity.
  - reflexivity.
  - reflexivity.
  - split; [exact H1|exact H4].
Defined.

(** When the insert of the match row is refused, the like still answers
    "It's a match!" although no match is stored; and no later like of either
    of the two brings the match about, whatever is refused or not then. *)
Theorem match_announced_but_lost (net : Social.Net) (me other : string)
    (t : Social.Tables) :
  Social.consistent t ->
  Social.liked t other me -> ~ Social.liked t me other ->
  Social.fail_insert_like net = false ->
  Social.fail_select_reciprocal net = false ->
  Social.fail_insert_match net = true ->
  let out := Social.sendLike net (Some me) other t in
  Social.r_message (snd out) = Some "It's a match!" /\
  Social.matches (fst out) = Social.matches t /\
  forall later,
    fst (Social.sendLike later (Some me) other (fst out)) = fst out /\
    fst (Social.sendLike later (Some other) me (fst out)) = fst out.
Proof.
  intros Hc Hback Hno Hins Hrec Hm out.
  assert (Hc' : Social.consistent (fst out)) by now apply sendLike_keeps.
  pose proof (sendLike_reciprocated net me other t Hc Hno (or_introl Hback)
                Hins Hrec) as E.
  cbv zeta in E. rewrite Hm in E. subst out. rewrite E in *. cbn [fst snd] in *.
  split; [reflexivity|]. split; [reflexivity|].
  set (t1 := {| Social.likes := _ |}) in *.
  assert (Hforth : Social.liked t1 me other).
  { eexists. split; [cbn; apply in_or_app; right; now left|].
    split; reflexivity. }
  assert (Hback1 : Social.liked t1 other me) by now apply liked_grows.
  intros later. split.
  - apply (sendLike_again later me other t1 Hc' Hforth).
  - apply (sendLike_again later other me t1 Hc' Hback1).
Qed.

Lemma match_announced_but_lost_witness :
  Social.r_message
    (snd (Social.sendLike Social.matchRefused (Some "arun") "bina"
                          Social.binaLikedArun)) = Some "It's a match!" /\
  Social.matches
    (fst (Social.sendLike Social.matchRefused (Some "arun") "bina"
                          Social.binaLikedArun)) = [].
Proof.
  destruct (match_announced_but_lost Social.matchRefused "arun" "bina"
              Social.binaLikedArun binaLikedArun_consistent
              binaLikedArun_liked binaLikedArun_not_back)
    as (H1 & H2 & _).
  - reflexivity.
  - reflexivity.
  - reflexivity.
  - split; [exact H1|exact H2].
Defined.

(** [sendLike] does not look at whom it likes: a first like of oneself finds
    itself as the like in return, answers "It's a match!" and stores a match
    of the caller with the caller. *)
Theorem liking_oneself_matches (net : Social.Net) (me : string)
    (t : Social.Tables) :
  Social.consistent t -> ~ Social.liked t me me ->
  Social.fail_insert_like net = false ->
  Social.fail_select_reciprocal net = false ->
  Social.fail_insert_match net = false ->
  let out := Social.sendLike net (Some me) me t in
  Social.r_message (snd out) = Some "It's a match!" /\
  Social.matches (fst out) =
    (Social.matches t ++
      [{| Social.m_id := Store.freshId Social.m_id (Social.matches t);
          Social.m_user_id := me; Social.m_matched_user_id := me;
          Social.m_status := "accepted";
          Social.m_compatibility_score := 85 |}])%list /\
  Social.matchedWith me me (Social.myMatches me (fst out)).
Proof.
  intros Hc Hno Hins Hrec Hm out.
  pose proof (sendLike_reciprocated net me me t Hc Hno (or_intror eq_refl)
                Hins Hrec) as E.
  cbv zeta in E. rewrite Hm in E. subst out. rewrite E. cbn [fst snd].
  split; [reflexivity|]. split; [reflexivity|].
  exists {| Social.m_id := Store.freshId Social.m_id (Social.matches t);
            Social.m_user_id := me; Social.m_matched_user_id := me;
            Social.m_status := "accepted";
            Social.m_compatibility_score := 85 |}.
  split; [|split; reflexivity].
  unfold Social.myMatches, Social.getMyMatches.
  cbn [Social.calmNet Social.fail_select_matches Social.r_data Social.done
       Social.matches].
  apply filter_In. split; [apply in_or_app; right; now left|].
  unfold Social.matchVisible. cbn. rewrite String.eqb_refl. reflexivity.
Qed.

Lemma liking_oneself_matches_witness :
  Social.r_message
    (snd (Social.sendLike Social.calmNet (Some "arun") "arun"
                          Social.noTables)) = Some "It's a match!".
Proof.
  destruct (liking_oneself_matches Social.calmNet "arun" Social.noTables
              consistent_noTables) as (H1 & _).
  - intros H. apply liked_iff in H. discriminate H.
  - reflexivity.
  - reflexivity.
  - reflexivity.
  - exact H1.
Defined.

(** ** The wallet sign-in, page and server together *)

Lemma getItem_removeItem k k' s :
  Web3.getItem k (Web3.removeItem k' s)
    = if String.eqb k' k then None else Web3.getItem k s.
Proof.
  unfold Web3.getItem, Web3.removeItem.
  induction s as [|[key v] s IH]; cbn.
  - now destruct (String.eqb k' k).
  - destruct (String.eqb_spec key k') as [->|Hne]; cbn.
    + destruct (String.eqb_spec k' k) as [E|E]; [exact IH|].
      rewrite IH. destruct (String.eqb_spec k' k); [contradiction|reflexivity].
    + destruct (String.eqb_spec key k) as [->|Hk]; [|exact IH].
      destruct (String.eqb_spec k' k) as [E|E]; [|reflexivity].
      subst. contradiction.
Qed.

Lemma getItem_setItem k k' v s :
  Web3.getItem k (Web3.setItem k' v s)
    = if String.eqb k' k then Some v else Web3.getItem k s.
Proof.
  pose proof (getItem_removeItem k k' s) as H.
  unfold Web3.setItem, Web3.getItem in *. cbn [find fst snd].
  destruct (String.eqb k' k); [reflexivity|exact H].
Qed.

(** Every answer of [verify] the page takes for a success is the answer
    [verified]: for the owner of the link the store returned, or for the
    account just created. *)
Lemma verify_ok_verified d a e db (wa sg m : string) :
  Web3.isOk (snd (run e db (verify d a {| vr_walletAddress := Some wa;
                                           vr_signature := Some sg;
                                           vr_message := Some m |}))) = true ->
  exists c user isNew,
    getAddress d wa = Some c /\
    snd (run e db (verify d a {| vr_walletAddress := Some wa;
                                 vr_signature := Some sg;
                                 vr_message := Some m |}))
      = verified d a user c isNew /\
    ((isNew = true /\ signUp_user e = Some user) \/
     (isNew = false /\ exists w, In w (wallet_addresses db) /\
                                 w_wallet_address w = c /\
                                 w_user_id w = user)).
Proof.
  unfold verify. cbn.
  destruct (String.eqb wa EmptyString || String.eqb sg EmptyString
            || String.eqb m EmptyString); cbn; [discriminate|].
  destruct (isAddress d wa); cbn; [|discriminate].
  destruct (getAddress d wa) as [c|]; cbn; [|discriminate].
  destruct (Js.matchNonce m) as [n|]; cbn; [|discriminate].
  destruct (fail_select_nonce e); cbn; [discriminate|].
  destruct (Store.maybeSingle (Store.unusedNonces n c (auth_nonces db)))
    as [[row|] [|]]; cbn; try discriminate.
  destruct (n_expires_at row <? clock a 0); cbn; [discriminate|].
  destruct (verifyMessage d m sg) as [r|]; cbn; [|discriminate].
  destruct (negb (String.eqb (Js.toLowerCase r) (Js.toLowerCase c))); cbn;
    [discriminate|].
  assert (Hnew : forall db1,
    Web3.isOk (snd (run e db1 (createAccount d a c))) = true ->
    exists c0 user isNew, Some c = Some c0 /\
      snd (run e db1 (createAccount d a c)) = verified d a user c0 isNew /\
      ((isNew = true /\ signUp_user e = Some user) \/
       (isNew = false /\ exists w, In w (wallet_addresses db) /\
                                   w_wallet_address w = c0 /\
                                   w_user_id w = user))).
  { intros db1. rewrite createAccount_answer.
    destruct (signUp_user e) as [u|]; [|discriminate].
    intros _. exists c, u, true. auto. }
  destruct (fail_mark_used e); cbn.
  all: destruct (fail_select_wallet e); cbn; [apply Hnew|].
  all: unfold Store.walletsAt.
  all: destruct (Store.maybeSingle
                   (filter (fun r => String.eqb (w_wallet_address r) c)
                           (wallet_addresses db)))
         as [[w|] err] eqn:Hw; cbn; [|apply Hnew].
  all: destruct (String.eqb (w_user_id w) EmptyString); cbn; [apply Hnew|].
  all: intros _; exists c, (w_user_id w), false.
  all: split; [reflexivity|]; split; [reflexivity|]; right.
  all: split; [reflexivity|]; exists w.
  all: assert (Hin : In w (filter (fun r => String.eqb (w_wallet_address r) c)
                                  (wallet_addresses db)))
         by (apply maybeSingle_In; rewrite Hw; reflexivity).
  all: apply filter_In in Hin; destruct Hin as [Hin E].
  all: apply String.eqb_eq in E; auto.
Qed.

Lemma verifySignature_returned d b sv db wa sg m db' result :
  Web3.verifySignature d b sv db wa sg m = (db', Web3.Returned result) ->
  exists c user isNew,
    getAddress d wa = Some c /\
    result = body (verified d (Web3.a_verify sv) user c isNew) /\
    ((isNew = true /\ signUp_user (Web3.e_verify sv) = Some user) \/
     (isNew = false /\ exists w, In w (wallet_addresses db) /\
                                 w_wallet_address w = c /\
                                 w_user_id w = user)).
Proof.
  unfold Web3.verifySignature.
  destruct (Web3.reach_verify b); cbn; [|discriminate].
  pose proof (verify_ok_verified d (Web3.a_verify sv) (Web3.e_verify sv) db
                                 wa sg m) as H.
  destruct (run (Web3.e_verify sv) db _) as [db2 response]. cbn [snd] in H.
  destruct (Web3.isOk response); [|discriminate].
  intros [= <- <-].
  destruct (H eq_refl) as (c & user & isNew & Hc & E & Hu).
  exists c, user, isNew. rewrite E. auto.
Qed.

(** A sign-in ends in one of two ways. Either it throws, and then nothing
    has been put into [localStorage]; or it returns the server's answer to an
    accepted verification, and then the three items are stored: the session
    token the server signed for the user, the wallet address in checksum form
    and the user's id, so that [isAuthenticated] holds. A token is never
    stored for an attempt the server or the wallet turned down. *)
Theorem sign_in_all_or_nothing (d : Deps) (b : Web3.Browser)
    (sv : Web3.Backend) (c : Web3.Client) (db : DB) :
  let out := Web3.authenticateWithWallet d b sv c db in
  match snd out with
  | Web3.Threw _ =>
      Web3.localStorage (snd (fst out)) = Web3.localStorage c
  | Web3.Returned result =>
      exists user address isNew,
        result = body (verified d (Web3.a_verify sv) user address isNew) /\
        Web3.getItem "web3_auth_token" (Web3.localStorage (snd (fst out)))
          = Some (Web3.Token
                    (sessionToken d (Web3.a_verify sv) user address)) /\
        Web3.getWalletAddress (snd (fst out)) = Some (Web3.Text address) /\
        Web3.getUserId (snd (fst out)) = Some (Web3.Text user) /\
        Web3.isAuthenticated (snd (fst out)) = true
  end.
Proof.
  intros out. subst out. unfold Web3.authenticateWithWallet.
  destruct (Web3.connectWallet d b (Web3.manager c)) as [m1 [address|t]];
    [|reflexivity].
  destruct (Web3.requestNonce d b sv db address) as [db1 [issued|t]];
    [|reflexivity].
  destruct issued as [| nonce message expiresAt | |]; try reflexivity.
  destruct (Web3.signMessage b m1 message) as [signature|t]; [|reflexivity].
  destruct (Web3.verifySignature d b sv db1 address signature message)
    as [db2 [result|t]] eqn:Hv; [|reflexivity].
  destruct (verifySignature_returned _ _ _ _ _ _ _ _ _ Hv)
    as (ck & user & isNew & _ & -> & _).
  cbn [verified json body snd fst Web3.localStorage].
  exists user, ck, isNew. split; [reflexivity|].
  unfold Web3.isAuthenticated, Web3.getWalletAddress, Web3.getUserId,
    Web3.syncWithSupabase.
  cbn [Web3.localStorage]. rewrite !getItem_setItem. cbn.
  auto.
Qed.

Lemma substring_length n m s : (String.length (substring n m s) <= m)%nat.
Proof.
  revert n m. induction s as [|ch s IH]; intros n m.
  - destruct n, m; cbn; lia.
  - destruct n as [|n]; [destruct m as [|m]|]; cbn.
    + lia.
    + specialize (IH 0%nat m). lia.
    + apply IH.
Qed.

Lemma tempPassword_short b s :
  Web3.shortPass s ->
  exists p, Web3.tempPassword b s = Web3.Text p /\ (String.length p <= 13)%nat.
Proof.
  intros H. unfold Web3.tempPassword.
  destruct (Web3.getItem "web3_temp_pass" s) as [v|] eqn:E.
  - destruct (H v E) as (p & -> & Hp). cbn.
    destruct (String.eqb p EmptyString); cbn.
    + eexists. split; [reflexivity|apply substring_length].
    + exists p. auto.
  - eexists. split; [reflexivity|apply substring_length].
Qed.

(** The password the page remembers and signs in with is never the
    password the server gave the account: the server's is the hexadecimal
    text of 32 random bytes, 64 characters, the page's has at most thirteen.
    This holds from an empty [localStorage] on, across sign-ins and
    [disconnect]. *)
Theorem page_password_is_not_the_account_password (d : Deps)
    (b : Web3.Browser) (sv : Web3.Backend) (a : Ambient) (address : string)
    (c : Web3.Client) (db : DB) (password : string) :
  Web3.shortPass (Web3.localStorage c) ->
  List.length (random a) = 32%nat ->
  Web3.signUpPassword (createAccount d a address) = Some password ->
  Web3.tempPassword b (Web3.localStorage c) <> Web3.Text password /\
  Web3.shortPass
    (Web3.localStorage
       (snd (fst (Web3.authenticateWithWallet d b sv c db)))) /\
  Web3.shortPass (Web3.localStorage (Web3.disconnect c)).
Proof.
  intros Hs Hlen Hpw. split; [|split].
  - destruct (tempPassword_short b _ Hs) as (p & -> & Hp).
    intros [= ->]. cbn in Hpw. injection Hpw as <-.
    rewrite toHex_length, Hlen in Hp. cbn in Hp. lia.
  - unfold Web3.authenticateWithWallet.
    destruct (Web3.connectWallet d b (Web3.manager c)) as [m1 [addr|t]];
      [|exact Hs].
    destruct (Web3.requestNonce d b sv db addr) as [db1 [issued|t]];
      [|exact Hs].
    destruct issued as [| nonce message expiresAt | |]; try exact Hs.
    destruct (Web3.signMessage b m1 message) as [signature|t]; [|exact Hs].
    destruct (Web3.verifySignature d b sv db1 addr signature message)
      as [db2 [result|t]]; [|exact Hs].
    destruct result as [| | [|] token user wallet isNew msg |]; try exact Hs.
    cbn [fst snd Web3.localStorage]. unfold Web3.syncWithSupabase.
    set (s3 := Web3.setItem "web3_user_id" _ _).
    assert (Hs3 : Web3.shortPass s3).
    { unfold Web3.shortPass, s3. rewrite !getItem_setItem. cbn. exact Hs. }
    destruct (tempPassword_short b _ Hs3) as (p & E & Hp).
    unfold Web3.shortPass. rewrite getItem_setItem, E. cbn.
    intros v [= <-]. exists p. auto.
  - unfold Web3.shortPass, Web3.disconnect. cbn [Web3.localStorage].
    rewrite !getItem_removeItem. cbn. exact Hs.
Qed.

Lemma page_password_is_not_the_account_password_witness :
  Web3.tempPassword Web3.aliceBrowser [] <>
    Web3.Text (Js.toHex Sim.bytes32).
Proof.
  destruct (page_password_is_not_the_account_password Sim.deps
              Web3.aliceBrowser Web3.backend0 (Sim.at_ Sim.t0) Sim.alice
              Web3.fresh Sim.empty (Js.toHex Sim.bytes32)) as (H & _).
  - intros v E. discriminate E.
  - reflexivity.
  - reflexivity.
  - exact H.
Defined.

(** [disconnect] forgets the session on the page -- the token, the wallet
    address and the user id -- whatever was stored, and leaves every other
    item alone. (The token itself stays valid at the server until it
    expires.) *)
Theorem disconnect_forgets (c : Web3.Client) :
  Web3.isAuthenticated (Web3.disconnect c) = false /\
  Web3.getWalletAddress (Web3.disconnect c) = None /\
  Web3.getUserId (Web3.disconnect c) = None /\
  forall key, key <> "web3_auth_token" -> key <> "web3_wallet_address" ->
              key <> "web3_user_id" ->
    Web3.getItem key (Web3.localStorage (Web3.disconnect c))
      = Web3.getItem key (Web3.localStorage c).
Proof.
  unfold Web3.isAuthenticated, Web3.getWalletAddress, Web3.getUserId,
    Web3.disconnect. cbn [Web3.localStorage].
  rewrite !getItem_removeItem. cbn.
  repeat split.
  intros key H1 H2 H3. rewrite !getItem_removeItem.
  apply String.eqb_neq in H1, H2, H3.
  rewrite String.eqb_sym in H1. rewrite String.eqb_sym in H2.
  rewrite String.eqb_sym in H3. now rewrite H1, H2, H3.
Qed.

(** A sign-in goes through, page and server together: when the wallet
    offers an account, the server issues a nonce for its address, the wallet
    signs the issued message with the key of that address, the signed message
    reaches the server within five minutes, the store returns the nonce row
    to the verify handler, and the account service is able to create an
    account, then the page is authenticated as the owner of the link the store
    returned -- or, if none came back, as the account created on the spot --
    and the manager holds the address in checksum form. The nonce is spent
    when the store performs the update of [used]; when the store refuses it,
    the nonce row is still the unused one that was issued. *)
Theorem wallet_sign_in_succeeds (d : Deps) (b : Web3.Browser)
    (sv : Web3.Backend) (c : Web3.Client) (db : DB)
    (account address signature recovered u : string)
    (others : list string) :
  let nonce := generateNonce (random (Web3.a_nonce sv)) in
  let message :=
    challenge nonce (Js.toISOString (clock (Web3.a_nonce sv) 1)) in
  let issued := {| n_id := Store.freshId n_id (auth_nonces db);
                   n_wallet_address := address; n_nonce := nonce;
                   n_expires_at := clock (Web3.a_nonce sv) 0 + 300000;
                   n_used := false |} in
  EthersContract d ->
  Web3.ethereum b = true ->
  Web3.requestAccounts b = Some (account :: others) ->
  getAddress d account = Some address -> address <> EmptyString ->
  Web3.getSigner b = true ->
  Web3.reach_nonce b = true -> Web3.reach_verify b = true ->
  List.length (random (Web3.a_nonce sv)) = 32%nat ->
  fail_insert_nonce (Web3.e_nonce sv) = false ->
  Store.nonceHeld nonce (auth_nonces db) = false ->
  Web3.sign b message = Some signature -> signature <> EmptyString ->
  verifyMessage d message signature = Some recovered ->
  Js.toLowerCase recovered = Js.toLowerCase address ->
  fail_select_nonce (Web3.e_verify sv) = false ->
  clock (Web3.a_verify sv) 0 <= clock (Web3.a_nonce sv) 0 + 300000 ->
  signUp_user (Web3.e_verify sv) = Some u ->
  let out := Web3.authenticateWithWallet d b sv c db in
  exists user isNew,
    snd out = Web3.Returned
                (body (verified d (Web3.a_verify sv) user address isNew)) /\
    Web3.isAuthenticated (snd (fst out)) = true /\
    Web3.getUserId (snd (fst out)) = Some (Web3.Text user) /\
    Web3.mg_walletAddress (Web3.manager (snd (fst out))) = Some address /\
    Store.unusedNonces nonce address (auth_nonces (fst (fst out)))
      = (if fail_mark_used (Web3.e_verify sv) then [issued] else []) /\
    ((isNew = true /\ user = u) \/
     (isNew = false /\ exists w, In w (wallet_addresses db) /\
                                 w_wallet_address w = address /\
                                 w_user_id w = user)).
Proof.
  intros nonce message issued Hd Heth Hacc Haddr Hne Hsigner Hr1 Hr2 Hlen Hins
         Hheld Hsign Hsig Hrec Hlow Hsel Hclock Hu out.
  assert (Hidem : getAddress d address = Some address)
    by (eapply getAddress_idem; eauto).
  assert (Hvalid : isAddress d address = true)
    by (apply (isAddress_spec d Hd); eauto).
  assert (Hmatch : Js.matchNonce message = Some nonce).
  { apply matchNonce_challenge.
    - now apply generateNonce_nonempty.
    - apply toHex_allLowerHex. }
  subst out. unfold Web3.authenticateWithWallet, Web3.connectWallet.
  rewrite Heth, Hacc, Haddr, Hsigner. cbn [negb].
  unfold Web3.requestNonce. rewrite Hr1. cbn [negb].
  rewrite (getNonce_accepted d (Web3.a_nonce sv) address address
             (Web3.e_nonce sv) db Hvalid Hidem Hins Hheld).
  fold nonce. fold message. cbn [Web3.isOk status json body andb Nat.leb].
  unfold Web3.signMessage. cbn [Web3.mg_signer negb]. rewrite Hsign.
  fold issued.
  set (db1 := Store.setNonces db (auth_nonces db ++ [issued])).
  assert (Hrow : Store.unusedNonces nonce address (auth_nonces db1) = [issued])
    by (apply unusedNonces_issued; exact Hheld).
  pose proof (verify_passes d (Web3.a_verify sv) (Web3.e_verify sv) db1
                address signature message address nonce recovered issued
                Hne (eqb_empty_false _ Hsig) Hvalid Hidem Hmatch Hsel Hrow
                Hclock Hrec Hlow) as (_ & Hstatus & Hnonces).
  assert (Hsome : signUp_user (Web3.e_verify sv) <> None) by congruence.
  specialize (Hstatus Hsome).
  pose proof (verify_ok_verified d (Web3.a_verify sv) (Web3.e_verify sv) db1
                address signature message) as Hbody.
  unfold Web3.verifySignature. rewrite Hr2. cbn [negb].
  destruct (run (Web3.e_verify sv) db1 _) as [db2 response].
  cbn [fst snd] in Hstatus, Hnonces, Hbody.
  assert (Hok : Web3.isOk response = true)
    by (unfold Web3.isOk; rewrite Hstatus; reflexivity).
  rewrite Hok.
  destruct (Hbody Hok) as (ck & user & isNew & Hck & -> & Hwho).
  rewrite Hidem in Hck. injection Hck as <-.
  cbn [verified json body fst snd Web3.manager Web3.mg_walletAddress].
  exists user, isNew.
  split; [reflexivity|].
  unfold Web3.isAuthenticated, Web3.getUserId, Web3.syncWithSupabase.
  cbn [Web3.localStorage]. rewrite !getItem_setItem. cbn.
  split; [reflexivity|]. split; [reflexivity|]. split; [reflexivity|].
  split.
  - rewrite Hnonces. destruct (fail_mark_used (Web3.e_verify sv)).
    + exact Hrow.
    + unfold db1. cbn [auth_nonces Store.setNonces].
      apply unusedNonces_consumed. exact Hheld.
  - destruct Hwho as [[-> Hsu]|[-> Hw]].
    + left. split; [reflexivity|]. congruence.
    + right. split; [reflexivity|exact Hw].
Qed.

Lemma wallet_sign_in_succeeds_witness :
  Web3.isAuthenticated
    (snd (fst (Web3.authenticateWithWallet Sim.deps Web3.aliceBrowser
                                           Web3.backend0 Web3.fresh
                                           Sim.empty))) = true.
Proof.
  unshelve epose proof
    (wallet_sign_in_succeeds Sim.deps Web3.aliceBrowser Web3.backend0
       Web3.fresh Sim.empty (Js.toLowerCase Sim.alice) Sim.alice
       (Sim.signedBy Sim.alice Sim.message0) Sim.alice "u-1" []
       sim_contract _ _ _ _ _ _ _ _ _ _ _ _ _ _ _ _ _) as H.
  1: reflexivity.
  1: reflexivity.
  1: vm_compute; reflexivity.
  1: discriminate.
  1: reflexivity.
  1: reflexivity.
  1: reflexivity.
  1: reflexivity.
  1: reflexivity.
  1: reflexivity.
  1: vm_compute; reflexivity.
  1: vm_compute; discriminate.
  1: vm_compute; reflexivity.
  1: reflexivity.
  1: reflexivity.
  1: vm_compute; discriminate.
  1: reflexivity.
  destruct H as (user & isNew & _ & H & _). exact H.
Defined.

(** ** Photo uploads *)

Lemma split_nonempty sep s : Photo.split sep s <> [].
Proof.
  destruct s as [|c r]; cbn; [discriminate|].
  destruct (Ascii.eqb c sep); [discriminate|].
  destruct (Photo.split sep r); discriminate.
Qed.

Lemma split_lacks sep s : Photo.lacks sep s = true -> Photo.split sep s = [s].
Proof.
  induction s as [|c r IH]; cbn; [reflexivity|].
  intros H. apply andb_true_iff in H. destruct H as [Hc Hr].
  apply negb_true_iff in Hc. rewrite Hc, (IH Hr). reflexivity.
Qed.

Lemma split_segments sep s :
  Forall (fun seg => Photo.lacks sep seg = true) (Photo.split sep s).
Proof.
  induction s as [|c r IH]; cbn.
  - constructor; [reflexivity|constructor].
  - destruct (Ascii.eqb c sep) eqn:E.
    + constructor; [reflexivity|exact IH].
    + destruct (Photo.split sep r) as [|seg rest].
      * constructor; [cbn; now rewrite E|constructor].
      * inversion IH; subst. constructor; [cbn; rewrite E; cbn; assumption|].
        assumption.
Qed.

Lemma split_app sep s e :
  Photo.split sep (s ++ String sep e)
    = (Photo.split sep s ++ Photo.split sep e)%list.
Proof.
  induction s as [|c r IH]; cbn.
  - now rewrite Ascii.eqb_refl.
  - destruct (Ascii.eqb c sep); [now rewrite IH|].
    rewrite IH. pose proof (split_nonempty sep r).
    destruct (Photo.split sep r); [contradiction|reflexivity].
Qed.

Lemma last_app_nonempty {A} (l1 l2 : list A) (d : A) :
  l2 <> [] -> last (l1 ++ l2) d = last l2 d.
Proof.
  intros H. induction l1 as [|x l1 IH]; [reflexivity|].
  cbn [app]. destruct (l1 ++ l2)%list eqn:E.
  - apply app_eq_nil in E. destruct E; contradiction.
  - rewrite <- IH. reflexivity.
Qed.

Lemma fileExt_lacks name : Photo.lacks Photo.dot (Photo.fileExt name) = true.
Proof.
  unfold Photo.fileExt.
  pose proof (split_segments Photo.dot name) as H.
  pose proof (split_nonempty Photo.dot name) as Hne.
  induction (Photo.split Photo.dot name) as [|x l IH]; [contradiction|].
  inversion H; subst. destruct l as [|y l]; [assumption|].
  apply IH; [assumption|discriminate].
Qed.

Lemma fileExt_app stem ext :
  Photo.lacks Photo.dot ext = true ->
  Photo.fileExt (stem ++ String Photo.dot ext) = ext.
Proof.
  intros H. unfold Photo.fileExt.
  rewrite split_app, (split_lacks _ _ H).
  rewrite last_app_nonempty by discriminate. reflexivity.
Qed.

Lemma last_cons2 {A} (a b : A) (l : list A) (d : A) :
  last (a :: b :: l) d = last (b :: l) d.
Proof. reflexivity. Qed.

Lemma fileExt_whole name :
  name = Photo.fileExt name \/
  exists stem, name = stem ++ String Photo.dot (Photo.fileExt name).
Proof.
  induction name as [|c r IH].
  - left. reflexivity.
  - unfold Photo.fileExt in *. cbn [Photo.split].
    pose proof (split_nonempty Photo.dot r) as Hne.
    pose proof (fileExt_lacks r) as Hl. unfold Photo.fileExt in Hl.
    destruct (Ascii.eqb_spec c Photo.dot) as [->|Hc].
    + right. destruct (Photo.split Photo.dot r) as [|x l] eqn:E;
        [contradiction|].
      rewrite last_cons2.
      destruct IH as [IH|[stem IH]].
      * exists EmptyString. cbn [append]. now rewrite <- IH.
      * exists (String Photo.dot stem). cbn [append]. now rewrite <- IH.
    + destruct (Photo.split Photo.dot r) as [|seg rest] eqn:E;
        [contradiction|].
      destruct rest as [|y rest].
      * left. cbn [last] in *. destruct IH as [IH|[stem IH]].
        -- now rewrite <- IH.
        -- exfalso. rewrite IH in E. rewrite split_app in E.
           apply (f_equal (@List.length string)) in E.
           rewrite length_app in E. cbn [List.length] in E.
           pose proof (split_nonempty Photo.dot stem).
           pose proof (split_nonempty Photo.dot seg).
           destruct (Photo.split Photo.dot stem), (Photo.split Photo.dot seg);
             try contradiction; cbn [List.length] in E; lia.
      * rewrite last_cons2. rewrite last_cons2 in IH, Hl.
        right. destruct IH as [IH|[stem IH]].
        -- exfalso. rewrite <- IH in Hl. apply split_lacks in Hl.
           rewrite Hl in E. discriminate.
        -- exists (String c stem). cbn [append]. now rewrite <- IH.
Qed.

Lemma append_assoc (a b c : string) : (a ++ b) ++ c = a ++ (b ++ c).
Proof. induction a as [|x a IH]; cbn; [reflexivity|now rewrite IH]. Qed.

(** The extension under which a photo is stored is what follows the last
    dot of the file's name -- the whole name when it has no dot --, contains
    no dot itself, and is again the extension of the path the photo is stored
    at. *)
Theorem photo_extension (user : string) (now : Z) (name : string) :
  Photo.lacks Photo.dot (Photo.fileExt name) = true /\
  (name = Photo.fileExt name \/
   exists stem, name = stem ++ "." ++ Photo.fileExt name) /\
  (Photo.lacks Photo.dot name = true -> Photo.fileExt name = name) /\
  Photo.fileExt (Photo.filePath user now name) = Photo.fileExt name.
Proof.
  split; [apply fileExt_lacks|]. split; [apply fileExt_whole|]. split.
  - intros H. unfold Photo.fileExt. now rewrite (split_lacks _ _ H).
  - unfold Photo.filePath.
    assert (E : "profile-photos/" ++ user ++ "-" ++ Photo.numberText now
                  ++ "." ++ Photo.fileExt name
                = ("profile-photos/" ++ user ++ "-" ++ Photo.numberText now)
                    ++ String Photo.dot (Photo.fileExt name)).
    { rewrite !append_assoc. reflexivity. }
    rewrite E. apply fileExt_app, fileExt_lacks.
Qed.

Lemma append_inj_length (a a' b b' : string) :
  String.length a = String.length a' -> a ++ b = a' ++ b' ->
  a = a' /\ b = b'.
Proof.
  revert a'. induction a as [|x a IH]; intros [|x' a'] Hlen E;
    try discriminate Hlen.
  - auto.
  - cbn in E. injection E as -> E. injection Hlen as Hlen.
    destruct (IH a' Hlen E) as [-> ->]. auto.
Qed.

Lemma split_at_dot (s s' e e' : string) :
  Photo.lacks Photo.dot s = true -> Photo.lacks Photo.dot s' = true ->
  s ++ String Photo.dot e = s' ++ String Photo.dot e' ->
  s = s' /\ e = e'.
Proof.
  revert s'. induction s as [|x s IH]; intros [|x' s'] Hs Hs' E; cbn in *.
  - injection E as ->. auto.
  - injection E as <- _. rewrite Ascii.eqb_refl in Hs'. discriminate.
  - injection E as -> _. rewrite Ascii.eqb_refl in Hs. discriminate.
  - injection E as -> E.
    apply andb_true_iff in Hs, Hs'.
    destruct (IH s' (proj2 Hs) (proj2 Hs') E) as [-> ->]. auto.
Qed.

Lemma numberText_lacks n : Photo.lacks Photo.dot (Photo.numberText n) = true.
Proof.
  unfold Photo.numberText.
  induction (N.to_uint (Z.to_N n)) as [|d IH|d IH|d IH|d IH|d IH|d IH|d IH
                                       |d IH|d IH|d IH]; cbn; auto.
Qed.

Lemma numberText_inj n n' :
  0 <= n -> 0 <= n' -> Photo.numberText n = Photo.numberText n' -> n = n'.
Proof.
  intros Hn Hn' E. unfold Photo.numberText in E.
  apply (f_equal NilEmpty.uint_of_string) in E.
  rewrite !NilEmpty.usu in E. injection E as E.
  apply DecimalN.Unsigned.to_uint_inj in E. now apply Z2N.inj.
Qed.

(** Two uploads are stored at the same path only if they come from the same
    user (ids have one length), in the same millisecond, with the same
    extension: no photo takes the place of another user's, or of an earlier
    one of the same user. *)
Theorem photo_paths_distinct (user user' : string) (now now' : Z)
    (name name' : string) :
  String.length user = String.length user' -> 0 <= now -> 0 <= now' ->
  Photo.filePath user now name = Photo.filePath user' now' name' ->
  user = user' /\ now = now' /\ Photo.fileExt name = Photo.fileExt name'.
Proof.
  intros Hlen Hn Hn' E. unfold Photo.filePath in E.
  apply (append_inj_length _ _ _ _ eq_refl) in E. destruct E as [_ E].
  apply (append_inj_length _ _ _ _ Hlen) in E. destruct E as [-> E].
  apply (append_inj_length "-" "-" _ _ eq_refl) in E. destruct E as [_ E].
  apply (split_at_dot _ _ _ _ (numberText_lacks now) (numberText_lacks now'))
    in E.
  destruct E as [E1 E2]. apply numberText_inj in E1; auto.
Qed.

Lemma photo_paths_distinct_witness :
  Photo.filePath "u-1" 1700000000000 "me.png"
    = "profile-photos/u-1-1700000000000.png" /\
  Photo.fileExt "me.png" = Photo.fileExt "beach.holiday.png".
Proof.
  split; [vm_compute; reflexivity|].
  unshelve epose proof
    (photo_paths_distinct "u-1" "u-1" 1700000000000 1700000000000
       "me.png" "beach.holiday.png" _ _ _ _) as H.
  1: reflexivity.
  1: lia.
  1: lia.
  1: vm_compute; reflexivity.
  destruct H as (_ & _ & H). exact H.
Defined.

Lemma photoOf_update user url rows objs :
  Photo.photoOf user
    {| Photo.objects := objs;
       Photo.photo_url :=
         map (fun row : string * option string =>
                if String.eqb (fst row) user then (fst row, Some url)
                else row) rows |}
  = if existsb (fun row => String.eqb (fst row) user) rows
    then Some url else None.
Proof.
  unfold Photo.photoOf. cbn [Photo.photo_url].
  induction rows as [|[k v] rows IH]; cbn; [reflexivity|].
  destruct (String.eqb k user) eqn:E; cbn; rewrite E; cbn; [reflexivity|].
  exact IH.
Qed.

(** What an upload leaves behind. It reports a URL exactly when it reports
    no error, and then the object is in the bucket at the path of the upload
    and the caller's profile, if there is one, shows the URL -- if there is
    none, the URL is reported all the same. When the profile update is
    refused after the object was stored, the upload reports an error but the
    object stays in the bucket and the profile keeps its old photo. An upload
    refused by the bucket changes nothing. *)
Theorem photo_upload_outcomes (publicUrl : string -> string)
    (net : Photo.Net) (me : string) (now : Z) (name : string)
    (m : Photo.Media) :
  let path := Photo.filePath me now name in
  let out := Photo.uploadProfilePhoto publicUrl net (Some me) now name m in
  let m' := fst (fst out) in
  let taken := existsb (String.eqb path) (Photo.objects m) in
  (snd (fst out) = Some (publicUrl path) <-> snd out = None) /\
  (snd (fst out) = None <-> snd out = Some Photo.Refused) /\
  (snd out = None <->
   Photo.fail_upload net = false /\ taken = false /\
   Photo.fail_update net = false) /\
  (snd out = None ->
   In path (Photo.objects m') /\
   Photo.photoOf me m' = if Photo.hasProfile me m
                         then Some (publicUrl path) else None) /\
  (Photo.fail_upload net = false -> taken = false ->
   Photo.fail_update net = true ->
   Photo.objects m' = (Photo.objects m ++ [path])%list /\
   Photo.photo_url m' = Photo.photo_url m) /\
  (Photo.fail_upload net = true \/ taken = true -> m' = m).
Proof.
  intros path out m' taken. subst out m'.
  unfold Photo.uploadProfilePhoto, Photo.upload, Photo.updatePhoto.
  fold path. fold taken.
  destruct (Photo.fail_upload net), taken, (Photo.fail_update net);
    cbn [orb fst snd Photo.objects Photo.photo_url].
  all: repeat split; try discriminate; try tauto; try congruence.
  all: try (intros (? & ? & ?); discriminate).
  all: try (intros [?|?]; discriminate).
  - apply in_or_app. right. now left.
  - unfold Photo.hasProfile. apply photoOf_update.
Qed.
